(** * exchange-helper-plugin: scoring and statistical-cube resolution

    A shallow embedding of the Go package (the listing analyser with its
    CSO crime-statistics resolver) and the properties its specification
    states about it.

    Two revisions of the main file are embedded.  The top level follows
    the revision that calls [GetCrimeStats] (regular-expression price
    parser, [slugify], suburb taken from the second-to-last address
    segment); [Module Rev0] holds the functions of the other revision
    that differ from it.  [crime_stats.go] is common to both. *)

From Stdlib Require Import ZArith QArith Qround Qabs Qpower Lia Lqa Bool String Ascii List DecimalString.
From stdpp Require Import base option gmap strings list fin_maps.

Local Open Scope Z_scope.

(** ** Go's machine integers

    [int] is 64 bits wide on the platforms the service is built for;
    arithmetic wraps around silently. *)
Module GoInt.

Definition min_int : Z := - 2 ^ 63.
Definition max_int : Z := 2 ^ 63 - 1.

Definition wrap (z : Z) : Z := (z + 2 ^ 63) mod 2 ^ 64 - 2 ^ 63.

Definition add (a b : Z) : Z := wrap (a + b).
Definition sub (a b : Z) : Z := wrap (a - b).
Definition mul (a b : Z) : Z := wrap (a * b).

(** [len(s)] of a slice, as an [int]. *)
Definition len {A} (l : list A) : Z := Z.of_nat (length l).

(** The package's own helpers [min] and [max] on [int]. *)
Definition min (a b : Z) : Z := if a <? b then a else b.
Definition max (a b : Z) : Z := if a >? b then a else b.

End GoInt.

(** ** Go's float64

    A finite binary64 value is kept as the rational it denotes, always
    in lowest terms.  Every arithmetic result is rounded to the nearest
    representable value, ties to even ([round64]).  The sign of zero is
    not tracked: the program never divides by a zero it has not tested
    for, and no comparison tells the two zeros apart. *)
Module F64.

Inductive float64 : Type :=
  | F_fin (q : Q)
  | F_inf (negative : bool)
  | F_nan.

(** Round a rational to the nearest integer, ties to even. *)
Definition rne (x : Q) : Z :=
  let f := Qfloor x in
  match Qcompare (x - inject_Z f) (1 # 2) with
  | Lt => f
  | Gt => f + 1
  | Eq => if Z.even f then f else f + 1
  end.

(** Rounding of a non-negative magnitude expressed in units of 2^-1074
    (the smallest subnormal).  Below 2^53 units the spacing is one unit;
    above, 53 significant bits are kept. *)
Definition shift_of (x : Q) : Z := Z.max 0 (Z.log2 (Qfloor x) - 52).

Definition round_units (x : Q) : Z :=
  let s := shift_of x in
  rne (x / inject_Z (2 ^ s)) * 2 ^ s.

Definition units_per_one : Z := 2 ^ 1074.
Definition overflow_units : Z := 2 ^ (1024 + 1074).

Definition Qneg (q : Q) : bool := Z.ltb (Qnum q) 0.

Definition round64 (q : Q) : float64 :=
  let r := round_units (Qabs q * inject_Z units_per_one) in
  if overflow_units <=? r then F_inf (Qneg q)
  else
    let m := if Qneg q then - r else r in
    F_fin (Qred (inject_Z m / inject_Z units_per_one)).

Definition of_Z (z : Z) : float64 := round64 (inject_Z z).

Definition zero : float64 := F_fin 0.

(** *** Comparisons (any comparison with NaN is false) *)

Definition ltb (a b : float64) : bool :=
  match a, b with
  | F_nan, _ | _, F_nan => false
  | F_fin x, F_fin y => if Qlt_le_dec x y then true else false
  | F_fin _, F_inf n => negb n
  | F_inf n, F_fin _ => n
  | F_inf n, F_inf m => n && negb m
  end.

Definition leb (a b : float64) : bool :=
  match a, b with
  | F_nan, _ | _, F_nan => false
  | F_fin x, F_fin y => if Qlt_le_dec y x then false else true
  | F_fin _, F_inf n => negb n
  | F_inf n, F_fin _ => n
  | F_inf n, F_inf m => n || negb m
  end.

Definition gtb (a b : float64) : bool := ltb b a.
Definition geb (a b : float64) : bool := leb b a.

Definition eqb (a b : float64) : bool :=
  match a, b with
  | F_fin x, F_fin y => Qeq_bool x y
  | F_inf n, F_inf m => Bool.eqb n m
  | _, _ => false
  end.

(** *** Arithmetic *)

Definition neg (a : float64) : float64 :=
  match a with
  | F_fin x => F_fin (Qred (- x))
  | F_inf n => F_inf (negb n)
  | F_nan => F_nan
  end.

Definition add (a b : float64) : float64 :=
  match a, b with
  | F_nan, _ | _, F_nan => F_nan
  | F_fin x, F_fin y => round64 (x + y)
  | F_fin _, F_inf n | F_inf n, F_fin _ => F_inf n
  | F_inf n, F_inf m => if Bool.eqb n m then F_inf n else F_nan
  end.

Definition sub (a b : float64) : float64 :=
  match a, b with
  | F_nan, _ | _, F_nan => F_nan
  | F_fin x, F_fin y => round64 (x - y)
  | F_fin _, F_inf n => F_inf (negb n)
  | F_inf n, F_fin _ => F_inf n
  | F_inf n, F_inf m => if Bool.eqb n m then F_nan else F_inf n
  end.

Definition mul (a b : float64) : float64 :=
  match a, b with
  | F_nan, _ | _, F_nan => F_nan
  | F_fin x, F_fin y => round64 (x * y)
  | F_fin x, F_inf n | F_inf n, F_fin x =>
      if Qeq_bool x 0 then F_nan else F_inf (xorb n (Qneg x))
  | F_inf n, F_inf m => F_inf (xorb n m)
  end.

Definition div (a b : float64) : float64 :=
  match a, b with
  | F_nan, _ | _, F_nan => F_nan
  | F_fin x, F_fin y =>
      if Qeq_bool y 0
      then (if Qeq_bool x 0 then F_nan else F_inf (Qneg x))
      else round64 (x / y)
  | F_fin _, F_inf _ => zero
  | F_inf n, F_fin y => F_inf (xorb n (Qneg y))
  | F_inf _, F_inf _ => F_nan
  end.

(** [int(f)]: truncation toward zero.  For a value outside the range of
    [int] (or NaN) the language leaves the result to the
    implementation; amd64 yields the smallest [int]. *)
Definition to_int (a : float64) : Z :=
  match a with
  | F_fin x =>
      let t := Z.quot (Qnum x) (Z.pos (Qden x)) in
      if (GoInt.min_int <=? t) && (t <=? GoInt.max_int) then t else GoInt.min_int
  | _ => GoInt.min_int
  end.

(** A decimal literal of the source, e.g. [0.5]. *)
Definition lit (q : Q) : float64 := round64 q.

End F64.

Export F64(float64, F_fin, F_inf, F_nan).

(** ** Go strings

    A Go string is a sequence of bytes, by convention UTF-8; Rocq's
    [string] (a list of 8-bit characters) is used as it is.  The
    functions of [unicode/utf8] and [strings] that the package calls are
    written out here.  Unicode properties of code points above the ASCII
    range (letter, decimal digit, case mappings) are large tables of the
    Go distribution; they are taken as a parameter ([GoTables]).  White
    space is a small table and is written out in full. *)
Module Utf8.

Definition byte_of (c : ascii) : Z := Z.of_N (N_of_ascii c).
Definition ascii_of (b : Z) : ascii := ascii_of_N (Z.to_N b).

Definition byte_at (i : nat) (s : string) : Z :=
  match String.get i s with
  | Some c => byte_of c
  | None => 0
  end.

Definition RuneError : Z := 65533.
Definition RuneSelf : Z := 128.
Definition MaxRune : Z := 1114111.

(** Size of the sequence a first byte announces, with the range
    accepted for the second byte. *)
Definition first (b0 : Z) : option (nat * Z * Z) :=
  if (194 <=? b0) && (b0 <=? 223) then Some (2%nat, 128, 191)
  else if b0 =? 224 then Some (3%nat, 160, 191)
  else if (225 <=? b0) && (b0 <=? 236) then Some (3%nat, 128, 191)
  else if b0 =? 237 then Some (3%nat, 128, 159)
  else if (238 <=? b0) && (b0 <=? 239) then Some (3%nat, 128, 191)
  else if b0 =? 240 then Some (4%nat, 144, 191)
  else if (241 <=? b0) && (b0 <=? 243) then Some (4%nat, 128, 191)
  else if b0 =? 244 then Some (4%nat, 128, 143)
  else None.

Definition is_cont (b : Z) : bool := (128 <=? b) && (b <=? 191).

(** [utf8.DecodeRuneInString]: the first rune of [s] and its width.
    An invalid or truncated sequence yields [(RuneError, 1)]. *)
Definition DecodeRune (s : string) : Z * nat :=
  match s with
  | EmptyString => (RuneError, 0%nat)
  | String c0 _ =>
      let b0 := byte_of c0 in
      if b0 <? RuneSelf then (b0, 1%nat)
      else
        match first b0 with
        | None => (RuneError, 1%nat)
        | Some (sz, lo, hi) =>
            if (String.length s <? sz)%nat then (RuneError, 1%nat)
            else
              let b1 := byte_at 1 s in
              if (b1 <? lo) || (hi <? b1) then (RuneError, 1%nat)
              else if (sz <=? 2)%nat
              then (Z.lor (Z.shiftl (Z.land b0 31) 6) (Z.land b1 63), 2%nat)
              else
                let b2 := byte_at 2 s in
                if negb (is_cont b2) then (RuneError, 1%nat)
                else if (sz <=? 3)%nat
                then (Z.lor (Z.lor (Z.shiftl (Z.land b0 15) 12)
                                   (Z.shiftl (Z.land b1 63) 6))
                            (Z.land b2 63), 3%nat)
                else
                  let b3 := byte_at 3 s in
                  if negb (is_cont b3) then (RuneError, 1%nat)
                  else (Z.lor (Z.lor (Z.lor (Z.shiftl (Z.land b0 7) 18)
                                            (Z.shiftl (Z.land b1 63) 12))
                                     (Z.shiftl (Z.land b2 63) 6))
                              (Z.land b3 63), 4%nat)
        end
  end.

Definition RuneStart (b : Z) : bool := negb (Z.land b 192 =? 128).

(** The backward scan of [utf8.DecodeLastRuneInString] for the start of
    the last rune: at most three bytes before the last one are looked at. *)
Fixpoint scan_back (fuel : nat) (start lim : Z) (s : string) : Z :=
  match fuel with
  | O => start
  | S k =>
      if start <? lim then start
      else if RuneStart (byte_at (Z.to_nat start) s) then start
      else scan_back k (start - 1) lim s
  end.

(** [utf8.DecodeLastRuneInString]. *)
Definition DecodeLastRune (s : string) : Z * nat :=
  let e := Z.of_nat (String.length s) in
  if e =? 0 then (RuneError, 0%nat)
  else
    let r := byte_at (Z.to_nat (e - 1)) s in
    if r <? RuneSelf then (r, 1%nat)
    else
      let lim := Z.max 0 (e - 4) in
      let start := Z.max 0 (scan_back 3 (e - 2) lim s) in
      let '(r, size) :=
        DecodeRune (substring (Z.to_nat start) (Z.to_nat (e - start)) s) in
      if start + Z.of_nat size =? e then (r, size) else (RuneError, 1%nat).

Definition str (bs : list Z) : string :=
  string_of_list_ascii (List.map ascii_of bs).

(** [utf8.EncodeRune] / [Builder.WriteRune]: an invalid rune is written
    as the encoding of [RuneError]. *)
Definition EncodeRune (r : Z) : string :=
  if (0 <=? r) && (r <=? 127) then str [r]
  else if (0 <=? r) && (r <=? 2047)
  then str [Z.lor 192 (Z.shiftr r 6); Z.lor 128 (Z.land r 63)]
  else if (r <? 0) || (MaxRune <? r) || ((55296 <=? r) && (r <=? 57343))
  then str [239; 191; 189]
  else if r <=? 65535
  then str [Z.lor 224 (Z.shiftr r 12);
            Z.lor 128 (Z.land (Z.shiftr r 6) 63);
            Z.lor 128 (Z.land r 63)]
  else str [Z.lor 240 (Z.shiftr r 18);
            Z.lor 128 (Z.land (Z.shiftr r 12) 63);
            Z.lor 128 (Z.land (Z.shiftr r 6) 63);
            Z.lor 128 (Z.land r 63)].

(** What [for i, r := range s] yields: at each rune start the offset,
    the rune and the bytes it was decoded from. *)
Fixpoint range_aux (skip : nat) (off : Z) (s : string) : list (Z * Z * string) :=
  match s with
  | EmptyString => []
  | String _ rest =>
      match skip with
      | S k => range_aux k (off + 1) rest
      | O =>
          let '(r, n) := DecodeRune s in
          (off, r, substring 0 n s) :: range_aux (n - 1) (off + 1) rest
      end
  end.

Definition range (s : string) : list (Z * Z * string) := range_aux 0 0 s.

Definition runes (s : string) : list Z := List.map (fun x => snd (fst x)) (range s).

End Utf8.

(** The parts of the Go distribution that are not written out: Unicode
    letters and decimal digits above Latin-1, case mappings above ASCII,
    what [strconv.ParseFloat] makes of a text that is not a plain
    decimal number (exponents, hexadecimal floats, infinities), and the
    elementary functions of package [math]. *)
Class GoTables : Type := {
  uc_IsLetter : Z -> bool;
  uc_IsDigit : Z -> bool;
  uc_ToLower : Z -> Z;
  uc_ToUpper : Z -> Z;
  parse_float_other : string -> option float64;
  math_Sin : float64 -> float64;
  math_Cos : float64 -> float64;
  math_Sqrt : float64 -> float64;
  math_Atan2 : float64 -> float64 -> float64
}.

Module Unicode.

Definition between (lo hi r : Z) : bool := (lo <=? r) && (r <=? hi).

(** [unicode.IsSpace]: the White_Space property. *)
Definition IsSpace (r : Z) : bool :=
  between 9 13 r || (r =? 32) || (r =? 133) || (r =? 160) || (r =? 5760)
  || between 8192 8202 r || (r =? 8232) || (r =? 8233) || (r =? 8239)
  || (r =? 8287) || (r =? 12288).

Section WithTables.
Context `{GoTables}.

(** [unicode.IsDigit]: within Latin-1 only the ASCII digits. *)
Definition IsDigit (r : Z) : bool :=
  if between 0 255 r then between 48 57 r else uc_IsDigit r.

(** [unicode.IsLetter]: the Latin-1 letters are written out. *)
Definition IsLetter (r : Z) : bool :=
  if between 0 255 r
  then between 65 90 r || between 97 122 r || (r =? 170) || (r =? 181)
       || (r =? 186) || between 192 214 r || between 216 246 r
       || between 248 255 r
  else uc_IsLetter r.

Definition ToLower (r : Z) : Z :=
  if r <=? 127 then (if between 65 90 r then r + 32 else r) else uc_ToLower r.

Definition ToUpper (r : Z) : Z :=
  if r <=? 127 then (if between 97 122 r then r - 32 else r) else uc_ToUpper r.

End WithTables.
End Unicode.

Module Strings.
Import Utf8.

Local Open Scope string_scope.
Local Open Scope Z_scope.

Definition isEmpty (s : string) : bool :=
  match s with EmptyString => true | _ => false end.

Definition HasPrefix (s p : string) : bool := String.prefix p s.

Definition TrimPrefix (s p : string) : string :=
  if HasPrefix s p
  then substring (String.length p) (String.length s - String.length p) s
  else s.

Fixpoint Contains (s sub : string) : bool :=
  String.prefix sub s ||
  match s with
  | EmptyString => false
  | String _ rest => Contains rest sub
  end.

(** The bytes of each UTF-8 sequence of [s], as [range] cuts them. *)
Definition explode (s : string) : list string := List.map snd (range s).

Fixpoint replace_aux (old new : string) (skip : nat) (s : string) : string :=
  match s with
  | EmptyString => EmptyString
  | String c rest =>
      match skip with
      | S k => replace_aux old new k rest
      | O =>
          if String.prefix old s
          then new ++ replace_aux old new (String.length old - 1) rest
          else String c (replace_aux old new 0 rest)
      end
  end.

(** [strings.ReplaceAll]: leftmost, non-overlapping occurrences.  An
    empty [old] matches before every UTF-8 sequence and at the end. *)
Definition ReplaceAll (s old new : string) : string :=
  if isEmpty old
  then new ++ String.concat "" (List.map (fun b => b ++ new) (explode s))
  else replace_aux old new 0 s.

Fixpoint split_aux (sep : string) (skip : nat) (cur s : string) : list string :=
  match s with
  | EmptyString => [cur]
  | String c rest =>
      match skip with
      | S k => split_aux sep k cur rest
      | O =>
          if String.prefix sep s
          then cur :: split_aux sep (String.length sep - 1) "" rest
          else split_aux sep 0 (cur ++ String c "") rest
      end
  end.

(** [strings.Split]: always at least one element for a non-empty [sep]. *)
Definition Split (s sep : string) : list string :=
  if isEmpty sep then explode s else split_aux sep 0 "" s.

Fixpoint trim_left_aux (f : Z -> bool) (cs : list (Z * Z * string)) : string :=
  match cs with
  | [] => ""
  | (_, r, b) :: rest =>
      if f r then trim_left_aux f rest
      else String.concat "" (List.map snd cs)
  end.

(** [strings.TrimLeftFunc]. *)
Definition TrimLeftFunc (s : string) (f : Z -> bool) : string :=
  trim_left_aux f (range s).

Fixpoint trim_right_aux (fuel : nat) (f : Z -> bool) (s : string) : string :=
  match fuel with
  | O => s
  | S k =>
      if isEmpty s then s
      else
        let '(r, size) := DecodeLastRune s in
        if f r
        then trim_right_aux k f (substring 0 (String.length s - size) s)
        else s
  end.

(** [strings.TrimRightFunc]: every step removes at least one byte, so
    the length of [s] is fuel enough. *)
Definition TrimRightFunc (s : string) (f : Z -> bool) : string :=
  trim_right_aux (String.length s) f s.

(** [strings.TrimSpace]. *)
Definition TrimSpace (s : string) : string :=
  TrimRightFunc (TrimLeftFunc s Unicode.IsSpace) Unicode.IsSpace.

Fixpoint fields_aux (cur : string) (cs : list (Z * Z * string)) : list string :=
  match cs with
  | [] => if isEmpty cur then [] else [cur]
  | (_, r, b) :: rest =>
      if Unicode.IsSpace r
      then (if isEmpty cur then fields_aux "" rest else cur :: fields_aux "" rest)
      else fields_aux (cur ++ b) rest
  end.

(** [strings.Fields]: the maximal runs of non-space runes. *)
Definition Fields (s : string) : list string := fields_aux "" (range s).

Fixpoint index_func_aux (f : Z -> bool) (cs : list (Z * Z * string)) : Z :=
  match cs with
  | [] => -1
  | (off, r, _) :: rest => if f r then off else index_func_aux f rest
  end.

(** [strings.IndexFunc]: byte offset of the first rune satisfying [f],
    or -1. *)
Definition IndexFunc (s : string) (f : Z -> bool) : Z :=
  index_func_aux f (range s).

(** [strings.Map]: a negative result drops the rune. *)
Definition Map (mapping : Z -> Z) (s : string) : string :=
  String.concat ""
    (List.map (fun r => let m := mapping r in
                         if m <? 0 then "" else EncodeRune m) (runes s)).

Section WithTables.
Context `{GoTables}.

Definition ToLower (s : string) : string := Map Unicode.ToLower s.
Definition ToUpper (s : string) : string := Map Unicode.ToUpper s.

End WithTables.
End Strings.

(** ** regexp and strconv, as far as the package uses them *)
Module Strconv.
Import Utf8.

Local Open Scope string_scope.
Local Open Scope Z_scope.

Definition is_digit (c : ascii) : bool :=
  (48 <=? byte_of c) && (byte_of c <=? 57).

(** The longest run of ASCII digits at the start of [s], and the rest. *)
Fixpoint take_digits (s : string) : string * string :=
  match s with
  | String c rest =>
      if is_digit c
      then let '(d, r) := take_digits rest in (String c d, r)
      else ("", s)
  | EmptyString => ("", "")
  end.

(** [regexp.MustCompile(`^[0-9]+(?:\.[0-9]+)?`).FindString]: the match
    is anchored at the start, both repetitions are greedy, and the
    optional group is taken whenever a digit follows the point. *)
Definition FindString_leading_number (s : string) : string :=
  let '(d, r) := take_digits s in
  if Strings.isEmpty d then ""
  else
    match r with
    | String "." r' =>
        let '(f, _) := take_digits r' in
        if Strings.isEmpty f then d else d ++ "." ++ f
    | _ => d
    end.

Definition digits_value (s : string) : Z :=
  fold_left (fun acc c => 10 * acc + (byte_of c - 48)) (list_ascii_of_string s) 0.

(** A plain decimal number: digits, optionally a point and more digits. *)
Definition plain_decimal (s : string) : option Q :=
  let '(d, r) := take_digits s in
  if Strings.isEmpty d then None
  else
    match r with
    | EmptyString => Some (inject_Z (digits_value d))
    | String "." r' =>
        let '(f, r'') := take_digits r' in
        if Strings.isEmpty f || negb (Strings.isEmpty r'') then None
        else
          let k := Z.of_nat (String.length f) in
          Some (Qmake (digits_value d * 10 ^ k + digits_value f)
                      (Z.to_pos (10 ^ k)))
    | _ => None
    end.

Section WithTables.
Context `{GoTables}.

(** [strconv.ParseFloat(s, 64)]: [None] stands for a non-nil error.  A
    plain decimal is rounded correctly; a value that rounds past the
    largest finite float64 is a range error. *)
Definition ParseFloat (s : string) : option float64 :=
  match plain_decimal s with
  | Some q =>
      match F64.round64 q with
      | F_fin v => Some (F_fin v)
      | _ => None
      end
  | None => parse_float_other s
  end.

End WithTables.
End Strconv.

(** ** Errors

    One constructor per place where the package returns a non-nil error;
    [ErrPanic] stands for a run-time panic (index out of range). *)
Inductive error : Type :=
  | ErrFetchCSO             (* failed to fetch CSO data *)
  | ErrStatusCSO (code : Z) (* CSO API returned status code *)
  | ErrReadBody             (* failed to read response body *)
  | ErrDecodeCSO            (* decoding CSO JSON *)
  | ErrDimensions (regionKey yearKey : string) (all : list string)
                            (* dimensões não encontradas *)
  | ErrDivisionNotFound (division : string)
                            (* divisão não encontrada no CSO *)
  | ErrYearNotAvailable (year : string)
                            (* ano não disponível *)
  | ErrPosition             (* posição fora do vetor Value *)
  | ErrGarda                (* the ArcGIS query or its decoding failed *)
  | ErrNoDivision           (* coordenadas fora de qualquer divisão Garda *)
  | ErrSearch               (* error searching nearby places *)
  | ErrVisit                (* error visiting search page *)
  | ErrOverpass             (* lighting query failed *)
  | ErrPanic.

Inductive result (A : Type) : Type :=
  | Ok (a : A)
  | Err (e : error).
Arguments Ok {A} a.
Arguments Err {A} e.

(** ** crime_stats.go *)

Record CrimeTypeData : Type := {
  Type_ : string;
  Count : Z
}.

Record CrimeStats : Type := {
  Total : Z;
  PerCapita : float64;
  Breakdown : list CrimeTypeData
}.

(** One entry of [PxStatResp.Dataset.Dimension]. *)
Record DimensionT : Type := {
  Label : string;
  Category_Index : list string;
  Category_Label : gmap string string
}.

Record PxStatResp : Type := {
  Dimension : gmap string DimensionT;
  Value : list float64
}.

(** What the request for the cube came to: no response at all, or a
    status code with a body that could not be read, could not be decoded,
    or decoded to a cube. *)
Inductive CubeBody : Type :=
  | BodyReadFailed
  | BodyUndecodable
  | BodyDecoded (px : PxStatResp).

Inductive CubeFetch : Type :=
  | CubeGetFailed
  | CubeResponse (StatusCode : Z) (body : CubeBody).

(** Go enumerates a map in an order of its own choosing, anew for every
    [range].  [fetchStats] ranges five times over [Dimension]; the order
    of each enumeration is an input of the model. *)
Record RangeOrders : Type := {
  ord_label : list string;
  ord_region : list string;
  ord_year : list string;
  ord_keys : list string;
  ord_all : list string
}.

(** An enumeration of a map lists each of its keys once. *)
Definition enumerates {V} (m : gmap string V) (ks : list string) : Prop :=
  ks ≡ₚ List.map fst (map_to_list m).

Definition valid_orders (px : PxStatResp) (o : RangeOrders) : Prop :=
  enumerates (Dimension px) (ord_label o) /\
  enumerates (Dimension px) (ord_region o) /\
  enumerates (Dimension px) (ord_year o) /\
  enumerates (Dimension px) (ord_keys o) /\
  enumerates (Dimension px) (ord_all o).

Section CrimeStatsGo.
Context `{GoTables}.

Local Open Scope string_scope.
Local Open Scope Z_scope.

Definition normalize (s : string) : string :=
  let s := Strings.ToLower s in
  let s :=
    fold_left (fun s r => Strings.ReplaceAll s (fst r) (snd r))
      [ (".", ""); (",", ""); ("-", ""); ("–", ""); ("—", "");
        ("(", ""); (")", ""); ("division", "");
        ("  ", " ") ] s in
  Strings.TrimSpace s.

Definition pop_table : gmap string Z :=
  list_to_map
    [ ("D.M.R. Northern Division", 180000);
      ("D.M.R. North Central Division", 300000);
      ("D.M.R. Southern Division", 200000);
      ("D.M.R. South Central Division", 280000);
      ("D.M.R. Eastern Division", 260000);
      ("D.M.R. Western Division", 220000) ].

Definition pop (div : string) : Z :=
  match pop_table !! div with
  | Some v => v
  | None => 100000
  end.

(** [getGardaDivision], from the decoded answer of the ArcGIS service:
    [None] when the request or the decoding failed, else the [Division]
    attribute of each feature. *)
Definition getGardaDivision (gr : option (list string)) : result string :=
  match gr with
  | None => Err ErrGarda
  | Some [] => Err ErrNoDivision
  | Some (d :: _) => Ok d
  end.

(** The synthetic figures returned when the cube has no dimension. *)
Definition fallbackStats (division : string) : CrimeStats :=
  let estimatedTotal := 500 in
  let population := pop division in
  let perCapita := F64.div (F64.of_Z estimatedTotal) (F64.of_Z population) in
  {| Total := estimatedTotal;
     PerCapita := perCapita;
     Breakdown := [ {| Type_ := "Property Crime"; Count := 300 |};
                    {| Type_ := "Violent Crime"; Count := 100 |};
                    {| Type_ := "Other Crime"; Count := 100 |} ] |}.

Definition labelIsRegion (l : string) : bool :=
  Strings.Contains l "garda" || Strings.Contains l "division"
  || Strings.Contains l "station" || Strings.Contains l "area"
  || Strings.Contains l "region".

Definition labelIsYear (l : string) : bool :=
  Strings.Contains l "year" || Strings.Contains l "time"
  || Strings.Contains l "period".

(** 1a: one pass over the dimensions, by descriptive label. *)
Definition keysByLabel (dims : gmap string DimensionT) (order : list string)
  : string * string :=
  fold_left
    (fun '(regionKey, yearKey) k =>
       match dims !! k with
       | None => (regionKey, yearKey)
       | Some v =>
           let l := Strings.ToLower (Label v) in
           let regionKey :=
             if Strings.isEmpty regionKey && labelIsRegion l then k else regionKey in
           let yearKey :=
             if Strings.isEmpty yearKey && labelIsYear l then k else yearKey in
           (regionKey, yearKey)
       end)
    order ("", "").

Definition keyIsRegion (k : string) : bool :=
  Strings.HasPrefix k "C0" || Strings.HasPrefix k "STATISTIC"
  || Strings.HasPrefix k "REGION" || Strings.HasPrefix k "AREA".

Definition keyIsYear (k : string) : bool :=
  Strings.HasPrefix (Strings.ToUpper k) "TLIST" || Strings.HasPrefix k "TIME"
  || Strings.HasPrefix k "YEAR" || Strings.HasPrefix k "PERIOD".

(** 1b: a [range] left at the first key accepted; the key stays as it
    was when none is. *)
Definition firstKey (p : string -> bool) (order : list string) (key : string)
  : string :=
  match List.find p order with
  | Some k => k
  | None => key
  end.

(** Steps 1a to 1c: the region key and the year key. *)
Definition resolveKeys (px : PxStatResp) (o : RangeOrders) : string * string :=
  let '(regionKey, yearKey) := keysByLabel (Dimension px) (ord_label o) in
  let regionKey :=
    if Strings.isEmpty regionKey then firstKey keyIsRegion (ord_region o) regionKey
    else regionKey in
  let yearKey :=
    if Strings.isEmpty yearKey then firstKey keyIsYear (ord_year o) yearKey
    else yearKey in
  if Strings.isEmpty regionKey || Strings.isEmpty yearKey then
    let keys := ord_keys o in
    if 2 <=? GoInt.len keys then
      (if Strings.isEmpty regionKey then nth 0 keys "" else regionKey,
       if Strings.isEmpty yearKey then nth 1 keys "" else yearKey)
    else (regionKey, yearKey)
  else (regionKey, yearKey).

(** The label of a category code; a code without label reads as the
    empty string, as a missing key of a Go map does. *)
Definition labelOf (d : DimensionT) (code : string) : string :=
  match Category_Label d !! code with
  | Some l => l
  | None => ""
  end.

Fixpoint matchRegionFrom (target : string) (d : DimensionT) (idx : Z)
    (codes : list string) : option (Z * string) :=
  match codes with
  | [] => None
  | code :: rest =>
      let lbl := labelOf d code in
      if String.eqb (normalize lbl) target || Strings.Contains (normalize lbl) target
      then Some (idx, lbl)
      else matchRegionFrom target d (idx + 1) rest
  end.

(** Step 2: index and label of the first region that matches. *)
Definition matchRegion (division : string) (regDim : DimensionT)
  : option (Z * string) :=
  matchRegionFrom (normalize division) regDim 0 (Category_Index regDim).

Fixpoint matchYearFrom (year : string) (idx : Z) (codes : list string)
  : option Z :=
  match codes with
  | [] => None
  | code :: rest =>
      if String.eqb code year then Some idx
      else matchYearFrom year (idx + 1) rest
  end.

(** Step 3: index of the year. *)
Definition matchYear (year : string) (yrDim : DimensionT) : option Z :=
  matchYearFrom year 0 (Category_Index yrDim).

(** Steps 4 to 6, once the indexes are known. *)
Definition extractTotal (px : PxStatResp) (regIdx : Z) (regLabel : string)
    (yrDim : DimensionT) (yrIdx : Z) : result CrimeStats :=
  let nYr := GoInt.len (Category_Index yrDim) in
  let pos := GoInt.add (GoInt.mul regIdx nYr) yrIdx in
  if pos >=? GoInt.len (Value px) then Err ErrPosition
  else if pos <? 0 then Err ErrPanic
  else
    let total := F64.to_int (nth (Z.to_nat pos) (Value px) F64.zero) in
    let p := pop regLabel in
    let perCap :=
      if p >? 0 then F64.div (F64.of_Z total) (F64.of_Z p) else F64.zero in
    Ok {| Total := total; PerCapita := perCap; Breakdown := [] |}.

(** [fetchStats], from the decoded cube on. *)
Definition statsOfCube (px : PxStatResp) (o : RangeOrders)
    (division year : string) : result CrimeStats :=
  if Z.of_nat (size (Dimension px)) =? 0 then Ok (fallbackStats division)
  else
    let '(regionKey, yearKey) := resolveKeys px o in
    match Dimension px !! regionKey, Dimension px !! yearKey with
    | Some regDim, Some yrDim =>
        match matchRegion division regDim with
        | None => Err (ErrDivisionNotFound division)
        | Some (regIdx, regLabel) =>
            match matchYear year yrDim with
            | None => Err (ErrYearNotAvailable year)
            | Some yrIdx => extractTotal px regIdx regLabel yrDim yrIdx
            end
        end
    | _, _ => Err (ErrDimensions regionKey yearKey (ord_all o))
    end.

Definition fetchStats (cube : CubeFetch) (o : RangeOrders)
    (division year : string) : result CrimeStats :=
  match cube with
  | CubeGetFailed => Err ErrFetchCSO
  | CubeResponse StatusCode body =>
      if negb (StatusCode =? 200) then Err (ErrStatusCSO StatusCode)
      else
        match body with
        | BodyReadFailed => Err ErrReadBody
        | BodyUndecodable => Err ErrDecodeCSO
        | BodyDecoded px => statsOfCube px o division year
        end
  end.

Definition GetCrimeStats (gr : option (list string)) (cube : CubeFetch)
    (o : RangeOrders) : result CrimeStats :=
  match getGardaDivision gr with
  | Err e => Err e
  | Ok div => fetchStats cube o div "2024"
  end.

End CrimeStatsGo.

(** ** fmt and math, as far as the package uses them *)
Module Fmt.

Local Open Scope string_scope.
Local Open Scope Z_scope.

(** [%d] *)
Definition d (z : Z) : string :=
  let digits := DecimalString.NilZero.string_of_uint (N.to_uint (Z.to_N (Z.abs z))) in
  if z <? 0 then "-" ++ digits else digits.

Fixpoint pad_zeros (n : nat) (s : string) : string :=
  match n with
  | O => s
  | S k => if (String.length s <? S k)%nat then pad_zeros k ("0" ++ s) else s
  end.

(** [%.<prec>f]: the exact value rounded to [prec] decimals, ties to
    even. *)
Definition f (prec : nat) (x : float64) : string :=
  match x with
  | F_nan => "NaN"
  | F_inf false => "+Inf"
  | F_inf true => "-Inf"
  | F_fin q =>
      let scale := 10 ^ Z.of_nat prec in
      let n := F64.rne (Qabs q * inject_Z scale) in
      let body :=
        match prec with
        | O => d n
        | _ => d (n / scale) ++ "." ++ pad_zeros prec (d (n mod scale))
        end in
      if F64.Qneg q then "-" ++ body else body
  end.

End Fmt.

Module Math.

(** [math.Pi], the constant of the Go distribution. *)
Definition Pi : Q :=
  Qmake 314159265358979323846264338327950288419716939937510582097494459
        (10 ^ 62).

(** [math.Round]: half away from zero; the result is an integer that
    float64 represents exactly. *)
Definition Round (x : float64) : float64 :=
  match x with
  | F_fin q =>
      let n := Qfloor (Qabs q + (1 # 2)) in
      F_fin (inject_Z (if F64.Qneg q then - n else n))
  | _ => x
  end.

End Math.

(** [strconv.Atoi], the value it returns (the error is discarded by its
    only caller): zero for a text that is not a signed decimal number,
    the nearest bound for one out of range. *)
Definition Atoi_value (s : string) : Z :=
  let '(negative, body) :=
    match s with
    | String "-" r => (true, r)
    | String "+" r => (false, r)
    | _ => (false, s)
    end in
  let '(ds, rest) := Strconv.take_digits body in
  if Strings.isEmpty ds || negb (Strings.isEmpty rest) then 0
  else
    let v := Strconv.digits_value ds in
    let v := if negative then - v else v in
    if v <? GoInt.min_int then GoInt.min_int
    else if GoInt.max_int <? v then GoInt.max_int
    else v.

(** ** The data of main.go *)

Module POI.
Record t : Type := {
  Name : string;
  Type_ : string;
  Distance : float64;   (* km *)
  Duration : Z          (* minutes on foot *)
}.
End POI.

Module SimilarProperty.
Record t : Type := {
  Address : string;
  Price : float64;
  URL : string
}.
End SimilarProperty.

(** A result of the Places service ([maps.PlacesSearchResult]). *)
Module Place.
Record t : Type := {
  Name : string;
  Lat : float64;
  Lng : float64;
  Types : list string
}.
End Place.

Record SafetyInfoT : Type := {
  CrimeRate : float64;
  SafetyRating : Z;
  NearbyGardai : list POI.t;
  StreetLighting : string
}.

Record QualityOfLifeT : Type := {
  TransportScore : Z;
  PublicTransport : list POI.t;
  Amenities : list POI.t;
  Entertainment : list POI.t;
  WalkScore : Z
}.

Record ValueAnalysisT : Type := {
  AreaAveragePrice : float64;
  PriceRating : Z;
  Similar : list SimilarProperty.t
}.

Record PropertyInfo : Type := {
  Address : string;
  RentPrice : string;
  URL : string;
  Lat : float64;
  Lng : float64;
  SafetyInfo : SafetyInfoT;
  QualityOfLife : QualityOfLifeT;
  ValueAnalysis : ValueAnalysisT
}.

Definition with_QualityOfLife (p : PropertyInfo) (q : QualityOfLifeT) : PropertyInfo :=
  {| Address := Address p; RentPrice := RentPrice p; URL := URL p;
     Lat := Lat p; Lng := Lng p; SafetyInfo := SafetyInfo p;
     QualityOfLife := q; ValueAnalysis := ValueAnalysis p |}.

Definition with_ValueAnalysis (p : PropertyInfo) (v : ValueAnalysisT) : PropertyInfo :=
  {| Address := Address p; RentPrice := RentPrice p; URL := URL p;
     Lat := Lat p; Lng := Lng p; SafetyInfo := SafetyInfo p;
     QualityOfLife := QualityOfLife p; ValueAnalysis := v |}.

Definition with_SafetyInfo (p : PropertyInfo) (s : SafetyInfoT) : PropertyInfo :=
  {| Address := Address p; RentPrice := RentPrice p; URL := URL p;
     Lat := Lat p; Lng := Lng p; SafetyInfo := s;
     QualityOfLife := QualityOfLife p; ValueAnalysis := ValueAnalysis p |}.

Definition set_PublicTransport (q : QualityOfLifeT) (l : list POI.t) : QualityOfLifeT :=
  {| TransportScore := TransportScore q; PublicTransport := l;
     Amenities := Amenities q; Entertainment := Entertainment q;
     WalkScore := WalkScore q |}.

Definition set_TransportScore (q : QualityOfLifeT) (s : Z) : QualityOfLifeT :=
  {| TransportScore := s; PublicTransport := PublicTransport q;
     Amenities := Amenities q; Entertainment := Entertainment q;
     WalkScore := WalkScore q |}.

Definition set_Amenities (q : QualityOfLifeT) (l : list POI.t) : QualityOfLifeT :=
  {| TransportScore := TransportScore q; PublicTransport := PublicTransport q;
     Amenities := l; Entertainment := Entertainment q;
     WalkScore := WalkScore q |}.

Definition set_Entertainment (q : QualityOfLifeT) (l : list POI.t) : QualityOfLifeT :=
  {| TransportScore := TransportScore q; PublicTransport := PublicTransport q;
     Amenities := Amenities q; Entertainment := l;
     WalkScore := WalkScore q |}.

Definition set_WalkScore (q : QualityOfLifeT) (s : Z) : QualityOfLifeT :=
  {| TransportScore := TransportScore q; PublicTransport := PublicTransport q;
     Amenities := Amenities q; Entertainment := Entertainment q;
     WalkScore := s |}.

Definition set_Similar (v : ValueAnalysisT) (l : list SimilarProperty.t) : ValueAnalysisT :=
  {| AreaAveragePrice := AreaAveragePrice v; PriceRating := PriceRating v;
     Similar := l |}.

Definition set_AreaAveragePrice (v : ValueAnalysisT) (a : float64) : ValueAnalysisT :=
  {| AreaAveragePrice := a; PriceRating := PriceRating v; Similar := Similar v |}.

Definition set_PriceRating (v : ValueAnalysisT) (r : Z) : ValueAnalysisT :=
  {| AreaAveragePrice := AreaAveragePrice v; PriceRating := r; Similar := Similar v |}.

(** [AnalysisResponse]: the property with the safety analysis. *)
Module Analysis.

Record Station : Type := {
  Name : string;
  Distance : float64;
  Phone : string
}.

Record t : Type := {
  Property : PropertyInfo;
  CrimeStats_Total : Z;
  CrimeStats_PerCapita : float64;
  CrimeStats_Breakdown : list CrimeTypeData;
  NearbyGardai : list Station;
  StreetLighting_Rating : Z;
  StreetLighting_Description : string;
  SafetyScore : Z;
  SafetyFactors : list string;
  RiskFactors : list string
}.

(** [AnalysisResponse{Property: property}]: every other field zero. *)
Definition of_property (p : PropertyInfo) : t :=
  {| Property := p;
     CrimeStats_Total := 0; CrimeStats_PerCapita := F64.zero;
     CrimeStats_Breakdown := [];
     NearbyGardai := [];
     StreetLighting_Rating := 0; StreetLighting_Description := EmptyString;
     SafetyScore := 0; SafetyFactors := []; RiskFactors := [] |}.

End Analysis.

(** ** The collaborators *)

(** The Places service, asked at the property's coordinates for a
    keyword within a radius. *)
Definition PlaceSearch : Type := string -> Z -> result (list Place.t).

(** An advert of the page's [__NEXT_DATA__] script. *)
Record Advert : Type := {
  DisplayAddress : string;
  Price_Monthly : Z;
  Price_Weekly : Z;
  AdPath : string
}.

(** A result item of the search page as the selectors read it: the link
    target, the text of the address and the text of the price, each the
    empty string when the element is missing. *)
Record ResultItem : Type := {
  item_href : string;
  item_address : string;
  item_price : string
}.

(** What visiting the search page came to: an error, or a page with its
    [__NEXT_DATA__] scripts ([None] for one that does not decode) and
    its result items, both in document order. *)
Inductive VisitOutcome : Type :=
  | VisitFailed
  | Visited (scripts : list (option (list Advert))) (items : list ResultItem).

Definition ListingSearch : Type := string -> VisitOutcome.

(** The Overpass answer to the street-lamp count query. *)
Inductive LightingQuery : Type :=
  | LightingFailed
  | LightingResponse (StatusCode : Z) (elements : option (list (gmap string string))).

(** ** main.go and distance.go *)
Section MainGo.
Context `{GoTables}.

Local Open Scope string_scope.
Local Open Scope Z_scope.

(** distance.go: the haversine formula.  [math.Pi / 180] is a constant
    expression, evaluated exactly before it is rounded. *)
Definition calculateDistance (lat1 lng1 lat2 lng2 : float64) : float64 :=
  let earthRadiusKm := F64.lit 6371 in
  let rad := F64.lit (Math.Pi / 180) in
  let two := F64.lit 2 in
  let dLat := F64.mul (F64.sub lat2 lat1) rad in
  let dLng := F64.mul (F64.sub lng2 lng1) rad in
  let a :=
    F64.add
      (F64.mul (math_Sin (F64.div dLat two)) (math_Sin (F64.div dLat two)))
      (F64.mul
         (F64.mul
            (F64.mul (math_Cos (F64.mul lat1 rad)) (math_Cos (F64.mul lat2 rad)))
            (math_Sin (F64.div dLng two)))
         (math_Sin (F64.div dLng two))) in
  let c := F64.mul two (math_Atan2 (math_Sqrt a) (math_Sqrt (F64.sub (F64.lit 1) a))) in
  F64.mul earthRadiusKm c.

(** [int(dist * 1000 / 80)]: minutes at 80 m per minute. *)
Definition walkMinutes (dist : float64) : Z :=
  F64.to_int (F64.div (F64.mul dist (F64.lit 1000)) (F64.lit 80)).

(** The score block of [findPublicTransport]. *)
Definition transportScore (stations : list POI.t) : Z :=
  let score := 5 in
  if GoInt.len stations >? 0 then
    let nearestStation := nth 0 stations
      {| POI.Name := ""; POI.Type_ := ""; POI.Distance := F64.zero; POI.Duration := 0 |} in
    let score :=
      if F64.ltb (POI.Distance nearestStation) (F64.lit (1 # 2)) then GoInt.add score 3
      else if F64.ltb (POI.Distance nearestStation) (F64.lit 1) then GoInt.add score 2
      else score in
    if GoInt.len stations >? 1 then GoInt.add score 2 else score
  else score.

Definition stationPOI (property : PropertyInfo) (station : Place.t) : POI.t :=
  let dist := calculateDistance (Lat property) (Lng property)
                                (Place.Lat station) (Place.Lng station) in
  let tType := match Place.Types station with
               | [] => ""
               | ty :: _ => ty
               end in
  {| POI.Name := Place.Name station; POI.Type_ := tType;
     POI.Distance := dist; POI.Duration := walkMinutes dist |}.

Definition findPublicTransport (property : PropertyInfo) (search : PlaceSearch)
  : result PropertyInfo :=
  match search "train_station" 2000 with
  | Err e => Err e
  | Ok trainStations =>
      match search "bus_station" 1000 with
      | Err e => Err e
      | Ok busStops =>
          let q := QualityOfLife property in
          let transport :=
            fold_left (fun acc station => acc ++ [stationPOI property station])%list
                      (trainStations ++ busStops)%list (PublicTransport q) in
          let q := set_PublicTransport q transport in
          let q := set_TransportScore q (transportScore (PublicTransport q)) in
          Ok (with_QualityOfLife property q)
      end
  end.

(** The loops of [findAmenities] and [findEntertainment]: a keyword
    whose search fails is skipped. *)
Definition collectPlaces (property : PropertyInfo) (search : PlaceSearch)
    (types : list string) (radius : Z) (start : list POI.t) : list POI.t :=
  fold_left
    (fun acc placeType =>
       match search placeType radius with
       | Err _ => acc
       | Ok places =>
           fold_left
             (fun acc place =>
                let dist := calculateDistance (Lat property) (Lng property)
                                              (Place.Lat place) (Place.Lng place) in
                acc ++ [ {| POI.Name := Place.Name place; POI.Type_ := placeType;
                            POI.Distance := dist;
                            POI.Duration := walkMinutes dist |} ])%list
             places acc
       end)
    types start.

Definition findAmenities (property : PropertyInfo) (search : PlaceSearch)
  : PropertyInfo :=
  let amenityTypes :=
    [ "supermarket"; "pharmacy"; "convenience_store"; "shopping_mall";
      "bank"; "hospital"; "doctor" ] in
  let q := QualityOfLife property in
  with_QualityOfLife property
    (set_Amenities q (collectPlaces property search amenityTypes 1500 (Amenities q))).

Definition findEntertainment (property : PropertyInfo) (search : PlaceSearch)
  : PropertyInfo :=
  let entertainmentTypes :=
    [ "restaurant"; "bar"; "cafe"; "movie_theater"; "gym"; "park" ] in
  let q := QualityOfLife property in
  with_QualityOfLife property
    (set_Entertainment q
       (collectPlaces property search entertainmentTypes 2000 (Entertainment q))).

(** The number of places closer than 1 km. *)
Definition nearby (l : list POI.t) : Z :=
  fold_left
    (fun n p => if F64.ltb (POI.Distance p) (F64.lit 1) then GoInt.add n 1 else n)
    l 0.

Definition calculateWalkScore (property : PropertyInfo) : PropertyInfo :=
  let q := QualityOfLife property in
  let score := 50 in
  let amenitiesNearby := nearby (Amenities q) in
  let entertainmentNearby := nearby (Entertainment q) in
  let score := GoInt.add score (GoInt.min (GoInt.mul amenitiesNearby 5) 25) in
  let score := GoInt.add score (GoInt.min (GoInt.mul entertainmentNearby 5) 25) in
  let score :=
    if TransportScore q >=? 7 then GoInt.add score 10
    else if TransportScore q >=? 5 then GoInt.add score 5
    else score in
  with_QualityOfLife property
    (set_WalkScore q (GoInt.min (GoInt.max score 0) 100)).

(** [getQualityOfLife] once the API key is known to be set: a failing
    stage is logged and the next one runs. *)
Definition getQualityOfLife (property : PropertyInfo) (search : PlaceSearch)
  : PropertyInfo :=
  let property :=
    match findPublicTransport property search with
    | Ok p => p
    | Err _ => property
    end in
  let property := findAmenities property search in
  let property := findEntertainment property search in
  calculateWalkScore property.

(** [extractPriceValue]: the number at the start of a price text, 0
    when there is none or it does not parse. *)
Definition extractPriceValue (price : string) : float64 :=
  let price := Strings.TrimSpace price in
  let price := Strings.ReplaceAll price "€" "" in
  let price := Strings.ReplaceAll price "," "" in
  let price := Strings.ReplaceAll price " " "" in
  let match_ := Strconv.FindString_leading_number price in
  if Strings.isEmpty match_ then F64.zero
  else
    match Strconv.ParseFloat match_ with
    | None => F64.zero
    | Some value => value
    end.

Definition keepRune (r : Z) : bool :=
  Unicode.IsLetter r || Unicode.IsDigit r || (r =? 45).

(** The [for _, r := range s] loop of both slug functions. *)
Definition keepSlugRunes (s : string) : string :=
  String.concat ""
    (List.map Utf8.EncodeRune (List.filter keepRune (Utf8.runes s))).

Definition slugify (s : string) : string :=
  keepSlugRunes
    (Strings.ToLower (Strings.TrimSpace (Strings.ReplaceAll s " " "-"))).

(** The closure of the same name inside [findSimilarProperties]. *)
Definition slugify_local (s : string) : string :=
  keepSlugRunes (Strings.ToLower (Strings.ReplaceAll s " " "-")).

(** The county segment without a leading "co." or "county". *)
Definition stripCountyPrefix (county : string) : string :=
  Strings.TrimSpace
    (Strings.TrimPrefix (Strings.TrimPrefix county "co.") "county").

(** A county that holds a digit is cut to its first word.
    [strings.Fields(county)[0]] panics on an empty list of fields. *)
Definition firstWordIfDigit (county : string) : result string :=
  if negb (Strings.IndexFunc county Unicode.IsDigit =? -1)
  then match Strings.Fields county with
       | [] => Err ErrPanic
       | w :: _ => Ok w
       end
  else Ok county.

(** The comma-separated parts of an address, trimmed and lower-cased,
    without the empty ones. *)
Definition addressSegments (addr : string) : list string :=
  let parts := Strings.Split addr "," in
  let parts := List.map (fun p => Strings.ToLower (Strings.TrimSpace p)) parts in
  List.filter (fun p => negb (Strings.isEmpty p)) parts.

Definition extractLocationFromAddress (addr : string) : result string :=
  let filtered := addressSegments addr in
  if GoInt.len filtered =? 0 then Ok ""
  else
    let n := length filtered in
    let suburb := if 2 <=? GoInt.len filtered then nth (n - 2) filtered "" else "" in
    let county := nth (n - 1) filtered "" in
    let county := stripCountyPrefix county in
    match firstWordIfDigit county with
    | Err e => Err e
    | Ok county => Ok (slugify suburb ++ "-" ++ slugify county)
    end.

Definition roundToNearest50 (value : float64) : float64 :=
  F64.mul (Math.Round (F64.div value (F64.lit 50))) (F64.lit 50).

(** The handler of [script#__NEXT_DATA__]. *)
Definition onNextData (similar : list SimilarProperty.t)
    (script : option (list Advert)) : list SimilarProperty.t :=
  match script with
  | None => similar
  | Some adverts =>
      fold_left
        (fun acc ad =>
           let price := Price_Monthly ad in
           let price := if price =? 0 then Price_Weekly ad else price in
           if price =? 0 then acc
           else (acc ++ [ {| SimilarProperty.Address := DisplayAddress ad;
                             SimilarProperty.Price := F64.of_Z price;
                             SimilarProperty.URL := "https://www.daft.ie" ++ AdPath ad |} ])%list)
        adverts similar
  end.

(** The handler of [li[data-testid^='result-']]. *)
Definition onResultItem (similar : list SimilarProperty.t) (e : ResultItem)
  : list SimilarProperty.t :=
  let href := item_href e in
  if Strings.isEmpty href then similar
  else
    let address := Strings.TrimSpace (item_address e) in
    if Strings.isEmpty address then similar
    else
      let priceTxt := Strings.TrimSpace (item_price e) in
      let price := extractPriceValue priceTxt in
      if F64.eqb price F64.zero then similar
      else (similar ++ [ {| SimilarProperty.Address := address;
                            SimilarProperty.Price := price;
                            SimilarProperty.URL := "https://www.daft.ie" ++ href |} ])%list.

Definition searchURL (property : PropertyInfo) : result string :=
  let basePrice := extractPriceValue (RentPrice property) in
  let minPrice := roundToNearest50 (F64.mul basePrice (F64.lit (8 # 10))) in
  let maxPrice := roundToNearest50 (F64.mul basePrice (F64.lit (12 # 10))) in
  match extractLocationFromAddress (Address property) with
  | Err e => Err e
  | Ok location =>
      let locSlug := slugify_local location in
      Ok ("https://www.daft.ie/sharing/" ++ locSlug
          ++ "?rentalPrice_from=" ++ Fmt.f 0 minPrice
          ++ "&rentalPrice_to=" ++ Fmt.f 0 maxPrice)
  end.

(** [findSimilarProperties].  The collector runs the handlers in the
    order of their registration, each over all the elements it selects. *)
Definition findSimilarProperties (property : PropertyInfo) (visit : ListingSearch)
  : result PropertyInfo :=
  match searchURL property with
  | Err e => Err e
  | Ok url =>
      match visit url with
      | VisitFailed => Err ErrVisit
      | Visited scripts items =>
          let v := ValueAnalysis property in
          let similar := fold_left onNextData scripts (Similar v) in
          let similar := fold_left onResultItem items similar in
          let similar :=
            if GoInt.len similar >? 5 then firstn 5 similar else similar in
          Ok (with_ValueAnalysis property (set_Similar v similar))
      end
  end.

Definition calculateAreaAveragePrice (property : PropertyInfo) : PropertyInfo :=
  let v := ValueAnalysis property in
  if GoInt.len (Similar v) =? 0 then property
  else
    let '(total, count) :=
      fold_left
        (fun '(total, count) similar =>
           if F64.gtb (SimilarProperty.Price similar) F64.zero
           then (F64.add total (SimilarProperty.Price similar), GoInt.add count 1)
           else (total, count))
        (Similar v) (F64.zero, 0) in
    if count >? 0
    then with_ValueAnalysis property
           (set_AreaAveragePrice v (F64.div total (F64.of_Z count)))
    else property.

(** The percentage by which a price lies below the average. *)
Definition priceDiff (avgPrice currentPrice : float64) : float64 :=
  F64.mul (F64.div (F64.sub avgPrice currentPrice) avgPrice) (F64.lit 100).

(** The [switch] of [calculatePriceRating]. *)
Definition ratingOfDiff (priceDiff : float64) : Z :=
  if F64.geb priceDiff (F64.lit 20) then 10
  else if F64.geb priceDiff (F64.lit 15) then 9
  else if F64.geb priceDiff (F64.lit 10) then 8
  else if F64.geb priceDiff (F64.lit 5) then 7
  else if F64.geb priceDiff (F64.lit 0) then 6
  else if F64.geb priceDiff (F64.lit (-5)) then 5
  else if F64.geb priceDiff (F64.lit (-10)) then 4
  else if F64.geb priceDiff (F64.lit (-15)) then 3
  else if F64.geb priceDiff (F64.lit (-20)) then 2
  else 1.

Definition calculatePriceRating (property : PropertyInfo) : PropertyInfo :=
  let v := ValueAnalysis property in
  if F64.eqb (AreaAveragePrice v) F64.zero then property
  else
    let currentPrice := extractPriceValue (RentPrice property) in
    let avgPrice := AreaAveragePrice v in
    with_ValueAnalysis property
      (set_PriceRating v (ratingOfDiff (priceDiff avgPrice currentPrice))).

(** [analyzeValue], without the price history, which no score reads.  A
    failing search is logged; a panic ends the request. *)
Definition analyzeValue (property : PropertyInfo) (visit : ListingSearch)
  : result PropertyInfo :=
  match
    match findSimilarProperties property visit with
    | Ok p => Ok p
    | Err ErrPanic => Err ErrPanic
    | Err _ => Ok property
    end
  with
  | Err e => Err e
  | Ok property =>
      Ok (calculatePriceRating (calculateAreaAveragePrice property))
  end.

End MainGo.

(** ** The safety analysis *)
Section SafetyGo.
Context `{GoTables}.

Local Open Scope string_scope.
Local Open Scope Z_scope.

Definition set_gardai (a : Analysis.t) (l : list Analysis.Station) : Analysis.t :=
  {| Analysis.Property := Analysis.Property a;
     Analysis.CrimeStats_Total := Analysis.CrimeStats_Total a;
     Analysis.CrimeStats_PerCapita := Analysis.CrimeStats_PerCapita a;
     Analysis.CrimeStats_Breakdown := Analysis.CrimeStats_Breakdown a;
     Analysis.NearbyGardai := l;
     Analysis.StreetLighting_Rating := Analysis.StreetLighting_Rating a;
     Analysis.StreetLighting_Description := Analysis.StreetLighting_Description a;
     Analysis.SafetyScore := Analysis.SafetyScore a;
     Analysis.SafetyFactors := Analysis.SafetyFactors a; Analysis.RiskFactors := Analysis.RiskFactors a |}.

Definition set_lighting (a : Analysis.t) (rating : Z) (description : string)
  : Analysis.t :=
  {| Analysis.Property := Analysis.Property a;
     Analysis.CrimeStats_Total := Analysis.CrimeStats_Total a;
     Analysis.CrimeStats_PerCapita := Analysis.CrimeStats_PerCapita a;
     Analysis.CrimeStats_Breakdown := Analysis.CrimeStats_Breakdown a;
     Analysis.NearbyGardai := Analysis.NearbyGardai a;
     Analysis.StreetLighting_Rating := rating;
     Analysis.StreetLighting_Description := description;
     Analysis.SafetyScore := Analysis.SafetyScore a;
     Analysis.SafetyFactors := Analysis.SafetyFactors a; Analysis.RiskFactors := Analysis.RiskFactors a |}.

Definition set_crime (a : Analysis.t) (s : CrimeStats) : Analysis.t :=
  {| Analysis.Property := Analysis.Property a;
     Analysis.CrimeStats_Total := Total s;
     Analysis.CrimeStats_PerCapita := PerCapita s;
     Analysis.CrimeStats_Breakdown := Breakdown s;
     Analysis.NearbyGardai := Analysis.NearbyGardai a;
     Analysis.StreetLighting_Rating := Analysis.StreetLighting_Rating a;
     Analysis.StreetLighting_Description := Analysis.StreetLighting_Description a;
     Analysis.SafetyScore := Analysis.SafetyScore a;
     Analysis.SafetyFactors := Analysis.SafetyFactors a; Analysis.RiskFactors := Analysis.RiskFactors a |}.

Definition set_score (a : Analysis.t) (score : Z) (factors risks : list string)
  : Analysis.t :=
  {| Analysis.Property := Analysis.Property a;
     Analysis.CrimeStats_Total := Analysis.CrimeStats_Total a;
     Analysis.CrimeStats_PerCapita := Analysis.CrimeStats_PerCapita a;
     Analysis.CrimeStats_Breakdown := Analysis.CrimeStats_Breakdown a;
     Analysis.NearbyGardai := Analysis.NearbyGardai a;
     Analysis.StreetLighting_Rating := Analysis.StreetLighting_Rating a;
     Analysis.StreetLighting_Description := Analysis.StreetLighting_Description a;
     Analysis.SafetyScore := score;
     Analysis.SafetyFactors := factors; Analysis.RiskFactors := risks |}.

(** [findNearbyGardai], from the answer of the Places service for
    "garda station police" within 5 km. *)
Definition findNearbyGardai (analysis : Analysis.t) (search : PlaceSearch)
  : result Analysis.t :=
  match search "garda station police" 5000 with
  | Err e => Err e
  | Ok places =>
      let p := Analysis.Property analysis in
      Ok (set_gardai analysis
            (fold_left
               (fun acc place =>
                  acc ++ [ {| Analysis.Name := Place.Name place;
                              Analysis.Distance := calculateDistance (Lat p) (Lng p)
                                            (Place.Lat place) (Place.Lng place);
                              Analysis.Phone := "" |} ])%list
               places (Analysis.NearbyGardai analysis)))
  end.

(** The rating a count of street lamps earns. *)
Definition lightingRating (count : Z) : Z :=
  if count >? 50 then 10
  else if count >? 20 then 8
  else if count >? 10 then 6
  else 4.

Definition analyzeStreetLighting (analysis : Analysis.t) (lq : LightingQuery)
  : result Analysis.t :=
  match lq with
  | LightingFailed => Err ErrOverpass
  | LightingResponse StatusCode elements =>
      if negb (StatusCode =? 200) then Err ErrOverpass
      else
        match elements with
        | None => Err ErrOverpass
        | Some elements =>
            let count :=
              match elements with
              | [] => 0
              | e :: _ =>
                  match e !! "nodes" with
                  | Some v => Atoi_value v
                  | None => 0
                  end
              end in
            Ok (set_lighting analysis (lightingRating count)
                  (Fmt.d count ++ " street lights within 500m"))
        end
  end.

Definition getCrimeStats (analysis : Analysis.t) (gr : option (list string))
    (cube : CubeFetch) (o : RangeOrders) : result Analysis.t :=
  match GetCrimeStats gr cube o with
  | Err e => Err e
  | Ok stats => Ok (set_crime analysis stats)
  end.

Definition calculateSafetyScore (analysis : Analysis.t) : Analysis.t :=
  let SafetyFactors := [] in
  let SafetyFactors :=
    match Analysis.NearbyGardai analysis with
    | [] => SafetyFactors
    | g :: _ =>
        let factor := "Garda station within " ++ Fmt.f 1 (Analysis.Distance g) ++ " km" in
        (SafetyFactors ++ [ factor ])%list
    end in
  let SafetyFactors :=
    if Analysis.StreetLighting_Rating analysis >=? 7
    then (SafetyFactors ++ [ "Well-lit streets" ])%list
    else SafetyFactors in
  let RiskFactors := [] in
  let RiskFactors :=
    if F64.gtb (Analysis.CrimeStats_PerCapita analysis) (F64.lit (2 # 100))
    then (RiskFactors ++ [ "Above average crime rate" ])%list
    else RiskFactors in
  let score := 70 in
  let score := GoInt.add score (GoInt.mul (GoInt.len SafetyFactors) 5) in
  let score := GoInt.sub score (GoInt.mul (GoInt.len RiskFactors) 10) in
  let score := GoInt.add score (GoInt.mul (Analysis.StreetLighting_Rating analysis) 2) in
  let score :=
    if score <? 1 then 1
    else if score >? 100 then 100
    else score in
  set_score analysis score SafetyFactors RiskFactors.

(** The score before it is clamped. *)
Definition rawSafetyScore (nFactors nRisks rating : Z) : Z :=
  GoInt.add
    (GoInt.sub (GoInt.add 70 (GoInt.mul nFactors 5)) (GoInt.mul nRisks 10))
    (GoInt.mul rating 2).

Definition analyzeSafety (analysis : Analysis.t) (search : PlaceSearch)
    (lq : LightingQuery) (gr : option (list string)) (cube : CubeFetch)
    (o : RangeOrders) : result Analysis.t :=
  match findNearbyGardai analysis search with
  | Err e => Err e
  | Ok analysis =>
      match analyzeStreetLighting analysis lq with
      | Err e => Err e
      | Ok analysis =>
          match getCrimeStats analysis gr cube o with
          | Err e => Err e
          | Ok analysis => Ok (calculateSafetyScore analysis)
          end
      end
  end.

(** [getSafetyInfo]: the analysis copied back into the property. *)
Definition getSafetyInfo (property : PropertyInfo) (search : PlaceSearch)
    (lq : LightingQuery) (gr : option (list string)) (cube : CubeFetch)
    (o : RangeOrders) : result PropertyInfo :=
  match analyzeSafety (Analysis.of_property property) search lq gr cube o with
  | Err e => Err e
  | Ok analysis =>
      let s := SafetyInfo property in
      Ok (with_SafetyInfo property
            {| CrimeRate := Analysis.CrimeStats_PerCapita analysis;
               SafetyRating := Z.quot (Analysis.SafetyScore analysis) 10;
               StreetLighting := Analysis.StreetLighting_Description analysis;
               NearbyGardai :=
                 fold_left
                   (fun acc g =>
                      acc ++ [ {| POI.Name := Analysis.Name g;
                                  POI.Type_ := "garda_station";
                                  POI.Distance := Analysis.Distance g;
                                  POI.Duration := walkMinutes (Analysis.Distance g) |} ])%list
                   (Analysis.NearbyGardai analysis) (NearbyGardai s) |})
  end.

End SafetyGo.

(** ** The other revision of main.go

    The functions that differ from the ones above.  The scoring blocks
    ([transportScore], [calculateWalkScore], [ratingOfDiff],
    [calculateSafetyScore]) are the same text in both revisions. *)
Module Rev0.
Section Rev0Go.
Context `{GoTables}.

Local Open Scope string_scope.
Local Open Scope Z_scope.

(** The haversine formula with the degrees converted by
    [x * math.Pi / 180], two rounded operations. *)
Definition calculateDistance (lat1 lon1 lat2 lon2 : float64) : float64 :=
  let R := F64.lit 6371 in
  let pi := F64.lit Math.Pi in
  let c180 := F64.lit 180 in
  let two := F64.lit 2 in
  let dLat := F64.div (F64.mul (F64.sub lat2 lat1) pi) c180 in
  let dLon := F64.div (F64.mul (F64.sub lon2 lon1) pi) c180 in
  let lat1 := F64.div (F64.mul lat1 pi) c180 in
  let lat2 := F64.div (F64.mul lat2 pi) c180 in
  let a :=
    F64.add
      (F64.mul (math_Sin (F64.div dLat two)) (math_Sin (F64.div dLat two)))
      (F64.mul
         (F64.mul
            (F64.mul (math_Sin (F64.div dLon two)) (math_Sin (F64.div dLon two)))
            (math_Cos lat1))
         (math_Cos lat2)) in
  let c := F64.mul two (math_Atan2 (math_Sqrt a) (math_Sqrt (F64.sub (F64.lit 1) a))) in
  F64.mul R c.

Definition stationToPOI (station : Place.t) (originLat originLng : float64) : POI.t :=
  let dist := calculateDistance originLat originLng
                                (Place.Lat station) (Place.Lng station) in
  let tType := match Place.Types station with
               | [] => "unknown"
               | ty :: _ => ty
               end in
  {| POI.Name := Place.Name station; POI.Type_ := tType;
     POI.Distance := dist; POI.Duration := walkMinutes dist |}.

Definition findPublicTransport (property : PropertyInfo) (search : PlaceSearch)
  : result PropertyInfo :=
  match search "train_station" 2000 with
  | Err e => Err e
  | Ok trainStations =>
      match search "bus_station" 1000 with
      | Err e => Err e
      | Ok busStops =>
          let q := QualityOfLife property in
          let transport :=
            fold_left
              (fun acc station =>
                 acc ++ [stationToPOI station (Lat property) (Lng property)])%list
              (trainStations ++ busStops)%list (PublicTransport q) in
          let q := set_PublicTransport q transport in
          let q := set_TransportScore q (transportScore (PublicTransport q)) in
          Ok (with_QualityOfLife property q)
      end
  end.

(** [extractPriceValue]: what precedes the first space, parsed whole. *)
Definition extractPriceValue (price : string) : float64 :=
  let price := Strings.TrimSpace price in
  let price := Strings.ReplaceAll price "€" "" in
  let price := Strings.ReplaceAll price "," "" in
  let price := nth 0 (Strings.Split price " ") "" in
  match Strconv.ParseFloat price with
  | None => F64.zero
  | Some value => value
  end.

(** The cleaning function handed to [strings.Map]. *)
Definition keepLower (r : Z) : Z :=
  if ((97 <=? r) && (r <=? 122)) || (r =? 45) then r else -1.

Definition extractLocationFromAddress (address : string) : string :=
  let parts := Strings.Split address "," in
  if 3 <=? GoInt.len parts then
    let city := Strings.TrimSpace (nth 1 parts "") in
    let county := Strings.TrimSpace (nth (length parts - 1) parts "") in
    let county := Strings.TrimPrefix county "Co." in
    let county := Strings.TrimPrefix county "Co" in
    let county := Strings.TrimPrefix county "County" in
    let county := Strings.TrimSpace county in
    let location := Strings.ToLower (city ++ "-" ++ county) in
    Strings.Map keepLower location
  else
    let city :=
      if 2 <=? GoInt.len parts then Strings.TrimSpace (nth 1 parts "")
      else Strings.TrimSpace (nth 0 parts "") in
    Strings.Map keepLower (Strings.ToLower city).

(** The handler of [div[data-testid='results'] > ul > li]. *)
Definition onResult (similar : list SimilarProperty.t) (e : ResultItem)
  : list SimilarProperty.t :=
  let price := item_price e in
  let address := item_address e in
  let url := item_href e in
  if negb (Strings.isEmpty price) && negb (Strings.isEmpty address)
     && negb (Strings.isEmpty url)
  then
    let priceNum := extractPriceValue price in
    (similar ++ [ {| SimilarProperty.Address := address;
                     SimilarProperty.Price := priceNum;
                     SimilarProperty.URL := "https://www.daft.ie" ++ url |} ])%list
  else similar.

Definition searchURL (property : PropertyInfo) : string :=
  let basePrice := extractPriceValue (RentPrice property) in
  let minPrice := roundToNearest50 (F64.mul basePrice (F64.lit (8 # 10))) in
  let maxPrice := roundToNearest50 (F64.mul basePrice (F64.lit (12 # 10))) in
  let location := extractLocationFromAddress (Address property) in
  "https://www.daft.ie/sharing/" ++ location
  ++ "?rentalPrice_from=" ++ Fmt.f 0 minPrice
  ++ "&rentalPrice_to=" ++ Fmt.f 0 maxPrice.

Definition findSimilarProperties (property : PropertyInfo) (visit : ListingSearch)
  : result PropertyInfo :=
  match visit (searchURL property) with
  | VisitFailed => Err ErrVisit
  | Visited _ items =>
      let v := ValueAnalysis property in
      let similar := fold_left onResult items (Similar v) in
      let similar :=
        if GoInt.len similar >? 5 then firstn 5 similar else similar in
      Ok (with_ValueAnalysis property (set_Similar v similar))
  end.

(** Street lighting and crime figures are fixed values here. *)
Definition analyzeStreetLighting (analysis : Analysis.t) : Analysis.t :=
  set_lighting analysis 7 "Good street lighting coverage".

Definition getCrimeStats (analysis : Analysis.t) : Analysis.t :=
  set_crime analysis
    {| Total := 245;
       PerCapita := F64.lit (23 # 1000);
       Breakdown := [ {| Type_ := "Theft"; Count := 89 |};
                      {| Type_ := "Public Order"; Count := 45 |};
                      {| Type_ := "Criminal Damage"; Count := 32 |} ] |}.

End Rev0Go.
End Rev0.

(** A sample of the tables, used where a closed computation needs one:
    nothing above Latin-1 is a letter or a digit, case mappings above
    ASCII are the identity, no other float syntax parses.  The
    computations below stay within ASCII (and the euro sign) and plain
    decimals, where every choice of tables gives the same answer. *)
Definition plainTables : GoTables :=
  {| uc_IsLetter := fun _ => false;
     uc_IsDigit := fun _ => false;
     uc_ToLower := fun r => r;
     uc_ToUpper := fun r => r;
     parse_float_other := fun _ => None;
     math_Sin := fun x => x;
     math_Cos := fun x => x;
     math_Sqrt := fun x => x;
     math_Atan2 := fun x _ => x |}.

Arguments F64.round64 : simpl never.
Arguments F64.lit : simpl never.
Arguments F64.of_Z : simpl never.
Arguments GoInt.wrap : simpl never.

(** ** Vocabulary of the statements *)

(** A place of interest at a given distance (km). *)
Definition station (d : Q) : POI.t :=
  {| POI.Name := ""; POI.Type_ := ""; POI.Distance := F64.lit d; POI.Duration := 0 |}.

(** The bonus the first station earns. *)
Definition nearBonus (d : float64) : Z :=
  if F64.ltb d (F_fin (1 # 2)) then 3
  else if F64.ltb d (F_fin 1) then 2
  else 0.

(** A property of which only the quality-of-life inputs are filled. *)
Definition propertyWith (transport : Z) (amenities entertainment : list POI.t)
  : PropertyInfo :=
  {| Address := ""; RentPrice := ""; URL := "";
     Lat := F64.zero; Lng := F64.zero;
     SafetyInfo := {| CrimeRate := F64.zero; SafetyRating := 0;
                      NearbyGardai := []; StreetLighting := "" |};
     QualityOfLife := {| TransportScore := transport; PublicTransport := [];
                         Amenities := amenities; Entertainment := entertainment;
                         WalkScore := 0 |};
     ValueAnalysis := {| AreaAveragePrice := F64.zero; PriceRating := 0;
                         Similar := [] |} |}.

(** The walk score before the final clamp, in unbounded arithmetic. *)
Definition walkBonus (transport : Z) : Z :=
  if transport >=? 7 then 10 else if transport >=? 5 then 5 else 0.

Definition countNear (l : list POI.t) : Z :=
  GoInt.len (List.filter (fun p => F64.ltb (POI.Distance p) (F_fin 1)) l).

(** The largest lighting rating whose double, with the other terms of
    the safety score, still fits an [int]. *)
Definition maxRating : Z := (GoInt.max_int - 80) / 2.

(** An analysis of which only the inputs of the safety score are filled. *)
Definition analysisWith (gardai : list Analysis.Station) (rating : Z)
    (perCapita : float64) : Analysis.t :=
  {| Analysis.Property := propertyWith 0 [] [];
     Analysis.CrimeStats_Total := 0;
     Analysis.CrimeStats_PerCapita := perCapita;
     Analysis.CrimeStats_Breakdown := [];
     Analysis.NearbyGardai := gardai;
     Analysis.StreetLighting_Rating := rating;
     Analysis.StreetLighting_Description := "";
     Analysis.SafetyScore := 0;
     Analysis.SafetyFactors := []; Analysis.RiskFactors := [] |}.

(** A dimension given by its label and its categories (code, label). *)
Definition cubeDim (label : string) (categories : list (string * string))
  : DimensionT :=
  {| Label := label;
     Category_Index := List.map fst categories;
     Category_Label := list_to_map categories |}.

(** A cube of three divisions by two years, with the given values. *)
Definition sampleCube (values : list float64) : PxStatResp :=
  {| Dimension :=
       list_to_map
         [ ("C03", cubeDim "Garda Division"
                     [ ("r0", "Alpha Division"); ("r1", "Beta Division");
                       ("r2", "Gamma Division") ]);
           ("TLIST(A1)", cubeDim "Year" [ ("2023", "2023"); ("2024", "2024") ]) ];
     Value := values |}.

Definition sampleOrders : RangeOrders :=
  {| ord_label := [ "TLIST(A1)"; "C03" ];
     ord_region := [ "C03"; "TLIST(A1)" ];
     ord_year := [ "TLIST(A1)"; "C03" ];
     ord_keys := [ "C03"; "TLIST(A1)" ];
     ord_all := [ "TLIST(A1)"; "C03" ] |}.

Definition floats (l : list Z) : list float64 := List.map F64.of_Z l.

Section Vocabulary.
Context `{GoTables}.

(** The price text as [extractPriceValue] hands it to the regular
    expression. *)
Definition cleanPrice (price : string) : string :=
  Strings.ReplaceAll
    (Strings.ReplaceAll
       (Strings.ReplaceAll (Strings.TrimSpace price) "€" "") "," "") " " "".

(** A result item that the handler keeps, and the listing it becomes. *)
Definition keepable (e : ResultItem) : bool :=
  negb (Strings.isEmpty (item_href e))
  && negb (Strings.isEmpty (Strings.TrimSpace (item_address e)))
  && negb (F64.eqb (extractPriceValue (Strings.TrimSpace (item_price e))) F64.zero).

Definition listingOf (e : ResultItem) : SimilarProperty.t :=
  {| SimilarProperty.Address := Strings.TrimSpace (item_address e);
     SimilarProperty.Price := extractPriceValue (Strings.TrimSpace (item_price e));
     SimilarProperty.URL := ("https://www.daft.ie" ++ item_href e)%string |}.

End Vocabulary.

(** A digit 1 followed by 309 zeros: more than float64 can hold. *)
Definition hugePrice : string :=
  String "1" (string_of_list_ascii (repeat "0"%char 309)).

(** A property of which only the address and the rent are filled. *)
Definition listedProperty (address rent : string) : PropertyInfo :=
  {| Address := address; RentPrice := rent; URL := "";
     Lat := F64.zero; Lng := F64.zero;
     SafetyInfo := {| CrimeRate := F64.zero; SafetyRating := 0;
                      NearbyGardai := []; StreetLighting := "" |};
     QualityOfLife := {| TransportScore := 0; PublicTransport := [];
                         Amenities := []; Entertainment := [];
                         WalkScore := 0 |};
     ValueAnalysis := {| AreaAveragePrice := F64.zero; PriceRating := 0;
                         Similar := [] |} |}.

Definition item (href address price : string) : ResultItem :=
  {| item_href := href; item_address := address; item_price := price |}.

(** Seven result items: the second has no link, the fourth no price
    that parses, the sixth no address. *)
Definition sampleItems : list ResultItem :=
  [ item "/share/1" "1 Elm Rd, Ranelagh" "€900 per month";
    item "" "2 Elm Rd, Ranelagh" "€950 per month";
    item "/share/3" "3 Elm Rd, Ranelagh" "€1,100 per month";
    item "/share/4" "4 Elm Rd, Ranelagh" "POA";
    item "/share/5" "5 Elm Rd, Ranelagh" "€800";
    item "/share/6" "   " "€850";
    item "/share/7" "7 Elm Rd, Ranelagh" "€1,200 per month";
    item "/share/8" "8 Elm Rd, Ranelagh" "€1,000 per month";
    item "/share/9" "9 Elm Rd, Ranelagh" "€1,050 per month";
    item "/share/10" "10 Elm Rd, Ranelagh" "€990 per month" ].

(** The magnitude of a rounded value, in units of 2^-1074. *)
Definition magnitude (q : Q) : Z :=
  F64.round_units (Qabs q * inject_Z F64.units_per_one).

(** ** Vocabulary of the further properties *)

Section CrimeVocabulary.
Context `{GoTables}.

(** The test of the region loop: the normalized label contains the
    normalized division. *)
Definition regionMatches (target : string) (d : DimensionT) (code : string) : bool :=
  Strings.Contains (normalize (labelOf d code)) target.

(** The dimension stored under a key has a label that names a region
    (a year). *)
Definition hasRegionLabel (px : PxStatResp) (k : string) : bool :=
  match Dimension px !! k with
  | Some v => labelIsRegion (Strings.ToLower (Label v))
  | None => false
  end.

Definition hasYearLabel (px : PxStatResp) (k : string) : bool :=
  match Dimension px !! k with
  | Some v => labelIsYear (Strings.ToLower (Label v))
  | None => false
  end.

End CrimeVocabulary.

(** The sample orders, each enumeration reversed. *)
Definition reversedOrders : RangeOrders :=
  {| ord_label := [ "C03"; "TLIST(A1)" ];
     ord_region := [ "TLIST(A1)"; "C03" ];
     ord_year := [ "C03"; "TLIST(A1)" ];
     ord_keys := [ "TLIST(A1)"; "C03" ];
     ord_all := [ "C03"; "TLIST(A1)" ] |}.

(** The price of an advert: the monthly one, else the weekly one. *)
Definition advertPrice (ad : Advert) : Z :=
  if Price_Monthly ad =? 0 then Price_Weekly ad else Price_Monthly ad.

Definition listingOfAdvert (ad : Advert) : SimilarProperty.t :=
  {| SimilarProperty.Address := DisplayAddress ad;
     SimilarProperty.Price := F64.of_Z (advertPrice ad);
     SimilarProperty.URL := ("https://www.daft.ie" ++ AdPath ad)%string |}.

(** The listings a [__NEXT_DATA__] script contributes. *)
Definition advertsOf (script : option (list Advert)) : list SimilarProperty.t :=
  match script with
  | None => []
  | Some adverts =>
      List.map listingOfAdvert
        (List.filter (fun ad => negb (advertPrice ad =? 0)) adverts)
  end.

(** A listing that enters the area average. *)
Definition positivePrice (s : SimilarProperty.t) : bool :=
  F64.gtb (SimilarProperty.Price s) F64.zero.

Definition withSimilar (property : PropertyInfo) (l : list SimilarProperty.t)
  : PropertyInfo :=
  with_ValueAnalysis property (set_Similar (ValueAnalysis property) l).

(** A property with a rent text and an area average. *)
Definition pricedProperty (rent : string) (average : float64) : PropertyInfo :=
  with_ValueAnalysis (listedProperty "" rent)
    {| AreaAveragePrice := average; PriceRating := 0; Similar := [] |}.

(** The lighting query answered with status 200 and a decoded body. *)
Definition lightingOk (lq : LightingQuery) : bool :=
  match lq with
  | LightingResponse StatusCode (Some _) => StatusCode =? 200
  | _ => false
  end.

(** The number of street lamps the answer reports. *)
Definition lampCount (lq : LightingQuery) : Z :=
  match lq with
  | LightingResponse _ (Some (e :: _)) =>
      match e !! "nodes"%string with
      | Some v => Atoi_value v
      | None => 0
      end
  | _ => 0
  end.

(** The three inputs of the safety score, as numbers. *)
Definition gardaBonus (a : Analysis.t) : Z :=
  match Analysis.NearbyGardai a with [] => 0 | _ :: _ => 5 end.

Definition lightBonus (rating : Z) : Z := if rating >=? 7 then 5 else 0.

Definition crimePenalty (a : Analysis.t) : Z :=
  if F64.gtb (Analysis.CrimeStats_PerCapita a) (F64.lit (2 # 100)) then 10 else 0.

(** The keywords of [findAmenities] and of [findEntertainment]. *)
Definition amenityTypes : list string :=
  [ "supermarket"; "pharmacy"; "convenience_store"; "shopping_mall";
    "bank"; "hospital"; "doctor" ]%string.

Definition entertainmentTypes : list string :=
  [ "restaurant"; "bar"; "cafe"; "movie_theater"; "gym"; "park" ]%string.

(** The walking time of a place is the one its distance gives. *)
Definition wellTimed (p : POI.t) : Prop :=
  POI.Duration p = walkMinutes (POI.Distance p).

Section PlacesVocabulary.
Context `{GoTables}.

(** The entry made for a place found under a keyword. *)
Definition placePOI (property : PropertyInfo) (placeType : string)
    (place : Place.t) : POI.t :=
  let dist := calculateDistance (Lat property) (Lng property)
                                (Place.Lat place) (Place.Lng place) in
  {| POI.Name := Place.Name place; POI.Type_ := placeType;
     POI.Distance := dist; POI.Duration := walkMinutes dist |}.

(** The entries for a list of keywords: keyword by keyword, in the
    order of the answers, nothing for a keyword whose search fails. *)
Definition placesFound (property : PropertyInfo) (search : PlaceSearch)
    (types : list string) (radius : Z) : list POI.t :=
  flat_map
    (fun placeType =>
       match search placeType radius with
       | Err _ => []
       | Ok places => List.map (placePOI property placeType) places
       end)
    types.

End PlacesVocabulary.

(** A Places service without bus stations: that search fails, every
    other one finds one place. *)
Definition noBusSearch : PlaceSearch :=
  fun keyword _ =>
    if String.eqb keyword "bus_station" then Err ErrSearch
    else Ok [ {| Place.Name := keyword; Place.Lat := F64.zero; Place.Lng := F64.zero;
                 Place.Types := [keyword] |} ].

(** The bytes the older revision lets into a location: the lower-case
    ASCII letters and the hyphen. *)
Definition slugByte (c : ascii) : bool :=
  let b := Utf8.byte_of c in
  ((97 <=? b) && (b <=? 122)) || (b =? 45).

(** A listing at a given price. *)
Definition listingAt (price : float64) : SimilarProperty.t :=
  {| SimilarProperty.Address := "Ranelagh"; SimilarProperty.Price := price;
     SimilarProperty.URL := "https://www.daft.ie/share/0" |}.

Section SearchVocabulary.
Context `{GoTables}.

(** The two price bounds [findSimilarProperties] puts into the search
    URL. *)
Definition searchBounds (property : PropertyInfo) : float64 * float64 :=
  let basePrice := extractPriceValue (RentPrice property) in
  (roundToNearest50 (F64.mul basePrice (F64.lit (8 # 10))),
   roundToNearest50 (F64.mul basePrice (F64.lit (12 # 10)))).

End SearchVocabulary.

(** The ASCII characters a slug may hold: letters, digits, the hyphen. *)
Definition slugAscii (b : Z) : bool :=
  Unicode.between 97 122 b || Unicode.between 65 90 b
  || Unicode.between 48 57 b || (b =? 45).

(** Every byte of the text is a slug character or lies outside ASCII. *)
Definition asciiSafe (s : string) : Prop :=
  Forall (fun c => Utf8.byte_of c < 128 -> slugAscii (Utf8.byte_of c) = true)
         (list_ascii_of_string s).

(** ** main.go: the coordinator

    [enrichPropertyInfo] finds the coordinates and runs the three
    analyses.  Each analysis that fails is logged and the next one
    runs; only the coordinates are indispensable. *)

(** The Google Maps side of [getCoordinates]: the API key of the
    environment, whether [maps.NewClient] returned a client, and what
    the geocoder answered for an address (the coordinates of each
    result, [None] for an error). *)
Record MapsService : Type := {
  apiKey : string;
  clientCreated : bool;
  geocode : string -> option (list (float64 * float64))
}.

Inductive CoordinatesError : Type :=
  | ErrKeyNotSet        (* GOOGLE_MAPS_API_KEY não definida *)
  | ErrMapsClient       (* erro ao criar cliente do Google Maps *)
  | ErrGeocoding        (* erro ao geocodificar endereço *)
  | ErrNoResult.        (* nenhum resultado encontrado para o endereço *)

Definition with_Coordinates (p : PropertyInfo) (lat lng : float64) : PropertyInfo :=
  {| Address := Address p; RentPrice := RentPrice p; URL := URL p;
     Lat := lat; Lng := lng; SafetyInfo := SafetyInfo p;
     QualityOfLife := QualityOfLife p; ValueAnalysis := ValueAnalysis p |}.

Section Coordinator.
Context `{GoTables}.

(** The address sent to the geocoder: ", Ireland" is added unless the
    address names the country, in any case. *)
Definition fullAddress (address : string) : string :=
  if negb (Strings.Contains (Strings.ToLower address) "ireland")
  then (address ++ ", Ireland")%string
  else address.

Definition getCoordinates (property : PropertyInfo) (maps : MapsService)
  : CoordinatesError + PropertyInfo :=
  if Strings.isEmpty (apiKey maps) then inl ErrKeyNotSet
  else if negb (clientCreated maps) then inl ErrMapsClient
  else
    match geocode maps (fullAddress (Address property)) with
    | None => inl ErrGeocoding
    | Some [] => inl ErrNoResult
    | Some ((lat, lng) :: _) => inr (with_Coordinates property lat lng)
    end.

(** [enrichPropertyInfo].  The later stages read the same API key and
    create their client in the same way, so once the coordinates are
    found their own checks of the key and of the client pass. *)
Definition enrichPropertyInfo (property : PropertyInfo) (maps : MapsService)
    (search : PlaceSearch) (lq : LightingQuery) (gr : option (list string))
    (cube : CubeFetch) (o : RangeOrders) (visit : ListingSearch)
  : CoordinatesError + PropertyInfo :=
  match getCoordinates property maps with
  | inl e => inl e
  | inr property =>
      let property :=
        match getSafetyInfo property search lq gr cube o with
        | Ok p => p
        | Err _ => property
        end in
      let property := getQualityOfLife property search in
      let property :=
        match analyzeValue property visit with
        | Ok p => p
        | Err _ => property
        end in
      inr property
  end.

End Coordinator.

(** A Maps service that finds every address at one place. *)
Definition dublinMaps : MapsService :=
  {| apiKey := "key"; clientCreated := true;
     geocode := fun _ => Some [ (F64.lit (533 # 10), F64.lit (- 63 # 10)) ] |}.

(** What the older revision makes of the trimmed county segment: the
    three [TrimPrefix] calls, in their order. *)
Definition olderCounty (county : string) : string :=
  Strings.TrimPrefix (Strings.TrimPrefix (Strings.TrimPrefix county "Co.") "Co")
                     "County".

Section OlderListings.
Context `{GoTables}.

(** A result item that the handler of the older revision keeps, and the
    listing it becomes. *)
Definition olderKeepable (e : ResultItem) : bool :=
  negb (Strings.isEmpty (item_price e)) && negb (Strings.isEmpty (item_address e))
  && negb (Strings.isEmpty (item_href e)).

Definition olderListingOf (e : ResultItem) : SimilarProperty.t :=
  {| SimilarProperty.Address := item_address e;
     SimilarProperty.Price := Rev0.extractPriceValue (item_price e);
     SimilarProperty.URL := ("https://www.daft.ie" ++ item_href e)%string |}.

End OlderListings.

(** An advert without address, priced by the week. *)
Definition namelessAdvert : Advert :=
  {| DisplayAddress := ""; Price_Monthly := 0; Price_Weekly := 250;
     AdPath := "/share/11" |}.

(** * Properties *)

(** ** Machine integers *)

Lemma wrap_id (z : Z) :
  GoInt.min_int <= z <= GoInt.max_int -> GoInt.wrap z = z.
Proof.
  unfold GoInt.min_int, GoInt.max_int, GoInt.wrap. intros Hz.
  rewrite Z.mod_small; lia.
Qed.

Lemma wrap_range (z : Z) :
  GoInt.min_int <= GoInt.wrap z <= GoInt.max_int.
Proof.
  unfold GoInt.min_int, GoInt.max_int, GoInt.wrap.
  pose proof (Z.mod_pos_bound (z + 2 ^ 63) (2 ^ 64) ltac:(lia)). lia.
Qed.

Lemma add_small (a b : Z) :
  GoInt.min_int <= a + b <= GoInt.max_int -> GoInt.add a b = a + b.
Proof. apply wrap_id. Qed.

Lemma sub_small (a b : Z) :
  GoInt.min_int <= a - b <= GoInt.max_int -> GoInt.sub a b = a - b.
Proof. apply wrap_id. Qed.

Lemma mul_small (a b : Z) :
  GoInt.min_int <= a * b <= GoInt.max_int -> GoInt.mul a b = a * b.
Proof. apply wrap_id. Qed.

Lemma len_nil {A} : GoInt.len (@nil A) = 0.
Proof. reflexivity. Qed.

Lemma len_cons {A} (x : A) (l : list A) : GoInt.len (x :: l) = 1 + GoInt.len l.
Proof. unfold GoInt.len. cbn [length]. lia. Qed.

Lemma len_nonneg {A} (l : list A) : 0 <= GoInt.len l.
Proof. unfold GoInt.len. lia. Qed.

Lemma min_spec (a b : Z) : GoInt.min a b = Z.min a b.
Proof. unfold GoInt.min. destruct (Z.ltb_spec a b); lia. Qed.

Lemma max_spec (a b : Z) : GoInt.max a b = Z.max a b.
Proof. unfold GoInt.max. rewrite Z.gtb_ltb. destruct (Z.ltb_spec b a); lia. Qed.

(** ** Literals of the source *)

Lemma lit_half : F64.lit (1 # 2) = F_fin (1 # 2).
Proof. vm_compute. reflexivity. Qed.

Lemma lit_one : F64.lit 1 = F_fin 1.
Proof. vm_compute. reflexivity. Qed.

Lemma lit_int_small (n : Z) :
  In n [20; 15; 10; 5; 0; -5; -10; -15; -20; 100]%Z ->
  F64.lit (inject_Z n) = F_fin (inject_Z n).
Proof.
  cbn [In]. intros Hn.
  repeat (destruct Hn as [<- | Hn]; [vm_compute; reflexivity |]).
  contradiction.
Qed.

(** ** Transport score *)

Lemma transportScore_rule (stations : list POI.t) :
  transportScore stations =
    match stations with
    | [] => 5
    | first :: rest =>
        5 + nearBonus (POI.Distance first)
          + match rest with [] => 0 | _ :: _ => 2 end
    end.
Proof.
  unfold transportScore, nearBonus. rewrite lit_half, lit_one.
  destruct stations as [| a [| b r]].
  - reflexivity.
  - cbn [nth]. rewrite !len_cons, len_nil. cbn [Z.gtb Z.compare Z.add Pos.compare Pos.compare_cont].
    destruct (F64.ltb _ _); [reflexivity |].
    destruct (F64.ltb _ _); reflexivity.
  - cbn [nth]. rewrite !len_cons.
    pose proof (len_nonneg r) as Hr.
    replace (1 + (1 + GoInt.len r) >? 0) with true by (symmetry; apply Z.gtb_lt; lia).
    replace (1 + (1 + GoInt.len r) >? 1) with true by (symmetry; apply Z.gtb_lt; lia).
    destruct (F64.ltb _ _); [reflexivity |].
    destruct (F64.ltb _ _); reflexivity.
Qed.

(** C5: the transport score is 5, plus 3 when the first station of the
    list is closer than 0.5 km, else plus 2 when it is closer than 1 km,
    plus 2 when the list holds two stations or more; nothing clamps the
    sum.  The first station is the first of the list, not the nearest: a
    far station listed before a near one earns no distance bonus.  A
    train station at 0.3 km followed by a bus stop at 0.8 km scores 10. *)
Theorem C5_transport_score :
  (forall stations : list POI.t,
     transportScore stations =
       match stations with
       | [] => 5
       | first :: rest =>
           5 + nearBonus (POI.Distance first)
             + match rest with [] => 0 | _ :: _ => 2 end
       end)
  /\ transportScore [station (3 # 10); station (8 # 10)] = 10
  /\ transportScore [station 2; station (1 # 10)] = 7.
Proof.
  split; [exact transportScore_rule |].
  split; vm_compute; reflexivity.
Qed.

Lemma transportScore_values (stations : list POI.t) :
  In (transportScore stations) [5; 7; 8; 9; 10].
Proof.
  rewrite transportScore_rule. unfold nearBonus.
  destruct stations as [| a [| b r]]; cbn [In].
  - auto.
  - destruct (F64.ltb _ _); [auto 6 |]. destruct (F64.ltb _ _); auto 6.
  - destruct (F64.ltb _ _); [auto 6 |]. destruct (F64.ltb _ _); auto 6.
Qed.

Section Transport.
Context `{GoTables}.

Lemma findPublicTransport_score (property : PropertyInfo) (search : PlaceSearch) :
  match findPublicTransport property search with
  | Ok p =>
      TransportScore (QualityOfLife p)
        = transportScore (PublicTransport (QualityOfLife p))
  | Err _ => True
  end.
Proof.
  unfold findPublicTransport.
  destruct (search _ _) as [trains | e]; [| exact I].
  destruct (search _ _) as [buses | e]; [| exact I].
  reflexivity.
Qed.

(** The stations are kept in the order the service returned them, the
    train stations before the bus stops. *)
Lemma findPublicTransport_order (property : PropertyInfo) (search : PlaceSearch)
    (trains buses : list Place.t) :
  search "train_station"%string 2000 = Ok trains ->
  search "bus_station"%string 1000 = Ok buses ->
  exists p,
    findPublicTransport property search = Ok p /\
    PublicTransport (QualityOfLife p) =
      (PublicTransport (QualityOfLife property)
         ++ List.map (stationPOI property) (trains ++ buses))%list.
Proof.
  intros Ht Hb. unfold findPublicTransport. rewrite Ht, Hb.
  eexists. split; [reflexivity |]. cbn.
  generalize (PublicTransport (QualityOfLife property)).
  generalize (trains ++ buses)%list. intros l.
  induction l as [| x l IH]; intros acc; cbn.
  - symmetry. apply app_nil_r.
  - rewrite IH. rewrite <- app_assoc. reflexivity.
Qed.

(** C9: whatever the Places service answers, the transport score that
    [findPublicTransport] stores is one of 5, 7, 8, 9 and 10; it is
    never 6. *)
Theorem C9_transport_score_values (property : PropertyInfo) (search : PlaceSearch) :
  (forall stations : list POI.t,
     In (transportScore stations) [5; 7; 8; 9; 10] /\ transportScore stations <> 6)
  /\ match findPublicTransport property search with
     | Ok p =>
         In (TransportScore (QualityOfLife p)) [5; 7; 8; 9; 10]
         /\ TransportScore (QualityOfLife p) <> 6
     | Err _ => True
     end.
Proof.
  assert (Hv : forall stations : list POI.t,
             In (transportScore stations) [5; 7; 8; 9; 10]
             /\ transportScore stations <> 6).
  { intros stations. pose proof (transportScore_values stations) as Hin.
    split; [exact Hin |]. cbn [In] in Hin. lia. }
  split; [exact Hv |].
  pose proof (findPublicTransport_score property search) as Hs.
  destruct (findPublicTransport property search) as [p | e]; [| exact I].
  rewrite Hs. apply Hv.
Qed.

End Transport.

(** ** Walk score *)

Lemma nearby_from (l : list POI.t) (n : Z) :
  0 <= n -> n + GoInt.len l <= GoInt.max_int ->
  fold_left
    (fun n p => if F64.ltb (POI.Distance p) (F64.lit 1) then GoInt.add n 1 else n)
    l n = n + countNear l.
Proof.
  unfold countNear. rewrite lit_one.
  revert n. induction l as [| p l IH]; intros n Hn Hlen.
  - cbn. rewrite len_nil. lia.
  - rewrite len_cons in Hlen. pose proof (len_nonneg l) as Hl.
    cbn [fold_left List.filter].
    destruct (F64.ltb (POI.Distance p) (F_fin 1)).
    + rewrite add_small by (unfold GoInt.min_int; lia).
      rewrite IH by lia. rewrite len_cons. lia.
    + rewrite IH by lia. reflexivity.
Qed.

Lemma nearby_countNear (l : list POI.t) :
  GoInt.len l <= GoInt.max_int -> nearby l = countNear l.
Proof.
  intros Hl. unfold nearby. rewrite nearby_from by lia. lia.
Qed.

Lemma countNear_bounds (l : list POI.t) : 0 <= countNear l <= GoInt.len l.
Proof.
  unfold countNear, GoInt.len. split; [lia |].
  apply Nat2Z.inj_le.
  induction l as [| p l IH]; cbn; [lia |].
  destruct (F64.ltb _ _); cbn; lia.
Qed.

(** With lists of a length a machine can hold, the walk score is the
    clamped sum the source spells out, free of wrap-around. *)
Lemma calculateWalkScore_formula (property : PropertyInfo) :
  let q := QualityOfLife property in
  GoInt.len (Amenities q) <= 2 ^ 60 ->
  GoInt.len (Entertainment q) <= 2 ^ 60 ->
  WalkScore (QualityOfLife (calculateWalkScore property)) =
    Z.min
      (Z.max
         (50 + Z.min (countNear (Amenities q) * 5) 25
             + Z.min (countNear (Entertainment q) * 5) 25
             + walkBonus (TransportScore q))
         0)
      100.
Proof.
  intros q Ha He. unfold calculateWalkScore, walkBonus. fold q. cbn.
  rewrite !min_spec, max_spec.
  rewrite !nearby_countNear by (unfold GoInt.max_int; lia).
  pose proof (countNear_bounds (Amenities q)) as Hca.
  pose proof (countNear_bounds (Entertainment q)) as Hce.
  rewrite (mul_small (countNear (Amenities q)))
    by (unfold GoInt.min_int, GoInt.max_int; lia).
  rewrite (mul_small (countNear (Entertainment q)))
    by (unfold GoInt.min_int, GoInt.max_int; lia).
  rewrite (add_small 50) by (unfold GoInt.min_int, GoInt.max_int; lia).
  rewrite (add_small (50 + _)) by (unfold GoInt.min_int, GoInt.max_int; lia).
  destruct (TransportScore q >=? 7).
  - rewrite add_small by (unfold GoInt.min_int, GoInt.max_int; lia). reflexivity.
  - destruct (TransportScore q >=? 5).
    + rewrite add_small by (unfold GoInt.min_int, GoInt.max_int; lia). reflexivity.
    + f_equal. f_equal. lia.
Qed.

(** C6: for every list of amenities and of entertainment venues and
    every transport score, the walk score stored by [calculateWalkScore]
    lies between 0 and 100; a property with 100 amenities and 100 venues
    within 1 km and a transport score of 10 gets exactly 100. *)
Theorem C6_walk_score_range :
  (forall property : PropertyInfo,
     0 <= WalkScore (QualityOfLife (calculateWalkScore property)) <= 100)
  /\ WalkScore
       (QualityOfLife
          (calculateWalkScore
             (propertyWith 10 (repeat (station (1 # 2)) 100)
                              (repeat (station (1 # 2)) 100)))) = 100.
Proof.
  split.
  - intros property. unfold calculateWalkScore. cbn.
    rewrite min_spec, max_spec. lia.
  - vm_compute. reflexivity.
Qed.

(** ** Safety score *)

Lemma calculateSafetyScore_factors (analysis : Analysis.t) :
  let a := calculateSafetyScore analysis in
  GoInt.len (Analysis.SafetyFactors a) =
    (match Analysis.NearbyGardai analysis with [] => 0 | _ :: _ => 1 end)
    + (if Analysis.StreetLighting_Rating analysis >=? 7 then 1 else 0)
  /\ GoInt.len (Analysis.RiskFactors a) =
       (if F64.gtb (Analysis.CrimeStats_PerCapita analysis) (F64.lit (2 # 100))
        then 1 else 0).
Proof.
  unfold calculateSafetyScore, set_score. cbv zeta.
  cbn [Analysis.SafetyFactors Analysis.RiskFactors].
  destruct (Analysis.NearbyGardai analysis);
    destruct (Analysis.StreetLighting_Rating analysis >=? 7);
    destruct (F64.gtb _ _); split; reflexivity.
Qed.

Lemma calculateSafetyScore_clamp (analysis : Analysis.t) :
  let a := calculateSafetyScore analysis in
  let raw := rawSafetyScore (GoInt.len (Analysis.SafetyFactors a))
                            (GoInt.len (Analysis.RiskFactors a))
                            (Analysis.StreetLighting_Rating analysis) in
  Analysis.SafetyScore a =
    if raw <? 1 then 1 else if raw >? 100 then 100 else raw.
Proof.
  unfold calculateSafetyScore, rawSafetyScore, set_score. cbv zeta.
  cbn [Analysis.SafetyFactors Analysis.RiskFactors Analysis.SafetyScore].
  reflexivity.
Qed.

Lemma rawSafetyScore_exact (nFactors nRisks rating : Z) :
  0 <= nFactors <= 2 -> 0 <= nRisks <= 1 -> 0 <= rating <= maxRating ->
  rawSafetyScore nFactors nRisks rating
    = 70 + 5 * nFactors - 10 * nRisks + 2 * rating.
Proof.
  unfold maxRating, GoInt.max_int. intros Hf Hr Hl.
  assert (Hm : rating <= 4611686018427387863).
  { etransitivity; [apply Hl |]. vm_compute. discriminate. }
  unfold rawSafetyScore.
  rewrite (mul_small nFactors) by (unfold GoInt.min_int, GoInt.max_int; lia).
  rewrite (mul_small nRisks) by (unfold GoInt.min_int, GoInt.max_int; lia).
  rewrite (mul_small rating) by (unfold GoInt.min_int, GoInt.max_int; lia).
  rewrite (add_small 70) by (unfold GoInt.min_int, GoInt.max_int; lia).
  rewrite sub_small by (unfold GoInt.min_int, GoInt.max_int; lia).
  rewrite add_small by (unfold GoInt.min_int, GoInt.max_int; lia).
  lia.
Qed.

Lemma calculateSafetyScore_counts (analysis : Analysis.t) :
  let a := calculateSafetyScore analysis in
  0 <= GoInt.len (Analysis.SafetyFactors a) <= 2
  /\ 0 <= GoInt.len (Analysis.RiskFactors a) <= 1.
Proof.
  pose proof (calculateSafetyScore_factors analysis) as [Hf Hr].
  cbv zeta in Hf, Hr |- *. rewrite Hf, Hr.
  destruct (Analysis.NearbyGardai analysis);
    destruct (Analysis.StreetLighting_Rating analysis >=? 7);
    destruct (F64.gtb _ _); lia.
Qed.

(** The stored score for a rating whose double fits an [int]. *)
Lemma safety_score_range (analysis : Analysis.t) :
  0 <= Analysis.StreetLighting_Rating analysis <= maxRating ->
  60 <= Analysis.SafetyScore (calculateSafetyScore analysis) <= 100.
Proof.
  intros Hrating.
  pose proof (calculateSafetyScore_counts analysis) as [Hnf Hnr].
  rewrite calculateSafetyScore_clamp. cbv zeta in Hnf, Hnr |- *.
  rewrite rawSafetyScore_exact by assumption.
  set (raw := 70 + _ - _ + _).
  assert (Hlow : 60 <= raw) by (subst raw; lia).
  replace (raw <? 1) with false by (symmetry; apply Z.ltb_ge; lia).
  rewrite Z.gtb_ltb. destruct (Z.ltb_spec 100 raw); lia.
Qed.

(** C10, as the code has it: at most two safety factors and one risk
    factor are collected; for a rating from 0 up to [maxRating] (beyond
    which the doubled rating no longer fits an [int]) the score before
    clamping is 70 + 5*|safetyFactors| - 10*|riskFactors| + 2*rating and
    is at least 60, the lower clamp does not fire, and the stored score
    lies between 60 and 100. *)
Theorem C10_safety_score_floor (analysis : Analysis.t) :
  0 <= Analysis.StreetLighting_Rating analysis <= maxRating ->
  let a := calculateSafetyScore analysis in
  let nFactors := GoInt.len (Analysis.SafetyFactors a) in
  let nRisks := GoInt.len (Analysis.RiskFactors a) in
  let rating := Analysis.StreetLighting_Rating analysis in
  let raw := rawSafetyScore nFactors nRisks rating in
  nFactors <= 2 /\ nRisks <= 1
  /\ raw = 70 + 5 * nFactors - 10 * nRisks + 2 * rating
  /\ 60 <= raw
  /\ (raw <? 1) = false
  /\ Analysis.SafetyScore a = Z.min raw 100
  /\ 60 <= Analysis.SafetyScore a <= 100.
Proof.
  intros Hrating a nFactors nRisks rating raw.
  pose proof (calculateSafetyScore_factors analysis) as [Hf Hr].
  pose proof (calculateSafetyScore_clamp analysis) as Hc.
  cbv zeta in Hf, Hr, Hc. fold a in Hf, Hr, Hc.
  fold nFactors in Hf, Hc. fold nRisks in Hr, Hc. fold rating in Hc. fold raw in Hc.
  assert (Hnf : 0 <= nFactors <= 2).
  { rewrite Hf. destruct (Analysis.NearbyGardai analysis);
      destruct (Analysis.StreetLighting_Rating analysis >=? 7); lia. }
  assert (Hnr : 0 <= nRisks <= 1).
  { rewrite Hr. destruct (F64.gtb _ _); lia. }
  assert (Hraw : raw = 70 + 5 * nFactors - 10 * nRisks + 2 * rating).
  { apply rawSafetyScore_exact; assumption. }
  assert (Hlow : 60 <= raw) by (unfold rating in Hraw |- *; lia).
  assert (Hlt : (raw <? 1) = false) by (apply Z.ltb_ge; lia).
  repeat split; try lia; try assumption.
  - rewrite Hc, Hlt. rewrite Z.gtb_ltb. destruct (Z.ltb_spec 100 raw); lia.
  - rewrite Hc, Hlt. rewrite Z.gtb_ltb. destruct (Z.ltb_spec 100 raw); lia.
  - rewrite Hc, Hlt. rewrite Z.gtb_ltb. destruct (Z.ltb_spec 100 raw); lia.
Qed.

Lemma C10_safety_score_floor_witness :
  let analysis := analysisWith [] 4 (F64.lit (23 # 1000)) in
  0 <= Analysis.StreetLighting_Rating analysis <= maxRating
  /\ 60 <= Analysis.SafetyScore (calculateSafetyScore analysis) <= 100.
Proof.
  intros analysis.
  assert (Hr : 0 <= Analysis.StreetLighting_Rating analysis <= maxRating)
    by (vm_compute; split; discriminate).
  split; [exact Hr |].
  exact (proj2 (proj2 (proj2 (proj2 (proj2 (proj2
           (C10_safety_score_floor analysis Hr))))))).
Defined.

(** A non-negative rating whose double wraps around: the score before
    clamping is negative and the lower clamp stores 1. *)
Lemma C10_counterexample_wrap :
  let analysis := analysisWith [] (2 ^ 62) F64.zero in
  0 <= Analysis.StreetLighting_Rating analysis
  /\ rawSafetyScore 1 0 (Analysis.StreetLighting_Rating analysis) < 60
  /\ Analysis.SafetyScore (calculateSafetyScore analysis) = 1.
Proof. vm_compute. repeat split; discriminate. Qed.

(** The rating the lighting query stores is 4, 6, 8 or 10. *)
Lemma lightingRating_values (count : Z) : In (lightingRating count) [4; 6; 8; 10].
Proof.
  unfold lightingRating. cbn [In].
  destruct (count >? 50); [auto |].
  destruct (count >? 20); [auto |].
  destruct (count >? 10); auto.
Qed.

Lemma maxRating_value : maxRating = 4611686018427387863.
Proof. vm_compute. reflexivity. Qed.

Section SafetyProgram.
Context `{GoTables}.

(** Along [analyzeSafety] the rating is one of those four, so the score
    it stores is never below 60. *)
Lemma analyzeSafety_score_floor (analysis : Analysis.t) (search : PlaceSearch)
    (lq : LightingQuery) (gr : option (list string)) (cube : CubeFetch)
    (o : RangeOrders) :
  match analyzeSafety analysis search lq gr cube o with
  | Ok a => 60 <= Analysis.SafetyScore a <= 100
  | Err _ => True
  end.
Proof.
  unfold analyzeSafety.
  destruct (findNearbyGardai analysis search) as [a1 | e]; [| exact I].
  unfold analyzeStreetLighting.
  destruct lq as [| code els]; [exact I |].
  destruct (negb (code =? 200)); [exact I |].
  destruct els as [els |]; [| exact I].
  set (count := match els with [] => 0 | e :: _ => _ end).
  set (a2 := set_lighting a1 _ _).
  unfold getCrimeStats.
  destruct (GetCrimeStats gr cube o) as [stats | e]; [| exact I].
  set (a3 := set_crime a2 stats).
  assert (Hr : 0 <= Analysis.StreetLighting_Rating a3 <= maxRating).
  { change (Analysis.StreetLighting_Rating a3) with (lightingRating count).
    rewrite maxRating_value.
    pose proof (lightingRating_values count) as Hin. cbn [In] in Hin. lia. }
  exact (safety_score_range a3 Hr).
Qed.

End SafetyProgram.

(** ** crime_stats.go: the fallback and the value extraction *)

Lemma pop_outside_table (div : string) :
  ~ In div [ "D.M.R. Northern Division"; "D.M.R. North Central Division";
             "D.M.R. Southern Division"; "D.M.R. South Central Division";
             "D.M.R. Eastern Division"; "D.M.R. Western Division" ]%string ->
  pop div = 100000.
Proof.
  cbn [In]. intros Hout. unfold pop, pop_table.
  cbn [list_to_map foldr uncurry fst snd].
  rewrite !lookup_insert_ne by (intros Heq; tauto).
  rewrite lookup_empty. reflexivity.
Qed.

Lemma pop_values (div : string) :
  In (pop div) [180000; 300000; 200000; 280000; 260000; 220000; 100000].
Proof.
  unfold pop, pop_table. cbn [list_to_map foldr uncurry fst snd].
  repeat
    (match goal with
     | |- context [ <[ ?k := ?v ]> ?m !! div ] =>
         destruct (decide (k = div)) as [<- | ?];
         [ rewrite lookup_insert_eq; cbn [In]; auto 10
         | rewrite (lookup_insert_ne m k div v) by assumption ]
     end).
  rewrite lookup_empty. cbn [In]. auto 10.
Qed.

Lemma pop_positive (div : string) : 0 < pop div.
Proof. pose proof (pop_values div) as Hin. cbn [In] in Hin. lia. Qed.

(** The population converts to float64 without rounding, and the
    fallback quotient is the correctly rounded 500 / population. *)
Lemma fallback_perCapita (div : string) :
  F64.div (F64.of_Z 500) (F64.of_Z (pop div))
    = F64.round64 (500 / inject_Z (pop div)).
Proof.
  pose proof (pop_values div) as Hin. cbn [In] in Hin.
  repeat (destruct Hin as [<- | Hin]; [vm_compute; reflexivity |]).
  contradiction.
Qed.

Section CrimeStatsProperties.
Context `{GoTables}.

(** C2: for a cube without dimensions, whatever the division, the
    resolver returns without error the synthetic figures: total 500, per
    capita 500 divided by the population of the division (100000 for a
    division outside the table of six), and the three-entry breakdown.
    [GetCrimeStats] hands the division it looked up to [fetchStats]
    with the year 2024. *)
Theorem C2_zero_dimension_fallback (px : PxStatResp) (o : RangeOrders)
    (division year : string) :
  Dimension px = ∅ ->
  fetchStats (CubeResponse 200 (BodyDecoded px)) o division year =
    Ok {| Total := 500;
          PerCapita := F64.div (F64.of_Z 500) (F64.of_Z (pop division));
          Breakdown := [ {| Type_ := "Property Crime"; Count := 300 |};
                         {| Type_ := "Violent Crime"; Count := 100 |};
                         {| Type_ := "Other Crime"; Count := 100 |} ] |}
  /\ (forall others : list string,
        GetCrimeStats (Some (division :: others))
                      (CubeResponse 200 (BodyDecoded px)) o
          = fetchStats (CubeResponse 200 (BodyDecoded px)) o division "2024")
  /\ F64.div (F64.of_Z 500) (F64.of_Z (pop division))
       = F64.round64 (500 / inject_Z (pop division))
  /\ (~ In division
          [ "D.M.R. Northern Division"; "D.M.R. North Central Division";
            "D.M.R. Southern Division"; "D.M.R. South Central Division";
            "D.M.R. Eastern Division"; "D.M.R. Western Division" ]%string ->
      pop division = 100000).
Proof.
  intros Hempty. split; [| split; [| split]].
  - unfold fetchStats. cbn [negb Z.eqb Pos.eqb]. unfold statsOfCube.
    rewrite Hempty, map_size_empty. reflexivity.
  - intros others. reflexivity.
  - apply fallback_perCapita.
  - apply pop_outside_table.
Qed.

Lemma matchRegionFrom_bounds (target : string) (d : DimensionT) (codes : list string)
    (start idx : Z) (lbl : string) :
  matchRegionFrom target d start codes = Some (idx, lbl) ->
  start <= idx < start + GoInt.len codes.
Proof.
  revert start. induction codes as [| code rest IH]; intros start Hm.
  - discriminate.
  - cbn [matchRegionFrom] in Hm. rewrite len_cons.
    pose proof (len_nonneg rest) as Hl.
    destruct (_ || _).
    + injection Hm as <- _. lia.
    + apply IH in Hm. lia.
Qed.

Lemma matchYearFrom_bounds (year : string) (codes : list string) (start idx : Z) :
  matchYearFrom year start codes = Some idx ->
  start <= idx < start + GoInt.len codes.
Proof.
  revert start. induction codes as [| code rest IH]; intros start Hm.
  - discriminate.
  - cbn [matchYearFrom] in Hm. rewrite len_cons.
    pose proof (len_nonneg rest) as Hl.
    destruct (String.eqb code year).
    + injection Hm as <-. lia.
    + apply IH in Hm. lia.
Qed.

(** The code at the matched index is the requested year. *)
Lemma matchYearFrom_code (year : string) (codes : list string) (start idx : Z) :
  matchYearFrom year start codes = Some idx ->
  nth_error codes (Z.to_nat (idx - start)) = Some year.
Proof.
  revert start. induction codes as [| code rest IH]; intros start Hm.
  - discriminate.
  - cbn [matchYearFrom] in Hm.
    destruct (String.eqb_spec code year) as [-> | Hne].
    + injection Hm as <-. rewrite Z.sub_diag. reflexivity.
    + pose proof (matchYearFrom_bounds _ _ _ _ Hm) as Hb.
      apply IH in Hm.
      replace (Z.to_nat (idx - start)) with (S (Z.to_nat (idx - (start + 1)))) by lia.
      exact Hm.
Qed.

Lemma extractTotal_spec (px : PxStatResp) (regIdx : Z) (regLabel : string)
    (yrDim : DimensionT) (yrIdx : Z) :
  let n := GoInt.len (Category_Index yrDim) in
  let pos := regIdx * n + yrIdx in
  0 <= regIdx -> 0 <= yrIdx -> pos <= GoInt.max_int ->
  extractTotal px regIdx regLabel yrDim yrIdx =
    if pos >=? GoInt.len (Value px) then Err ErrPosition
    else
      let total := F64.to_int (nth (Z.to_nat pos) (Value px) F64.zero) in
      Ok {| Total := total;
            PerCapita := F64.div (F64.of_Z total) (F64.of_Z (pop regLabel));
            Breakdown := [] |}.
Proof.
  intros n pos Hi Hj Hmax. unfold extractTotal. fold n.
  pose proof (len_nonneg (Category_Index yrDim)) as Hn. fold n in Hn.
  assert (Hin : 0 <= regIdx * n) by nia.
  rewrite (mul_small regIdx n) by (unfold GoInt.min_int; subst pos; lia).
  rewrite add_small by (unfold GoInt.min_int; subst pos; lia).
  fold pos. cbv zeta.
  destruct (pos >=? GoInt.len (Value px)); [reflexivity |].
  replace (pos <? 0) with false by (symmetry; apply Z.ltb_ge; subst pos; lia).
  replace (pop regLabel >? 0) with true
    by (symmetry; apply Z.gtb_lt, pop_positive).
  reflexivity.
Qed.

(** C1, as the code has it: once the region index i, the year index j
    and the number n of year categories are resolved (and i*n + j fits an
    [int]), the resolver fails with the position error exactly when
    i*n + j is at least the length of the value vector, and then returns
    no statistics; otherwise the total is int(values[i*n + j]). *)
Theorem C1_value_extraction (px : PxStatResp) (o : RangeOrders)
    (division year regionKey yearKey : string) (regDim yrDim : DimensionT)
    (i j : Z) (regLabel : string) :
  size (Dimension px) <> 0%nat ->
  resolveKeys px o = (regionKey, yearKey) ->
  Dimension px !! regionKey = Some regDim ->
  Dimension px !! yearKey = Some yrDim ->
  matchRegion division regDim = Some (i, regLabel) ->
  matchYear year yrDim = Some j ->
  let n := GoInt.len (Category_Index yrDim) in
  i * n + j <= GoInt.max_int ->
  (statsOfCube px o division year = Err ErrPosition
     <-> GoInt.len (Value px) <= i * n + j)
  /\ (GoInt.len (Value px) <= i * n + j ->
      forall stats, statsOfCube px o division year <> Ok stats)
  /\ (i * n + j < GoInt.len (Value px) ->
      exists stats,
        statsOfCube px o division year = Ok stats
        /\ Total stats = F64.to_int (nth (Z.to_nat (i * n + j)) (Value px) F64.zero)
        /\ PerCapita stats = F64.div (F64.of_Z (Total stats)) (F64.of_Z (pop regLabel))
        /\ Breakdown stats = []).
Proof.
  intros Hsize Hkeys HregDim HyrDim Hreg Hyr n Hmax.
  pose proof (matchRegionFrom_bounds _ _ _ _ _ _ Hreg) as Hi.
  pose proof (matchYearFrom_bounds _ _ _ _ Hyr) as Hj.
  assert (Hstats : statsOfCube px o division year =
                     extractTotal px i regLabel yrDim j).
  { unfold statsOfCube.
    replace (Z.of_nat (size (Dimension px)) =? 0) with false
      by (symmetry; apply Z.eqb_neq; lia).
    rewrite Hkeys, HregDim, HyrDim, Hreg, Hyr. reflexivity. }
  rewrite Hstats.
  rewrite extractTotal_spec by (fold n; lia).
  fold n. cbv zeta.
  destruct (Z.geb_spec (i * n + j) (GoInt.len (Value px))) as [Hge | Hlt].
  - split; [| split].
    + split; [intros _; lia | reflexivity].
    + intros _ stats. discriminate.
    + intros Hlt. lia.
  - split; [| split].
    + split; [discriminate | lia].
    + intros Hge. lia.
    + intros _. eexists. split; [reflexivity |]. cbn. auto.
Qed.

End CrimeStatsProperties.

Lemma C2_zero_dimension_fallback_witness :
  let px := {| Dimension := ∅; Value := [] |} in
  Dimension px = ∅
  /\ @fetchStats plainTables (CubeResponse 200 (BodyDecoded px)) sampleOrders
       "Unknown Division" "2024" =
       Ok {| Total := 500;
             PerCapita := F64.round64 (500 / 100000);
             Breakdown := [ {| Type_ := "Property Crime"; Count := 300 |};
                            {| Type_ := "Violent Crime"; Count := 100 |};
                            {| Type_ := "Other Crime"; Count := 100 |} ] |}.
Proof.
  intros px. split; [reflexivity |].
  pose proof (@C2_zero_dimension_fallback plainTables px sampleOrders
                "Unknown Division" "2024" eq_refl) as [Hfetch _].
  rewrite Hfetch. vm_compute. reflexivity.
Defined.

Lemma C1_value_extraction_witness :
  let px := sampleCube (floats [10; 20; 30; 40; 50; 60]) in
  exists stats,
    @statsOfCube plainTables px sampleOrders "Beta" "2024" = Ok stats
    /\ Total stats = 40.
Proof.
  intros px.
  pose proof (@C1_value_extraction plainTables px sampleOrders "Beta" "2024"
                "C03" "TLIST(A1)"
                (cubeDim "Garda Division"
                   [ ("r0", "Alpha Division"); ("r1", "Beta Division");
                     ("r2", "Gamma Division") ])
                (cubeDim "Year" [ ("2023", "2023"); ("2024", "2024") ])
                1 1 "Beta Division"
                ltac:(vm_compute; discriminate)
                ltac:(vm_compute; reflexivity)
                ltac:(vm_compute; reflexivity)
                ltac:(vm_compute; reflexivity)
                ltac:(vm_compute; reflexivity)
                ltac:(vm_compute; reflexivity)
                ltac:(vm_compute; discriminate)) as [_ [_ Hok]].
  destruct (Hok ltac:(vm_compute; reflexivity)) as [stats [Hs [Ht _]]].
  exists stats. split; [exact Hs |]. rewrite Ht. vm_compute. reflexivity.
Defined.

(** The sample orders enumerate the two dimensions of the sample cube. *)
Lemma sampleCube_keys (values : list float64) :
  List.map fst (map_to_list (Dimension (sampleCube values)))
    ≡ₚ [ "C03"; "TLIST(A1)" ]%string.
Proof.
  unfold sampleCube. cbn [Dimension].
  rewrite map_to_list_to_map; [reflexivity |].
  cbn [fmap list_fmap fst]. apply NoDup_cons. split; [| apply NoDup_singleton].
  intros Hin. apply list_elem_of_singleton in Hin. discriminate Hin.
Qed.

Lemma sampleOrders_valid (values : list float64) :
  valid_orders (sampleCube values) sampleOrders.
Proof.
  unfold valid_orders, enumerates. rewrite sampleCube_keys.
  unfold sampleOrders. cbn [ord_label ord_region ord_year ord_keys ord_all].
  repeat split; first [reflexivity | apply perm_swap].
Qed.

(** The flattened index equal to the length of the value vector: it
    does not exceed the length, and the resolver fails all the same. *)
Lemma C1_counterexample_at_length :
  let px := sampleCube (floats [10; 20; 30; 40; 50]) in
  let regDim := cubeDim "Garda Division"
                  [ ("r0", "Alpha Division"); ("r1", "Beta Division");
                    ("r2", "Gamma Division") ] in
  let yrDim := cubeDim "Year" [ ("2023", "2023"); ("2024", "2024") ] in
  valid_orders px sampleOrders
  /\ @resolveKeys plainTables px sampleOrders = ("C03", "TLIST(A1)")%string
  /\ Dimension px !! "C03"%string = Some regDim
  /\ Dimension px !! "TLIST(A1)"%string = Some yrDim
  /\ @matchRegion plainTables "Gamma" regDim = Some (2, "Gamma Division"%string)
  /\ matchYear "2024" yrDim = Some 1
  /\ GoInt.len (Category_Index yrDim) = 2
  /\ ~ (GoInt.len (Value px) < 2 * 2 + 1)
  /\ @statsOfCube plainTables px sampleOrders "Gamma" "2024" = Err ErrPosition.
Proof.
  split; [apply sampleOrders_valid |].
  vm_compute. repeat split; try reflexivity. discriminate.
Qed.

(** ** Price parsing *)

Lemma take_digits_no_digit (s : string) :
  (forall c rest, s = String c rest -> Strconv.is_digit c = false) ->
  Strconv.take_digits s = (EmptyString, s).
Proof.
  intros Hs. destruct s as [| c rest]; [reflexivity |].
  cbn [Strconv.take_digits]. rewrite (Hs c rest eq_refl). reflexivity.
Qed.

Lemma FindString_no_digit (s : string) :
  (forall c rest, s = String c rest -> Strconv.is_digit c = false) ->
  Strconv.FindString_leading_number s = EmptyString.
Proof.
  intros Hs. unfold Strconv.FindString_leading_number.
  rewrite take_digits_no_digit by exact Hs. reflexivity.
Qed.

(** A match of the regular expression starts with a digit. *)
Lemma FindString_starts_with_digit (s : string) :
  Strconv.FindString_leading_number s <> EmptyString ->
  exists c rest, s = String c rest /\ Strconv.is_digit c = true.
Proof.
  intros Hm. destruct s as [| c rest].
  - exfalso. apply Hm. reflexivity.
  - exists c, rest. split; [reflexivity |].
    destruct (Strconv.is_digit c) eqn:Hc; [reflexivity |].
    exfalso. apply Hm. apply FindString_no_digit.
    intros c' rest' Heq. injection Heq as <- <-. exact Hc.
Qed.

Section PriceProperties.
Context `{GoTables}.

Lemma extractPriceValue_unfold (price : string) :
  extractPriceValue price =
    let match_ := Strconv.FindString_leading_number (cleanPrice price) in
    if Strings.isEmpty match_ then F64.zero
    else match Strconv.ParseFloat match_ with
         | None => F64.zero
         | Some value => value
         end.
Proof. reflexivity. Qed.

(** C4: in the revision with the regular expression the three
    spellings of 1234 parse to 1234; a text without a number at its
    start (after the cleaning) gives 0, and so does a number that does
    not parse, such as one too large for float64.  The function is
    total: it returns a value for every text.  The other revision cuts
    the text at its first space before it parses: it agrees on the first
    two spellings and gives 1 for "1 234". *)
Theorem C4_parse_price :
  extractPriceValue "€1,234" = F_fin 1234
  /\ extractPriceValue "1,234" = F_fin 1234
  /\ extractPriceValue "1 234" = F_fin 1234
  /\ (forall price : string,
        (forall c rest, cleanPrice price = String c rest ->
                        Strconv.is_digit c = false) ->
        extractPriceValue price = F64.zero)
  /\ (forall price : string,
        Strconv.ParseFloat (Strconv.FindString_leading_number (cleanPrice price))
          = None ->
        extractPriceValue price = F64.zero)
  /\ extractPriceValue hugePrice = F64.zero
  /\ Rev0.extractPriceValue "€1,234" = F_fin 1234
  /\ Rev0.extractPriceValue "1,234" = F_fin 1234
  /\ Rev0.extractPriceValue "1 234" = F_fin 1
  /\ Rev0.extractPriceValue "1 234" <> F_fin 1234.
Proof.
  split; [vm_compute; reflexivity |].
  split; [vm_compute; reflexivity |].
  split; [vm_compute; reflexivity |].
  split; [| split].
  - intros price Hno. rewrite extractPriceValue_unfold. cbv zeta.
    rewrite FindString_no_digit by exact Hno. reflexivity.
  - intros price Hfail. rewrite extractPriceValue_unfold. cbv zeta.
    rewrite Hfail. destruct (Strings.isEmpty _); reflexivity.
  - split; [vm_compute; reflexivity |].
    split; [vm_compute; reflexivity |].
    split; [vm_compute; reflexivity |].
    assert (Hcut : Rev0.extractPriceValue "1 234" = F_fin 1)
      by (vm_compute; reflexivity).
    split; [exact Hcut |]. rewrite Hcut. discriminate.
Qed.

End PriceProperties.

Lemma C4_parse_price_witness :
  (forall c rest, cleanPrice "POA" = String c rest ->
                  Strconv.is_digit c = false)
  /\ @extractPriceValue plainTables "POA" = F64.zero.
Proof.
  assert (Hno : forall c rest, cleanPrice "POA" = String c rest ->
                               Strconv.is_digit c = false).
  { intros c rest Heq. vm_compute in Heq. injection Heq as <- _. reflexivity. }
  split; [exact Hno |].
  exact (proj1 (proj2 (proj2 (proj2 (@C4_parse_price plainTables)))) "POA"%string Hno).
Defined.

Section Rev0Price.
Context `{GoTables}.

(** The other revision keeps only what precedes the first space. *)
Lemma Rev0_extractPriceValue_examples :
  Rev0.extractPriceValue "€1,234" = F_fin 1234
  /\ Rev0.extractPriceValue "1,234" = F_fin 1234
  /\ Rev0.extractPriceValue "1 234" = F_fin 1.
Proof. repeat split; vm_compute; reflexivity. Qed.

End Rev0Price.

(** ** Address slug *)

Lemma substring_all (s : string) : substring 0 (String.length s) s = s.
Proof. induction s as [| c s IH]; cbn; [reflexivity | rewrite IH; reflexivity]. Qed.

Lemma TrimPrefix_no_prefix (s p : string) :
  Strings.HasPrefix s p = false -> Strings.TrimPrefix s p = s.
Proof. intros Hp. unfold Strings.TrimPrefix. rewrite Hp. reflexivity. Qed.

Lemma prefix_empty (s : string) : String.prefix "" s = true.
Proof. destruct s; reflexivity. Qed.

Lemma TrimPrefix_co_dot (rest : string) :
  Strings.TrimPrefix ("co." ++ rest) "co." = rest.
Proof.
  unfold Strings.TrimPrefix, Strings.HasPrefix.
  change ("co." ++ rest)%string with (String "c" (String "o" (String "." rest))).
  cbn [String.prefix String.length Nat.sub substring].
  repeat (destruct (ascii_dec _ _) as [_ | Hne]; [| exfalso; apply Hne; reflexivity]).
  rewrite prefix_empty, Nat.sub_0_r. apply substring_all.
Qed.

Lemma TrimPrefix_county (rest : string) :
  Strings.TrimPrefix ("county" ++ rest) "county" = rest.
Proof.
  unfold Strings.TrimPrefix, Strings.HasPrefix.
  change ("county" ++ rest)%string
    with (String "c" (String "o" (String "u" (String "n" (String "t" (String "y" rest)))))).
  cbn [String.prefix String.length Nat.sub substring].
  repeat (destruct (ascii_dec _ _) as [_ | Hne]; [| exfalso; apply Hne; reflexivity]).
  rewrite prefix_empty, Nat.sub_0_r. apply substring_all.
Qed.

Lemma county_not_co_dot (rest : string) :
  Strings.HasPrefix ("county" ++ rest) "co." = false.
Proof. reflexivity. Qed.

Section SlugProperties.
Context `{GoTables}.

Lemma extractLocationFromAddress_segments (addr : string)
    (pre : list string) (suburb county : string) :
  addressSegments addr = (pre ++ [suburb; county])%list ->
  extractLocationFromAddress addr =
    match firstWordIfDigit (stripCountyPrefix county) with
    | Ok c => Ok (slugify suburb ++ "-" ++ slugify c)%string
    | Err e => Err e
    end.
Proof.
  intros Hseg. unfold extractLocationFromAddress. rewrite Hseg. cbv zeta.
  assert (Hlen : length (pre ++ [suburb; county]) = S (S (length pre))).
  { rewrite length_app. cbn. lia. }
  unfold GoInt.len. rewrite Hlen.
  replace (Z.of_nat (S (S (length pre))) =? 0) with false
    by (symmetry; apply Z.eqb_neq; lia).
  replace (2 <=? Z.of_nat (S (S (length pre)))) with true
    by (symmetry; apply Z.leb_le; lia).
  replace (S (S (length pre)) - 2)%nat with (length pre) by lia.
  replace (S (S (length pre)) - 1)%nat with (S (length pre)) by lia.
  rewrite !app_nth2 by lia.
  rewrite Nat.sub_diag.
  replace (S (length pre) - length pre)%nat with 1%nat by lia.
  reflexivity.
Qed.

(** A bare "co" stays in the token, for every choice of tables. *)
Lemma bare_co_is_kept :
  extractLocationFromAddress "X, Y, Co Dublin" = Ok "y-co-dublin"%string.
Proof. vm_compute. reflexivity. Qed.

(** The other revision on the same addresses: it takes the second
    segment as the town, removes "Co.", "Co" and "County" before
    lower-casing, and drops digits and spaces at the end. *)
Lemma Rev0_extractLocationFromAddress_examples :
  Rev0.extractLocationFromAddress "12 Main St, Ranelagh, Co. Dublin"
    = "ranelagh-dublin"%string
  /\ Rev0.extractLocationFromAddress "X, Y, Dublin 9" = "y-dublin"%string
  /\ Rev0.extractLocationFromAddress "X, Y, Co Dublin" = "y-dublin"%string
  /\ Rev0.extractLocationFromAddress "1 Quay St, Docklands, Dublin, Cork"
       = "docklands-rk"%string.
Proof. repeat split; vm_compute; reflexivity. Qed.

End SlugProperties.

(** ** Similar listings *)

Lemma isEmpty_false (s : string) : Strings.isEmpty s = false <-> s <> EmptyString.
Proof. destruct s; cbn; split; intros; congruence. Qed.

Lemma firstn_length_le5 {A} (l : list A) : (length (firstn 5 l) <= 5)%nat.
Proof. rewrite length_firstn. lia. Qed.

Lemma In_firstn {A} (n : nat) (l : list A) (x : A) :
  In x (firstn n l) -> In x l.
Proof.
  revert l. induction n as [| n IH]; intros [| y l]; cbn; try tauto.
  intros [-> | Hin]; [left; reflexivity | right; apply IH; exact Hin].
Qed.

Lemma cap5 {A} (l : list A) :
  (if GoInt.len l >? 5 then firstn 5 l else l) = firstn 5 l.
Proof.
  unfold GoInt.len. rewrite Z.gtb_ltb.
  destruct (Z.ltb_spec 5 (Z.of_nat (length l))); [reflexivity |].
  symmetry. apply firstn_all2. lia.
Qed.

Section SimilarProperties.
Context `{GoTables}.

Lemma onResultItem_spec (similar : list SimilarProperty.t) (e : ResultItem) :
  onResultItem similar e =
    if keepable e then (similar ++ [listingOf e])%list else similar.
Proof.
  unfold onResultItem, keepable, listingOf. cbv zeta.
  destruct (Strings.isEmpty (item_href e)); [reflexivity |].
  destruct (Strings.isEmpty (Strings.TrimSpace (item_address e))); [reflexivity |].
  destruct (F64.eqb _ _); reflexivity.
Qed.

(** The handler keeps the items in their order, after what was there. *)
Lemma fold_onResultItem (items : list ResultItem) (similar : list SimilarProperty.t) :
  fold_left onResultItem items similar =
    (similar ++ List.map listingOf (List.filter keepable items))%list.
Proof.
  revert similar. induction items as [| e items IH]; intros similar.
  - cbn. symmetry. apply app_nil_r.
  - cbn [fold_left List.filter]. rewrite IH, onResultItem_spec.
    destruct (keepable e); [| reflexivity].
    cbn [List.map]. rewrite <- app_assoc. reflexivity.
Qed.

Lemma keepable_spec (e : ResultItem) :
  keepable e = true ->
  item_href e <> EmptyString
  /\ SimilarProperty.Address (listingOf e) <> EmptyString
  /\ SimilarProperty.URL (listingOf e) <> EmptyString
  /\ F64.eqb (SimilarProperty.Price (listingOf e)) F64.zero = false.
Proof.
  unfold keepable, listingOf. cbn [SimilarProperty.Address SimilarProperty.URL SimilarProperty.Price].
  rewrite !andb_true_iff, !negb_true_iff, !isEmpty_false.
  intros [[Hh Ha] Hp]. repeat split; try assumption.
  discriminate.
Qed.

(** What [findSimilarProperties] stores for any page: the adverts of
    the scripts first, then the kept result items, five at most. *)
Lemma findSimilarProperties_kept (property : PropertyInfo) (visit : ListingSearch)
    (url : string) (scripts : list (option (list Advert)))
    (items : list ResultItem) :
  searchURL property = Ok url ->
  visit url = Visited scripts items ->
  exists p,
    findSimilarProperties property visit = Ok p
    /\ Similar (ValueAnalysis p)
         = firstn 5
             (fold_left onNextData scripts (Similar (ValueAnalysis property))
                ++ List.map listingOf (List.filter keepable items))%list.
Proof.
  intros Hurl Hvisit. unfold findSimilarProperties. rewrite Hurl, Hvisit.
  rewrite cap5, fold_onResultItem. eexists. split; reflexivity.
Qed.

(** An advert is dropped on a zero price only: one without address is
    kept. *)
Lemma onNextData_keeps_empty_address :
  onNextData []
    (Some [ {| DisplayAddress := ""; Price_Monthly := 0; Price_Weekly := 250;
               AdPath := "/share/11" |} ])
  = [ {| SimilarProperty.Address := "";
         SimilarProperty.Price := F_fin 250;
         SimilarProperty.URL := "https://www.daft.ie/share/11" |} ].
Proof. vm_compute. reflexivity. Qed.

(** The other revision tests the texts, not the parsed price: an item
    whose price parses to 0 is kept. *)
Lemma Rev0_onResult_keeps_zero_price :
  Rev0.onResult [] (item "/share/4" "4 Elm Rd, Ranelagh" "€0 per month") =
    [ {| SimilarProperty.Address := "4 Elm Rd, Ranelagh";
         SimilarProperty.Price := F64.zero;
         SimilarProperty.URL := "https://www.daft.ie/share/4" |} ].
Proof. vm_compute. reflexivity. Qed.

End SimilarProperties.

(** ** float64 rounding is monotone *)

Lemma rne_cases (x : Q) :
  let f := Qfloor x in
  (F64.rne x = f /\ (x - inject_Z f <= 1 # 2)%Q)
  \/ (F64.rne x = f + 1 /\ (1 # 2 <= x - inject_Z f)%Q).
Proof.
  intros f. unfold F64.rne. fold f.
  destruct (Qcompare (x - inject_Z f) (1 # 2)) eqn:Hc.
  - apply Qeq_alt in Hc. destruct (Z.even f); [left | right]; split; try reflexivity; lra.
  - apply Qlt_alt in Hc. left. split; [reflexivity | lra].
  - apply Qgt_alt in Hc. right. split; [reflexivity | lra].
Qed.

Lemma rne_floor_bounds (x : Q) : Qfloor x <= F64.rne x <= Qfloor x + 1.
Proof. destruct (rne_cases x) as [[-> _] | [-> _]]; lia. Qed.

Lemma rne_ge_int (x : Q) (n : Z) : (inject_Z n <= x)%Q -> n <= F64.rne x.
Proof.
  intros Hn. pose proof (rne_floor_bounds x) as Hb.
  apply Qfloor_resp_le in Hn. rewrite Qfloor_Z in Hn. lia.
Qed.

Lemma rne_le_int (x : Q) (n : Z) : (x <= inject_Z n)%Q -> F64.rne x <= n.
Proof.
  intros Hn.
  pose proof (Qfloor_resp_le _ _ Hn) as Hf. rewrite Qfloor_Z in Hf.
  destruct (rne_cases x) as [[-> _] | [-> Hhalf]]; [exact Hf |].
  destruct (Z.eq_dec (Qfloor x) n) as [Heq | Hne]; [| lia].
  exfalso. rewrite Heq in Hhalf. lra.
Qed.

Lemma rne_mono (x y : Q) : (x <= y)%Q -> F64.rne x <= F64.rne y.
Proof.
  intros Hxy.
  pose proof (Qfloor_resp_le _ _ Hxy) as Hf.
  destruct (Z.eq_dec (Qfloor x) (Qfloor y)) as [Heq | Hne].
  - unfold F64.rne. rewrite <- Heq.
    destruct (Qcompare (x - inject_Z (Qfloor x)) (1 # 2)) eqn:Hcx;
      destruct (Qcompare (y - inject_Z (Qfloor x)) (1 # 2)) eqn:Hcy;
      repeat match goal with
             | Hc : Qcompare _ _ = Eq |- _ => apply <- Qeq_alt in Hc
             | Hc : Qcompare _ _ = Lt |- _ => apply <- Qlt_alt in Hc
             | Hc : Qcompare _ _ = Gt |- _ => apply <- Qgt_alt in Hc
             end;
      try (exfalso; lra);
      destruct (Z.even (Qfloor x)); lia.
  - pose proof (rne_floor_bounds x). pose proof (rne_floor_bounds y). lia.
Qed.

Lemma rne_nonneg (x : Q) : (0 <= x)%Q -> 0 <= F64.rne x.
Proof. intros Hx. apply (rne_ge_int x 0). exact Hx. Qed.

Lemma pow2_pos (s : Z) : 0 <= s -> 0 < 2 ^ s.
Proof. intros Hs. apply Z.pow_pos_nonneg; lia. Qed.

Lemma inject_pow2_pos (s : Z) : 0 <= s -> (0 < inject_Z (2 ^ s))%Q.
Proof.
  intros Hs. pose proof (pow2_pos s Hs) as Hp.
  change 0%Q with (inject_Z 0). rewrite <- Zlt_Qlt. exact Hp.
Qed.

Lemma shift_of_nonneg (x : Q) : 0 <= F64.shift_of x.
Proof. unfold F64.shift_of. lia. Qed.

Lemma shift_of_mono (x y : Q) : (x <= y)%Q -> F64.shift_of x <= F64.shift_of y.
Proof.
  intros Hxy. unfold F64.shift_of.
  pose proof (Z.log2_le_mono _ _ (Qfloor_resp_le _ _ Hxy)). lia.
Qed.

Lemma below_next_binade (x : Q) : (x < inject_Z (2 ^ (53 + F64.shift_of x)))%Q.
Proof.
  pose proof (shift_of_nonneg x) as Hs.
  eapply Qlt_le_trans; [apply Qlt_floor |].
  rewrite <- Zle_Qle.
  destruct (Z_le_gt_dec (Qfloor x) 0) as [Hf | Hf].
  - pose proof (Z.pow_le_mono_r 2 0 (53 + F64.shift_of x) ltac:(lia) ltac:(lia)) as Hp.
    rewrite Z.pow_0_r in Hp. lia.
  - pose proof (Z.log2_spec (Qfloor x) ltac:(lia)) as [_ Hup].
    assert (Hle : Z.succ (Z.log2 (Qfloor x)) <= 53 + F64.shift_of x)
      by (unfold F64.shift_of; lia).
    pose proof (Z.pow_le_mono_r 2 _ _ ltac:(lia) Hle). lia.
Qed.

Lemma above_binade (x : Q) :
  1 <= F64.shift_of x -> (inject_Z (2 ^ (52 + F64.shift_of x)) <= x)%Q.
Proof.
  intros Hs. eapply Qle_trans; [| apply Qfloor_le].
  rewrite <- Zle_Qle.
  assert (Hlog : F64.shift_of x = Z.log2 (Qfloor x) - 52)
    by (unfold F64.shift_of in *; lia).
  assert (Hpos : 0 < Qfloor x).
  { destruct (Z_lt_le_dec 0 (Qfloor x)) as [Hp | Hn]; [exact Hp |].
    rewrite (Z.log2_nonpos _ Hn) in Hlog. lia. }
  pose proof (Z.log2_spec (Qfloor x) Hpos) as [Hlow _].
  replace (52 + F64.shift_of x) with (Z.log2 (Qfloor x)) by lia. exact Hlow.
Qed.

Lemma inject_pow2_add (a b : Z) :
  0 <= a -> 0 <= b ->
  (inject_Z (2 ^ (a + b)) == inject_Z (2 ^ a) * inject_Z (2 ^ b))%Q.
Proof.
  intros Ha Hb. rewrite Z.pow_add_r by assumption.
  rewrite inject_Z_mult. apply Qeq_refl.
Qed.

Lemma round_units_upper (x : Q) :
  F64.round_units x <= 2 ^ (53 + F64.shift_of x).
Proof.
  unfold F64.round_units.
  pose proof (shift_of_nonneg x) as Hs.
  pose proof (pow2_pos _ Hs) as Hp.
  rewrite Z.pow_add_r by lia.
  apply Z.mul_le_mono_nonneg_r; [lia |].
  apply rne_le_int.
  apply Qle_shift_div_r; [apply inject_pow2_pos; exact Hs |].
  rewrite <- inject_pow2_add by lia.
  apply Qlt_le_weak, below_next_binade.
Qed.

Lemma round_units_lower (x : Q) :
  1 <= F64.shift_of x -> 2 ^ (52 + F64.shift_of x) <= F64.round_units x.
Proof.
  intros Hs1. unfold F64.round_units.
  pose proof (shift_of_nonneg x) as Hs.
  pose proof (pow2_pos _ Hs) as Hp.
  rewrite Z.pow_add_r by lia.
  apply Z.mul_le_mono_nonneg_r; [lia |].
  apply rne_ge_int.
  apply Qle_shift_div_l; [apply inject_pow2_pos; exact Hs |].
  rewrite <- inject_pow2_add by lia.
  apply above_binade. exact Hs1.
Qed.

Lemma round_units_mono (x y : Q) :
  (x <= y)%Q -> F64.round_units x <= F64.round_units y.
Proof.
  intros Hxy.
  pose proof (shift_of_mono _ _ Hxy) as Hs.
  pose proof (shift_of_nonneg x) as Hsx.
  destruct (Z.eq_dec (F64.shift_of x) (F64.shift_of y)) as [Heq | Hne].
  - unfold F64.round_units. rewrite <- Heq.
    apply Z.mul_le_mono_nonneg_r; [pose proof (pow2_pos _ Hsx); lia |].
    apply rne_mono.
    apply Qmult_le_compat_r; [exact Hxy |].
    apply Qlt_le_weak, Qinv_lt_0_compat, inject_pow2_pos. exact Hsx.
  - pose proof (round_units_upper x) as Hu.
    pose proof (round_units_lower y ltac:(lia)) as Hl.
    pose proof (Z.pow_le_mono_r 2 (53 + F64.shift_of x) (52 + F64.shift_of y)
                  ltac:(lia) ltac:(lia)).
    lia.
Qed.

Lemma round_units_nonneg (x : Q) : (0 <= x)%Q -> 0 <= F64.round_units x.
Proof.
  intros Hx. unfold F64.round_units.
  pose proof (shift_of_nonneg x) as Hs.
  apply Z.mul_nonneg_nonneg; [| pose proof (pow2_pos _ Hs); lia].
  apply rne_nonneg.
  apply Qle_shift_div_l; [apply inject_pow2_pos; exact Hs |].
  lra.
Qed.

Lemma units_pos : (0 < inject_Z F64.units_per_one)%Q.
Proof. unfold F64.units_per_one. apply inject_pow2_pos. lia. Qed.

Lemma Qneg_true (q : Q) : F64.Qneg q = true <-> (q < 0)%Q.
Proof.
  unfold F64.Qneg, Qlt. cbn [Qnum Qden]. rewrite Z.ltb_lt. lia.
Qed.

Lemma Qneg_false (q : Q) : F64.Qneg q = false <-> (0 <= q)%Q.
Proof.
  unfold F64.Qneg, Qle. cbn [Qnum Qden]. rewrite Z.ltb_ge. lia.
Qed.

Lemma magnitude_nonneg (q : Q) : 0 <= magnitude q.
Proof.
  apply round_units_nonneg. apply Qmult_le_0_compat.
  - apply Qabs_nonneg.
  - apply Qlt_le_weak, units_pos.
Qed.

Lemma magnitude_mono (q1 q2 : Q) :
  (Qabs q1 <= Qabs q2)%Q -> magnitude q1 <= magnitude q2.
Proof.
  intros Habs. apply round_units_mono.
  apply Qmult_le_compat_r; [exact Habs | apply Qlt_le_weak, units_pos].
Qed.

Lemma leb_fin (a b : Q) :
  (a <= b)%Q -> F64.leb (F_fin (Qred a)) (F_fin (Qred b)) = true.
Proof.
  intros Hab. unfold F64.leb.
  destruct (Qlt_le_dec (Qred b) (Qred a)) as [Hlt | _]; [| reflexivity].
  exfalso. rewrite !Qred_correct in Hlt. lra.
Qed.

Lemma units_div_mono (m1 m2 : Z) :
  m1 <= m2 ->
  (inject_Z m1 / inject_Z F64.units_per_one
     <= inject_Z m2 / inject_Z F64.units_per_one)%Q.
Proof.
  intros Hm. apply Qmult_le_compat_r.
  - rewrite <- Zle_Qle. exact Hm.
  - apply Qlt_le_weak, Qinv_lt_0_compat, units_pos.
Qed.

Lemma round64_unfold (q : Q) :
  F64.round64 q =
    if F64.overflow_units <=? magnitude q then F_inf (F64.Qneg q)
    else F_fin (Qred (inject_Z (if F64.Qneg q then - magnitude q else magnitude q)
                      / inject_Z F64.units_per_one)).
Proof. reflexivity. Qed.

Lemma round64_mono (q1 q2 : Q) :
  (q1 <= q2)%Q -> F64.leb (F64.round64 q1) (F64.round64 q2) = true.
Proof.
  intros Hle. rewrite !round64_unfold.
  pose proof (magnitude_nonneg q1) as Hr1.
  pose proof (magnitude_nonneg q2) as Hr2.
  destruct (F64.Qneg q1) eqn:N1; destruct (F64.Qneg q2) eqn:N2.
  - apply Qneg_true in N1, N2.
    assert (Hm : magnitude q2 <= magnitude q1).
    { apply magnitude_mono. rewrite !Qabs_neg by lra. lra. }
    destruct (Z.leb_spec F64.overflow_units (magnitude q1));
      destruct (Z.leb_spec F64.overflow_units (magnitude q2));
      try reflexivity; try lia.
    apply leb_fin, units_div_mono. lia.
  - destruct (Z.leb_spec F64.overflow_units (magnitude q1));
      destruct (Z.leb_spec F64.overflow_units (magnitude q2));
      try reflexivity.
    apply leb_fin, units_div_mono. lia.
  - apply Qneg_false in N1. apply Qneg_true in N2. exfalso. lra.
  - apply Qneg_false in N1, N2.
    assert (Hm : magnitude q1 <= magnitude q2).
    { apply magnitude_mono. rewrite !Qabs_pos by lra. lra. }
    destruct (Z.leb_spec F64.overflow_units (magnitude q1));
      destruct (Z.leb_spec F64.overflow_units (magnitude q2));
      try reflexivity; try lia.
    apply leb_fin, units_div_mono. lia.
Qed.

Lemma round64_not_nan (q : Q) : F64.round64 q <> F_nan.
Proof.
  rewrite round64_unfold. destruct (_ <=? _); discriminate.
Qed.

(** ** Price rating *)

Lemma leb_trans (a b c : float64) :
  F64.leb a b = true -> F64.leb b c = true -> F64.leb a c = true.
Proof.
  destruct a as [x | [|] |], b as [y | [|] |], c as [z | [|] |];
    cbn [F64.leb negb orb andb]; try discriminate;
    try (intros; reflexivity); try (intros; assumption).
  destruct (Qlt_le_dec y x), (Qlt_le_dec z y), (Qlt_le_dec z x);
    intros; try congruence. exfalso. lra.
Qed.

Lemma leb_ninf (z : float64) : z <> F_nan -> F64.leb (F_inf true) z = true.
Proof. destruct z; cbn; congruence. Qed.

Lemma leb_pinf (z : float64) : z <> F_nan -> F64.leb z (F_inf false) = true.
Proof. destruct z as [x | [|] |]; cbn; congruence. Qed.

Lemma sub_antitone (x : Q) (c1 c2 : float64) :
  F64.leb c1 c2 = true ->
  F64.leb (F64.sub (F_fin x) c2) (F64.sub (F_fin x) c1) = true.
Proof.
  destruct c1 as [y1 | n1 |], c2 as [y2 | n2 |];
    cbn [F64.leb F64.sub]; try discriminate.
  - destruct (Qlt_le_dec y2 y1); [discriminate |]. intros _.
    apply round64_mono. lra.
  - destruct n2; cbn [negb]; [discriminate |]. intros _.
    apply leb_ninf, round64_not_nan.
  - destruct n1; [| discriminate]. intros _.
    apply leb_pinf, round64_not_nan.
  - destruct n1, n2; cbn; congruence.
Qed.

Lemma div_mono_pos (y : Q) (d1 d2 : float64) :
  (0 < y)%Q -> F64.leb d1 d2 = true ->
  F64.leb (F64.div d1 (F_fin y)) (F64.div d2 (F_fin y)) = true.
Proof.
  intros Hy.
  assert (Hy0 : Qeq_bool y 0 = false).
  { destruct (Qeq_bool y 0) eqn:He; [| reflexivity].
    apply Qeq_bool_iff in He. lra. }
  assert (Hneg : F64.Qneg y = false) by (apply Qneg_false; lra).
  destruct d1 as [x1 | n1 |], d2 as [x2 | n2 |];
    cbn [F64.leb F64.div]; rewrite ?Hy0, ?Hneg, ?xorb_false_r; try discriminate.
  - destruct (Qlt_le_dec x2 x1); [discriminate |]. intros _.
    apply round64_mono. apply Qmult_le_compat_r; [assumption |].
    apply Qlt_le_weak, Qinv_lt_0_compat. exact Hy.
  - destruct n2; cbn [negb]; [discriminate |]. intros _.
    apply leb_pinf, round64_not_nan.
  - destruct n1; [| discriminate]. intros _.
    apply leb_ninf, round64_not_nan.
  - intros Hl. exact Hl.
Qed.

Lemma mul_mono_pos (y : Q) (d1 d2 : float64) :
  (0 < y)%Q -> F64.leb d1 d2 = true ->
  F64.leb (F64.mul d1 (F_fin y)) (F64.mul d2 (F_fin y)) = true.
Proof.
  intros Hy.
  assert (Hy0 : Qeq_bool y 0 = false).
  { destruct (Qeq_bool y 0) eqn:He; [| reflexivity].
    apply Qeq_bool_iff in He. lra. }
  assert (Hneg : F64.Qneg y = false) by (apply Qneg_false; lra).
  destruct d1 as [x1 | n1 |], d2 as [x2 | n2 |];
    cbn [F64.leb F64.mul]; rewrite ?Hy0, ?Hneg, ?xorb_false_r; try discriminate.
  - destruct (Qlt_le_dec x2 x1); [discriminate |]. intros _.
    apply round64_mono. apply Qmult_le_compat_r; [assumption | lra].
  - destruct n2; cbn [negb]; [discriminate |]. intros _.
    apply leb_pinf, round64_not_nan.
  - destruct n1; [| discriminate]. intros _.
    apply leb_ninf, round64_not_nan.
  - intros Hl. exact Hl.
Qed.

Lemma lit_100 : F64.lit 100 = F_fin 100.
Proof. vm_compute. reflexivity. Qed.

Lemma priceDiff_antitone (x : Q) (c1 c2 : float64) :
  (0 < x)%Q -> F64.leb c1 c2 = true ->
  F64.leb (priceDiff (F_fin x) c2) (priceDiff (F_fin x) c1) = true.
Proof.
  intros Hx Hc. unfold priceDiff. rewrite lit_100.
  apply mul_mono_pos; [lra |].
  apply div_mono_pos; [exact Hx |].
  apply sub_antitone. exact Hc.
Qed.

Lemma priceDiff_inf_avg (c : float64) : priceDiff (F_inf false) c = F_nan.
Proof.
  unfold priceDiff. rewrite lit_100.
  destruct c as [y | [|] |]; reflexivity.
Qed.

Lemma ratingOfDiff_mono (d1 d2 : float64) :
  F64.leb d2 d1 = true -> ratingOfDiff d2 <= ratingOfDiff d1.
Proof.
  intros Hle. unfold ratingOfDiff, F64.geb.
  repeat match goal with
         | |- context [F64.leb ?t d2] =>
             let Ht := fresh "Ht" in
             destruct (F64.leb t d2) eqn:Ht;
             [ rewrite (leb_trans _ _ _ Ht Hle) | ]
         end;
    repeat match goal with
           | |- context [F64.leb ?t d1] => destruct (F64.leb t d1)
           end;
    lia.
Qed.

Lemma lit_thresholds :
  F64.lit 20 = F_fin 20 /\ F64.lit 15 = F_fin 15 /\ F64.lit 10 = F_fin 10
  /\ F64.lit 5 = F_fin 5 /\ F64.lit 0 = F_fin 0 /\ F64.lit (-5) = F_fin (-5)
  /\ F64.lit (-10) = F_fin (-10) /\ F64.lit (-15) = F_fin (-15)
  /\ F64.lit (-20) = F_fin (-20).
Proof. repeat split; vm_compute; reflexivity. Qed.

Lemma ratingOfDiff_below (d : float64) :
  F64.ltb d (F_fin (-20)) = true -> ratingOfDiff d = 1.
Proof.
  intros Hd. unfold ratingOfDiff, F64.geb.
  destruct lit_thresholds as (-> & -> & -> & -> & -> & -> & -> & -> & ->).
  destruct d as [x | [|] |]; cbn [F64.ltb F64.leb negb] in *; try discriminate;
    [| reflexivity].
  destruct (Qlt_le_dec x (-20)) as [Hx | _]; [| discriminate].
  repeat match goal with
         | |- context [Qlt_le_dec x ?k] =>
             destruct (Qlt_le_dec x k) as [_ | Hk]; [| exfalso; lra]
         end.
  reflexivity.
Qed.

(** C3: for a fixed positive average price the rating does not increase
    when the current price increases; a difference of exactly 20, 15, 10,
    5, 0, -5, -10, -15, -20 per cent is rated 10, 9, 8, 7, 6, 5, 4, 3, 2
    and any difference below -20 is rated 1.  With an average of 100 the
    prices 80, 85, ..., 120 produce exactly those differences. *)
Theorem C3_price_rating :
  (forall avgPrice cur1 cur2 : float64,
     F64.ltb F64.zero avgPrice = true ->
     F64.leb cur1 cur2 = true ->
     ratingOfDiff (priceDiff avgPrice cur2) <= ratingOfDiff (priceDiff avgPrice cur1))
  /\ List.map ratingOfDiff
       [ F_fin 20; F_fin 15; F_fin 10; F_fin 5; F_fin 0;
         F_fin (-5); F_fin (-10); F_fin (-15); F_fin (-20) ]
     = [10; 9; 8; 7; 6; 5; 4; 3; 2]
  /\ (forall d : float64, F64.ltb d (F_fin (-20)) = true -> ratingOfDiff d = 1)
  /\ List.map (fun cur => ratingOfDiff (priceDiff (F_fin 100) (F_fin (inject_Z cur))))
       [80; 85; 90; 95; 100; 105; 110; 115; 120; 121]
     = [10; 9; 8; 7; 6; 5; 4; 3; 2; 1].
Proof.
  split; [| split; [| split]].
  - intros avgPrice cur1 cur2 Hpos Hle.
    destruct avgPrice as [x | [|] |]; cbn [F64.ltb F64.zero negb] in Hpos;
      try discriminate Hpos.
    + apply ratingOfDiff_mono, priceDiff_antitone; [| exact Hle].
      destruct (Qlt_le_dec 0 x); [assumption | discriminate].
    + rewrite !priceDiff_inf_avg. lia.
  - vm_compute. reflexivity.
  - exact ratingOfDiff_below.
  - vm_compute. reflexivity.
Qed.

Lemma C3_price_rating_witness :
  F64.ltb F64.zero (F_fin 1000) = true
  /\ F64.leb (F_fin 900) (F_fin 1100) = true
  /\ ratingOfDiff (priceDiff (F_fin 1000) (F_fin 1100))
       <= ratingOfDiff (priceDiff (F_fin 1000) (F_fin 900)).
Proof.
  split; [reflexivity |]. split; [reflexivity |].
  exact (proj1 C3_price_rating (F_fin 1000) (F_fin 900) (F_fin 1100) eq_refl eq_refl).
Defined.

Section PriceRatingProgram.
Context `{GoTables}.

(** The stored rating is that of the difference between the average and
    the parsed rent; nothing is stored when the average is 0. *)
Lemma calculatePriceRating_spec (property : PropertyInfo) :
  let v := ValueAnalysis property in
  PriceRating (ValueAnalysis (calculatePriceRating property)) =
    if F64.eqb (AreaAveragePrice v) F64.zero then PriceRating v
    else ratingOfDiff (priceDiff (AreaAveragePrice v)
                                 (extractPriceValue (RentPrice property))).
Proof.
  intros v. unfold calculatePriceRating. fold v.
  destruct (F64.eqb (AreaAveragePrice v) F64.zero); reflexivity.
Qed.
End PriceRatingProgram.

(** * Further properties *)

(** ** The region and year loops of [fetchStats] *)

Lemma prefix_refl (s : string) : String.prefix s s = true.
Proof.
  induction s as [| c s IH]; [reflexivity |].
  cbn [String.prefix]. destruct (ascii_dec c c) as [_ | Hne]; [exact IH | congruence].
Qed.

Lemma Contains_self (s : string) : Strings.Contains s s = true.
Proof. destruct s; cbn [Strings.Contains]; rewrite prefix_refl; reflexivity. Qed.

Lemma Contains_empty (s : string) : Strings.Contains s "" = true.
Proof. destruct s; reflexivity. Qed.

Lemma matchYearFrom_some (year : string) (codes : list string) (start j : Z) :
  matchYearFrom year start codes = Some j ->
  exists pre post,
    codes = (pre ++ year :: post)%list /\ j = start + GoInt.len pre /\ ~ In year pre.
Proof.
  revert start. induction codes as [| code rest IH]; intros start Hm; [discriminate |].
  cbn [matchYearFrom] in Hm.
  destruct (String.eqb_spec code year) as [-> | Hne].
  - injection Hm as <-. exists [], rest. rewrite len_nil. repeat split; [lia | tauto].
  - destruct (IH _ Hm) as (pre & post & -> & -> & Hnot).
    exists (code :: pre), post. rewrite len_cons. repeat split; [lia |].
    cbn [In]. intros [Heq | Hin]; [congruence | tauto].
Qed.

Lemma matchYearFrom_none (year : string) (codes : list string) (start : Z) :
  matchYearFrom year start codes = None <-> ~ In year codes.
Proof.
  revert start. induction codes as [| code rest IH]; intros start.
  - cbn. tauto.
  - cbn [matchYearFrom In].
    destruct (String.eqb_spec code year) as [-> | Hne].
    + split; [discriminate | tauto].
    + rewrite IH. tauto.
Qed.

(** X1: the year loop stops at the first category code equal to the
    year: the index found is the position of the first occurrence, and no
    index is found exactly when the code does not occur. *)
Theorem matchYear_first_occurrence (year : string) (yrDim : DimensionT) :
  match matchYear year yrDim with
  | Some j =>
      exists pre post,
        Category_Index yrDim = (pre ++ year :: post)%list
        /\ j = GoInt.len pre /\ ~ In year pre
  | None => ~ In year (Category_Index yrDim)
  end.
Proof.
  unfold matchYear.
  destruct (matchYearFrom year 0 (Category_Index yrDim)) as [j |] eqn:Hm.
  - destruct (matchYearFrom_some _ _ _ _ Hm) as (pre & post & Hidx & Hj & Hnot).
    exists pre, post. repeat split; [exact Hidx | lia | exact Hnot].
  - apply (matchYearFrom_none year _ 0). exact Hm.
Qed.

Section RegionLoop.
Context `{GoTables}.

(** The equality test of the loop is subsumed by the containment test. *)
Lemma matchRegionFrom_test (target : string) (d : DimensionT) (code : string) :
  (String.eqb (normalize (labelOf d code)) target
   || Strings.Contains (normalize (labelOf d code)) target)
  = regionMatches target d code.
Proof.
  unfold regionMatches.
  destruct (String.eqb_spec (normalize (labelOf d code)) target) as [<- | _];
    [| reflexivity].
  rewrite Contains_self. reflexivity.
Qed.

Lemma matchRegionFrom_some (target : string) (d : DimensionT) (codes : list string)
    (start i : Z) (lbl : string) :
  matchRegionFrom target d start codes = Some (i, lbl) ->
  exists pre code post,
    codes = (pre ++ code :: post)%list /\ i = start + GoInt.len pre
    /\ lbl = labelOf d code
    /\ regionMatches target d code = true
    /\ Forall (fun c => regionMatches target d c = false) pre.
Proof.
  revert start. induction codes as [| code rest IH]; intros start Hm; [discriminate |].
  cbn [matchRegionFrom] in Hm. cbv zeta in Hm. rewrite matchRegionFrom_test in Hm.
  destruct (regionMatches target d code) eqn:Hc.
  - injection Hm as <- <-. exists [], code, rest. rewrite len_nil.
    repeat split; [lia | exact Hc | constructor].
  - destruct (IH _ Hm) as (pre & c & post & -> & -> & -> & Hc' & Hpre).
    exists (code :: pre), c, post. rewrite len_cons.
    repeat split; [lia | exact Hc' | constructor; assumption].
Qed.

Lemma matchRegionFrom_none (target : string) (d : DimensionT) (codes : list string)
    (start : Z) :
  matchRegionFrom target d start codes = None
  <-> Forall (fun c => regionMatches target d c = false) codes.
Proof.
  revert start. induction codes as [| code rest IH]; intros start.
  - cbn. split; [constructor | reflexivity].
  - cbn [matchRegionFrom]. cbv zeta. rewrite matchRegionFrom_test.
    destruct (regionMatches target d code) eqn:Hc.
    + split; [discriminate |]. intros Hall. inversion Hall; congruence.
    + rewrite IH. split.
      * intros Hall. constructor; assumption.
      * intros Hall. inversion Hall; assumption.
Qed.

(** X2: the region loop returns the first category whose normalized
    label contains the normalized division, with its position and its
    label as stored; it finds nothing exactly when no label contains
    it.  The loop's equality test adds nothing to the containment test. *)
Theorem matchRegion_first_containing (division : string) (regDim : DimensionT) :
  match matchRegion division regDim with
  | Some (i, lbl) =>
      exists pre code post,
        Category_Index regDim = (pre ++ code :: post)%list
        /\ i = GoInt.len pre
        /\ lbl = labelOf regDim code
        /\ regionMatches (normalize division) regDim code = true
        /\ Forall (fun c => regionMatches (normalize division) regDim c = false) pre
  | None =>
      Forall (fun c => regionMatches (normalize division) regDim c = false)
             (Category_Index regDim)
  end.
Proof.
  unfold matchRegion.
  destruct (matchRegionFrom (normalize division) regDim 0 (Category_Index regDim))
    as [[i lbl] |] eqn:Hm.
  - destruct (matchRegionFrom_some _ _ _ _ _ _ Hm)
      as (pre & code & post & Hidx & Hi & Hl & Hc & Hpre).
    exists pre, code, post. repeat split; [exact Hidx | lia | exact Hl | exact Hc | exact Hpre].
  - apply (matchRegionFrom_none _ _ _ 0). exact Hm.
Qed.

(** X3: a division whose name normalizes to the empty string (an empty
    [Division] attribute, or the bare word "Division") is contained in
    every label, so it is matched with the first region of the cube. *)
Theorem matchRegion_blank_division (division : string) (regDim : DimensionT)
    (code : string) (rest : list string) :
  normalize division = EmptyString ->
  Category_Index regDim = code :: rest ->
  matchRegion division regDim = Some (0, labelOf regDim code).
Proof.
  intros Hnorm Hidx. unfold matchRegion. rewrite Hnorm, Hidx.
  cbn [matchRegionFrom]. cbv zeta. rewrite matchRegionFrom_test.
  unfold regionMatches. rewrite Contains_empty. reflexivity.
Qed.

End RegionLoop.

Lemma matchRegion_blank_division_witness :
  let regDim := cubeDim "Garda Division"
                  [ ("r0", "Alpha Division"); ("r1", "Beta Division") ] in
  @normalize plainTables "Division" = EmptyString
  /\ @matchRegion plainTables "Division" regDim = Some (0, "Alpha Division"%string).
Proof.
  intros regDim. split; [vm_compute; reflexivity |].
  rewrite (@matchRegion_blank_division plainTables "Division" regDim "r0" ["r1"%string]
             ltac:(vm_compute; reflexivity) eq_refl).
  vm_compute. reflexivity.
Defined.

(** ** The resolution of the dimension keys *)

Lemma enumerates_In {V} (m : gmap string V) (ks : list string) (k : string) :
  enumerates m ks -> In k ks -> is_Some (m !! k).
Proof.
  unfold enumerates. intros Hperm Hin.
  apply list_elem_of_In in Hin. rewrite Hperm in Hin.
  apply list_elem_of_fmap in Hin. destruct Hin as [[k' v] [-> Hin]].
  apply elem_of_map_to_list in Hin. cbn. eauto.
Qed.

Lemma enumerates_length {V} (m : gmap string V) (ks : list string) :
  enumerates m ks -> length ks = size m.
Proof.
  unfold enumerates. intros Hperm.
  rewrite (Permutation_length Hperm), List.length_map. apply length_map_to_list.
Qed.

Lemma enumerates_perm {V} (m : gmap string V) (ks1 ks2 : list string) :
  enumerates m ks1 -> enumerates m ks2 -> ks2 ≡ₚ ks1.
Proof. unfold enumerates. intros H1 H2. rewrite H1, H2. reflexivity. Qed.

Lemma filter_perm {A} (p : A -> bool) (l1 l2 : list A) :
  l1 ≡ₚ l2 -> List.filter p l1 ≡ₚ List.filter p l2.
Proof.
  induction 1 as [| x l1 l2 _ IH | x y l | l1 l2 l3 _ IH1 _ IH2]; cbn [List.filter].
  - reflexivity.
  - destruct (p x); [constructor |]; exact IH.
  - destruct (p x), (p y); try reflexivity. apply perm_swap.
  - etransitivity; eassumption.
Qed.

Lemma filter_nil_and {A} (p q : A -> bool) (l : list A) :
  List.filter p l = [] -> List.filter (fun x => q x && p x) l = [].
Proof.
  induction l as [| x l IH]; [reflexivity |]. cbn [List.filter].
  destruct (p x); [discriminate |]. rewrite andb_false_r. exact IH.
Qed.

Lemma filter_singleton_and {A} (p q : A -> bool) (l : list A) (k : A) :
  List.filter p l = [k] -> q k = true ->
  List.filter (fun x => q x && p x) l = [k].
Proof.
  intros Hf Hq. induction l as [| x l IH]; [discriminate |].
  cbn [List.filter] in *. destruct (p x).
  - injection Hf as -> Hrest. rewrite Hq. cbn [andb].
    rewrite (filter_nil_and _ _ _ Hrest). reflexivity.
  - rewrite andb_false_r. apply IH. exact Hf.
Qed.

Section KeyResolution.
Context `{GoTables}.

(** What a key is after the pass by label: unchanged when it was set,
    else the first non-empty key accepted. *)
Lemma keysByLabel_from (px : PxStatResp) (order : list string) (r y : string) :
  fold_left
    (fun '(regionKey, yearKey) k =>
       match Dimension px !! k with
       | None => (regionKey, yearKey)
       | Some v =>
           let l := Strings.ToLower (Label v) in
           let regionKey :=
             if Strings.isEmpty regionKey && labelIsRegion l then k else regionKey in
           let yearKey :=
             if Strings.isEmpty yearKey && labelIsYear l then k else yearKey in
           (regionKey, yearKey)
       end)
    order (r, y)
  = (if Strings.isEmpty r
     then hd EmptyString
            (List.filter (fun k => negb (Strings.isEmpty k) && hasRegionLabel px k) order)
     else r,
     if Strings.isEmpty y
     then hd EmptyString
            (List.filter (fun k => negb (Strings.isEmpty k) && hasYearLabel px k) order)
     else y).
Proof.
  revert r y. induction order as [| k rest IH]; intros r y.
  - cbn. destruct r, y; reflexivity.
  - cbn [fold_left List.filter]. unfold hasRegionLabel at 1, hasYearLabel at 1.
    destruct (Dimension px !! k) as [v |] eqn:Hk.
    + cbv zeta. rewrite IH.
      destruct (labelIsRegion (Strings.ToLower (Label v))),
               (labelIsYear (Strings.ToLower (Label v))),
               r, y, k; reflexivity.
    + rewrite IH. rewrite !andb_false_r. reflexivity.
Qed.

Lemma keysByLabel_spec (px : PxStatResp) (order : list string) :
  keysByLabel (Dimension px) order =
    (hd EmptyString
        (List.filter (fun k => negb (Strings.isEmpty k) && hasRegionLabel px k) order),
     hd EmptyString
        (List.filter (fun k => negb (Strings.isEmpty k) && hasYearLabel px k) order)).
Proof. unfold keysByLabel. rewrite keysByLabel_from. reflexivity. Qed.

(** A key is usable when it is unset or names a dimension. *)
Lemma hd_filter_known (px : PxStatResp) (p : string -> bool) (order : list string) :
  (forall k, p k = true -> is_Some (Dimension px !! k)) ->
  let k := hd EmptyString (List.filter p order) in
  k = EmptyString \/ is_Some (Dimension px !! k).
Proof.
  intros Hp. cbv zeta.
  destruct (List.filter p order) as [| k l] eqn:Hf; [left; reflexivity |].
  right. cbn [hd]. apply Hp.
  assert (Hin : In k (List.filter p order)) by (rewrite Hf; left; reflexivity).
  apply List.filter_In in Hin. tauto.
Qed.

Lemma hasRegionLabel_known (px : PxStatResp) (k : string) :
  hasRegionLabel px k = true -> is_Some (Dimension px !! k).
Proof. unfold hasRegionLabel. destruct (Dimension px !! k); [eauto | discriminate]. Qed.

Lemma hasYearLabel_known (px : PxStatResp) (k : string) :
  hasYearLabel px k = true -> is_Some (Dimension px !! k).
Proof. unfold hasYearLabel. destruct (Dimension px !! k); [eauto | discriminate]. Qed.

Lemma firstKey_known (px : PxStatResp) (p : string -> bool) (order : list string)
    (key : string) :
  enumerates (Dimension px) order ->
  key = EmptyString \/ is_Some (Dimension px !! key) ->
  firstKey p order key = EmptyString
  \/ is_Some (Dimension px !! firstKey p order key).
Proof.
  intros Henum Hkey. unfold firstKey.
  destruct (List.find p order) as [k |] eqn:Hfind; [| exact Hkey].
  right. apply List.find_some in Hfind.
  apply (enumerates_In _ _ _ Henum). tauto.
Qed.

Lemma resolveKeys_known (px : PxStatResp) (o : RangeOrders) (rk yk : string) :
  valid_orders px o -> (2 <= size (Dimension px))%nat ->
  resolveKeys px o = (rk, yk) ->
  is_Some (Dimension px !! rk) /\ is_Some (Dimension px !! yk).
Proof.
  intros (Hlabel & Hregion & Hyear & Hkeys & _) Hsize.
  unfold resolveKeys. rewrite keysByLabel_spec.
  pose proof (hd_filter_known px
                (fun k => negb (Strings.isEmpty k) && hasRegionLabel px k) (ord_label o))
    as Hr0.
  pose proof (hd_filter_known px
                (fun k => negb (Strings.isEmpty k) && hasYearLabel px k) (ord_label o))
    as Hy0.
  cbv zeta in Hr0, Hy0.
  set (r0 := hd EmptyString (List.filter _ (ord_label o))) in *.
  set (y0 := hd EmptyString
               (List.filter (fun k => negb (Strings.isEmpty k) && hasYearLabel px k)
                            (ord_label o))) in *.
  assert (Hr0' : r0 = EmptyString \/ is_Some (Dimension px !! r0)).
  { apply Hr0. intros k Hk. apply andb_prop in Hk. apply hasRegionLabel_known, Hk. }
  assert (Hy0' : y0 = EmptyString \/ is_Some (Dimension px !! y0)).
  { apply Hy0. intros k Hk. apply andb_prop in Hk. apply hasYearLabel_known, Hk. }
  clearbody r0 y0. clear Hr0 Hy0.
  set (r1 := if Strings.isEmpty r0 then firstKey keyIsRegion (ord_region o) r0 else r0).
  set (y1 := if Strings.isEmpty y0 then firstKey keyIsYear (ord_year o) y0 else y0).
  assert (Hr1 : r1 = EmptyString \/ is_Some (Dimension px !! r1)).
  { subst r1. destruct (Strings.isEmpty r0); [| exact Hr0'].
    apply firstKey_known; assumption. }
  assert (Hy1 : y1 = EmptyString \/ is_Some (Dimension px !! y1)).
  { subst y1. destruct (Strings.isEmpty y0); [| exact Hy0'].
    apply firstKey_known; assumption. }
  clearbody r1 y1.
  pose proof (enumerates_length _ _ Hkeys) as Hlen.
  assert (Hlen2 : (2 <=? GoInt.len (ord_keys o)) = true).
  { apply Z.leb_le. unfold GoInt.len. lia. }
  assert (Hnth0 : is_Some (Dimension px !! nth 0 (ord_keys o) EmptyString)).
  { apply (enumerates_In _ _ _ Hkeys). apply nth_In. lia. }
  assert (Hnth1 : is_Some (Dimension px !! nth 1 (ord_keys o) EmptyString)).
  { apply (enumerates_In _ _ _ Hkeys). apply nth_In. lia. }
  rewrite Hlen2.
  destruct r1 as [| c1 r1], y1 as [| c2 y1]; cbn [Strings.isEmpty orb];
    intros Heq; injection Heq as <- <-; split;
    first [ assumption
          | match goal with
            | Hk : _ = EmptyString \/ is_Some _ |- _ =>
                destruct Hk as [Hk | Hk]; [discriminate Hk | exact Hk]
            end ].
Qed.

(** X4: with two or more dimensions the key resolution always ends on
    keys of the cube, whatever the labels, the keys and the enumeration
    orders are: [fetchStats] never fails for missing dimensions. *)
Theorem statsOfCube_dimensions_found (px : PxStatResp) (o : RangeOrders)
    (division year : string) :
  valid_orders px o -> (2 <= size (Dimension px))%nat ->
  forall (regionKey yearKey : string) (all : list string),
    statsOfCube px o division year <> Err (ErrDimensions regionKey yearKey all).
Proof.
  intros Hvalid Hsize regionKey yearKey all.
  unfold statsOfCube.
  destruct (Z.eqb_spec (Z.of_nat (size (Dimension px))) 0) as [Hz | _]; [lia |].
  destruct (resolveKeys px o) as [rk yk] eqn:Hkeys.
  destruct (resolveKeys_known px o rk yk Hvalid Hsize Hkeys) as [[rd Hrd] [yd Hyd]].
  rewrite Hrd, Hyd.
  destruct (matchRegion division rd) as [[i lbl] |]; [| discriminate].
  destruct (matchYear year yd) as [j |]; [| discriminate].
  unfold extractTotal. cbv zeta.
  repeat match goal with
         | |- context [if ?c then _ else _] => destruct c
         end; discriminate.
Qed.

Lemma singleton_key (l : list string) (k : string) (p : string -> bool) :
  List.filter p l = [k] -> p k = true.
Proof.
  intros Hf.
  assert (Hin : In k (List.filter p l)) by (rewrite Hf; left; reflexivity).
  apply List.filter_In in Hin. tauto.
Qed.

Lemma resolveKeys_labelled (px : PxStatResp) (o : RangeOrders) (rk yk : string) :
  List.filter (hasRegionLabel px) (ord_label o) = [rk] ->
  List.filter (hasYearLabel px) (ord_label o) = [yk] ->
  rk <> EmptyString -> yk <> EmptyString ->
  resolveKeys px o = (rk, yk).
Proof.
  intros Hr Hy Hrk Hyk. unfold resolveKeys. rewrite keysByLabel_spec.
  rewrite (filter_singleton_and _ (fun k => negb (Strings.isEmpty k)) _ _ Hr)
    by (destruct rk; [congruence | reflexivity]).
  rewrite (filter_singleton_and _ (fun k => negb (Strings.isEmpty k)) _ _ Hy)
    by (destruct yk; [congruence | reflexivity]).
  cbn [hd]. destruct rk; [congruence |]. destruct yk; [congruence |]. reflexivity.
Qed.

(** X5: when exactly one dimension has a label that names a region and
    exactly one a label that names a year, the keys are resolved by
    label alone, and the outcome of [fetchStats] is the same for every
    order in which the map is enumerated. *)
Theorem statsOfCube_order_independent (px : PxStatResp) (o1 o2 : RangeOrders)
    (division year rk yk : string) :
  valid_orders px o1 -> valid_orders px o2 ->
  List.filter (hasRegionLabel px) (ord_label o1) = [rk] ->
  List.filter (hasYearLabel px) (ord_label o1) = [yk] ->
  rk <> EmptyString -> yk <> EmptyString ->
  resolveKeys px o2 = (rk, yk)
  /\ statsOfCube px o2 division year = statsOfCube px o1 division year.
Proof.
  intros (Hl1 & _) (Hl2 & _) Hr Hy Hrk Hyk.
  pose proof (enumerates_perm _ _ _ Hl1 Hl2) as Hperm.
  assert (Hr2 : List.filter (hasRegionLabel px) (ord_label o2) = [rk]).
  { apply Permutation_singleton_r. rewrite <- Hr. apply filter_perm, Hperm. }
  assert (Hy2 : List.filter (hasYearLabel px) (ord_label o2) = [yk]).
  { apply Permutation_singleton_r. rewrite <- Hy. apply filter_perm, Hperm. }
  pose proof (resolveKeys_labelled px o1 rk yk Hr Hy Hrk Hyk) as Hk1.
  pose proof (resolveKeys_labelled px o2 rk yk Hr2 Hy2 Hrk Hyk) as Hk2.
  split; [exact Hk2 |].
  destruct (hasRegionLabel_known px rk (singleton_key _ _ _ Hr)) as [rd Hrd].
  destruct (hasYearLabel_known px yk (singleton_key _ _ _ Hy)) as [yd Hyd].
  unfold statsOfCube. rewrite Hk1, Hk2, Hrd, Hyd. reflexivity.
Qed.

End KeyResolution.

Lemma reversedOrders_valid (values : list float64) :
  valid_orders (sampleCube values) reversedOrders.
Proof.
  unfold valid_orders, enumerates. rewrite sampleCube_keys.
  unfold reversedOrders. cbn [ord_label ord_region ord_year ord_keys ord_all].
  repeat split; first [reflexivity | apply perm_swap].
Qed.

Lemma statsOfCube_dimensions_found_witness :
  let px := sampleCube (floats [10; 20; 30; 40; 50; 60]) in
  valid_orders px sampleOrders
  /\ (2 <= size (Dimension px))%nat
  /\ @statsOfCube plainTables px sampleOrders "Delta" "2024"
       <> Err (ErrDimensions "" "" []).
Proof.
  intros px. split; [apply sampleOrders_valid |].
  split; [vm_compute; lia |].
  apply (@statsOfCube_dimensions_found plainTables px sampleOrders "Delta" "2024"
           (sampleOrders_valid _) ltac:(vm_compute; lia)).
Defined.

Lemma statsOfCube_order_independent_witness :
  let px := sampleCube (floats [10; 20; 30; 40; 50; 60]) in
  @resolveKeys plainTables px reversedOrders = ("C03", "TLIST(A1)")%string
  /\ @statsOfCube plainTables px reversedOrders "Beta" "2024"
     = @statsOfCube plainTables px sampleOrders "Beta" "2024".
Proof.
  intros px.
  apply (@statsOfCube_order_independent plainTables px sampleOrders reversedOrders
           "Beta" "2024" "C03" "TLIST(A1)"
           (sampleOrders_valid _) (reversedOrders_valid _)
           ltac:(vm_compute; reflexivity) ltac:(vm_compute; reflexivity)
           ltac:(discriminate) ltac:(discriminate)).
Defined.

(** ** float64: exactness of rounding *)

Lemma rne_proper (x y : Q) : (x == y)%Q -> F64.rne x = F64.rne y.
Proof.
  intros Heq. unfold F64.rne.
  rewrite (Qfloor_comp _ _ Heq).
  replace (x - inject_Z (Qfloor y) ?= 1 # 2)%Q
    with (y - inject_Z (Qfloor y) ?= 1 # 2)%Q; [reflexivity |].
  apply Qcompare_comp; [| reflexivity]. rewrite Heq. reflexivity.
Qed.

Lemma rne_int (z : Z) : F64.rne (inject_Z z) = z.
Proof.
  unfold F64.rne. rewrite Qfloor_Z.
  replace (inject_Z z - inject_Z z ?= 1 # 2)%Q with Lt; [reflexivity |].
  symmetry. apply Qlt_alt.
  assert (Hz : (inject_Z z - inject_Z z == 0)%Q) by ring.
  rewrite Hz. reflexivity.
Qed.

Lemma round_units_proper (x y : Q) :
  (x == y)%Q -> F64.round_units x = F64.round_units y.
Proof.
  intros Heq. unfold F64.round_units, F64.shift_of.
  rewrite (Qfloor_comp _ _ Heq).
  f_equal. apply rne_proper. rewrite Heq. reflexivity.
Qed.

Lemma Qneg_proper (x y : Q) : (x == y)%Q -> F64.Qneg x = F64.Qneg y.
Proof.
  intros Heq.
  destruct (F64.Qneg x) eqn:Hx, (F64.Qneg y) eqn:Hy; try reflexivity.
  - apply Qneg_true in Hx. apply Qneg_false in Hy. rewrite Heq in Hx. lra.
  - apply Qneg_false in Hx. apply Qneg_true in Hy. rewrite Heq in Hx. lra.
Qed.

Lemma magnitude_proper (x y : Q) : (x == y)%Q -> magnitude x = magnitude y.
Proof.
  intros Heq. unfold magnitude. apply round_units_proper. rewrite Heq. reflexivity.
Qed.

(** The result of an operation depends on the value of its exact
    result only, not on the fraction that denotes it. *)
Lemma round64_proper (x y : Q) : (x == y)%Q -> F64.round64 x = F64.round64 y.
Proof.
  intros Heq. rewrite !round64_unfold.
  rewrite (magnitude_proper _ _ Heq), (Qneg_proper _ _ Heq). reflexivity.
Qed.

Lemma round_units_int (m e : Z) :
  0 <= m < 2 ^ 53 -> 0 <= e ->
  F64.round_units (inject_Z (m * 2 ^ e)) = m * 2 ^ e.
Proof.
  intros Hm He. unfold F64.round_units.
  set (s := F64.shift_of (inject_Z (m * 2 ^ e))).
  assert (Hs : 0 <= s <= e).
  { subst s. unfold F64.shift_of. rewrite Qfloor_Z.
    destruct (Z.eq_dec m 0) as [-> | Hne].
    - rewrite Z.mul_0_l. cbn. lia.
    - rewrite Z.log2_mul_pow2 by lia.
      assert (Z.log2 m < 53) by (apply Z.log2_lt_pow2; lia). lia. }
  clearbody s.
  assert (Hsplit : m * 2 ^ e = m * 2 ^ (e - s) * 2 ^ s).
  { rewrite <- Z.mul_assoc, <- Z.pow_add_r by lia. do 2 f_equal. lia. }
  rewrite (rne_proper _ (inject_Z (m * 2 ^ (e - s)))).
  - rewrite rne_int. symmetry. exact Hsplit.
  - rewrite Hsplit at 1. rewrite inject_Z_mult.
    pose proof (inject_pow2_pos s ltac:(lia)) as Hpos.
    field. lra.
Qed.

Lemma Qred_inject_Z (z : Z) : Qred (inject_Z z) = inject_Z z.
Proof.
  unfold Qred, inject_Z.
  pose proof (Z.ggcd_gcd z 1) as Hg.
  pose proof (Z.ggcd_correct_divisors z 1) as Hd.
  destruct (Z.ggcd z 1) as [g [aa bb]]. cbn [fst snd] in *.
  rewrite Z.gcd_1_r in Hg. subst g. destruct Hd as [Ha Hb].
  rewrite Z.mul_1_l in Ha, Hb. subst aa bb. reflexivity.
Qed.

(** An integer below 2^53 in absolute value is a float64 value:
    rounding leaves it as it is. *)
Lemma round64_int (n : Z) :
  Z.abs n < 2 ^ 53 -> F64.round64 (inject_Z n) = F_fin (inject_Z n).
Proof.
  intros Hn. rewrite round64_unfold.
  assert (Hmag : magnitude (inject_Z n) = Z.abs n * 2 ^ 1074).
  { unfold magnitude, F64.units_per_one.
    rewrite (round_units_proper _ (inject_Z (Z.abs n * 2 ^ 1074))).
    - apply round_units_int; lia.
    - rewrite inject_Z_mult. apply Qmult_comp; [| reflexivity].
      unfold Qabs, inject_Z. reflexivity. }
  rewrite Hmag.
  assert (Hu : 0 < 2 ^ 1074) by (apply pow2_pos; lia).
  replace (F64.overflow_units <=? Z.abs n * 2 ^ 1074) with false.
  - f_equal. etransitivity; [| apply Qred_inject_Z]. apply Qred_complete.
    unfold F64.units_per_one.
    assert (Hsign : (if F64.Qneg (inject_Z n) then - (Z.abs n * 2 ^ 1074)
                     else Z.abs n * 2 ^ 1074) = n * 2 ^ 1074).
    { unfold F64.Qneg, inject_Z. cbn [Qnum].
      destruct (Z.ltb_spec n 0); [rewrite Z.abs_neq by lia | rewrite Z.abs_eq by lia];
        ring. }
    rewrite Hsign, inject_Z_mult.
    pose proof (inject_pow2_pos 1074 ltac:(lia)) as Hpos.
    field. lra.
  - symmetry. apply Z.leb_gt. unfold F64.overflow_units.
    rewrite Z.pow_add_r by lia.
    apply Z.mul_lt_mono_pos_r; [exact Hu |].
    apply Z.lt_le_trans with (2 ^ 53); [exact Hn |].
    apply Z.pow_le_mono_r; lia.
Qed.

Lemma of_Z_exact (n : Z) : Z.abs n < 2 ^ 53 -> F64.of_Z n = F_fin (inject_Z n).
Proof. apply round64_int. Qed.

Lemma round64_zero (q : Q) : (q == 0)%Q -> F64.round64 q = F_fin 0.
Proof.
  intros Hq. rewrite (round64_proper _ (inject_Z 0)) by exact Hq.
  apply round64_int. cbn. lia.
Qed.

(** Rounding never changes the sign. *)
Lemma round64_nonneg (q : Q) :
  (0 <= q)%Q ->
  F64.round64 q = F_inf false
  \/ exists v, F64.round64 q = F_fin v /\ (0 <= v)%Q.
Proof.
  intros Hq. rewrite round64_unfold.
  apply Qneg_false in Hq. rewrite Hq.
  destruct (F64.overflow_units <=? magnitude q); [left; reflexivity |].
  right. eexists. split; [reflexivity |].
  rewrite Qred_correct.
  pose proof (magnitude_nonneg q) as Hm. pose proof units_pos as Hu.
  apply Qle_shift_div_l; [exact Hu |].
  rewrite Qmult_0_l. rewrite <- (Zle_Qle 0). exact Hm.
Qed.

(** ** The number at the start of a price text *)

Lemma take_digits_digits (s : string) :
  Forall (fun c => Strconv.is_digit c = true)
         (list_ascii_of_string (fst (Strconv.take_digits s))).
Proof.
  induction s as [| c s IH]; cbn [Strconv.take_digits]; [constructor |].
  destruct (Strconv.is_digit c) eqn:Hc; [| constructor].
  destruct (Strconv.take_digits s) as [d r]. cbn [fst list_ascii_of_string] in *.
  constructor; assumption.
Qed.

Lemma take_digits_app (d r : string) :
  Forall (fun c => Strconv.is_digit c = true) (list_ascii_of_string d) ->
  (forall c r', r = String c r' -> Strconv.is_digit c = false) ->
  Strconv.take_digits (d ++ r) = (d, r).
Proof.
  intros Hd Hr. induction d as [| c d IH].
  - change (EmptyString ++ r)%string with r.
    destruct r as [| c r']; [reflexivity |].
    cbn [Strconv.take_digits]. rewrite (Hr c r' eq_refl). reflexivity.
  - cbn [list_ascii_of_string] in Hd. inversion Hd as [| ? ? Hc Hd']; subst.
    change (String c d ++ r)%string with (String c (d ++ r)).
    cbn [Strconv.take_digits]. rewrite Hc, (IH Hd'). reflexivity.
Qed.

Lemma take_digits_all (d : string) :
  Forall (fun c => Strconv.is_digit c = true) (list_ascii_of_string d) ->
  Strconv.take_digits d = (d, EmptyString).
Proof.
  intros Hd. induction d as [| c d IH]; [reflexivity |].
  cbn [list_ascii_of_string] in Hd. inversion Hd as [| ? ? Hc Hd']; subst.
  cbn [Strconv.take_digits]. rewrite Hc, (IH Hd'). reflexivity.
Qed.

Lemma digits_value_from (l : list ascii) (acc : Z) :
  Forall (fun c => Strconv.is_digit c = true) l -> 0 <= acc ->
  0 <= fold_left (fun acc c => 10 * acc + (Utf8.byte_of c - 48)) l acc.
Proof.
  intros Hl. revert acc. induction Hl as [| c l Hc _ IH]; intros acc Hacc; [exact Hacc |].
  cbn [fold_left]. apply IH.
  unfold Strconv.is_digit in Hc. apply andb_prop in Hc. lia.
Qed.

Lemma digits_value_nonneg (d : string) :
  Forall (fun c => Strconv.is_digit c = true) (list_ascii_of_string d) ->
  0 <= Strconv.digits_value d.
Proof. intros Hd. unfold Strconv.digits_value. apply digits_value_from; [exact Hd | lia]. Qed.

Lemma plain_decimal_integer (d : string) :
  d <> EmptyString ->
  Forall (fun c => Strconv.is_digit c = true) (list_ascii_of_string d) ->
  exists q, Strconv.plain_decimal d = Some q /\ (0 <= q)%Q.
Proof.
  intros Hne Hd. unfold Strconv.plain_decimal. rewrite (take_digits_all d Hd).
  destruct d; [congruence |]. cbn [Strings.isEmpty].
  eexists. split; [reflexivity |].
  rewrite <- (Zle_Qle 0). apply digits_value_nonneg. exact Hd.
Qed.

Lemma plain_decimal_fraction (d f : string) :
  d <> EmptyString -> f <> EmptyString ->
  Forall (fun c => Strconv.is_digit c = true) (list_ascii_of_string d) ->
  Forall (fun c => Strconv.is_digit c = true) (list_ascii_of_string f) ->
  exists q, Strconv.plain_decimal (d ++ String "." f) = Some q /\ (0 <= q)%Q.
Proof.
  intros Hd0 Hf0 Hd Hf. unfold Strconv.plain_decimal.
  rewrite (take_digits_app d (String "." f) Hd)
    by (intros c r' Heq; injection Heq as <- _; reflexivity).
  destruct d; [congruence |]. cbn [Strings.isEmpty].
  rewrite (take_digits_all f Hf).
  destruct f; [congruence |]. cbn [Strings.isEmpty orb negb].
  eexists. split; [reflexivity |].
  unfold Qle. cbn [Qnum Qden]. rewrite Z.mul_0_l, Z.mul_1_r.
  pose proof (digits_value_nonneg _ Hd). pose proof (digits_value_nonneg _ Hf).
  assert (0 <= 10 ^ Z.of_nat (String.length (String a0 f))) by (apply Z.pow_nonneg; lia).
  nia.
Qed.

(** What the regular expression finds is a plain decimal number. *)
Lemma FindString_plain (s : string) :
  Strconv.FindString_leading_number s <> EmptyString ->
  exists q,
    Strconv.plain_decimal (Strconv.FindString_leading_number s) = Some q
    /\ (0 <= q)%Q.
Proof.
  unfold Strconv.FindString_leading_number.
  pose proof (take_digits_digits s) as Hd.
  destruct (Strconv.take_digits s) as [d r]. cbn [fst] in Hd.
  destruct (Strings.isEmpty d) eqn:Hempty; [congruence |].
  assert (Hd0 : d <> EmptyString) by (apply isEmpty_false; exact Hempty).
  intros Hne.
  destruct r as [| c r']; [apply plain_decimal_integer; assumption |].
  destruct (ascii_dec c ".") as [-> | Hc].
  - pose proof (take_digits_digits r') as Hf.
    destruct (Strconv.take_digits r') as [f r'']. cbn [fst] in Hf.
    destruct (Strings.isEmpty f) eqn:Hfe.
    + apply plain_decimal_integer; assumption.
    + change (d ++ "." ++ f)%string with (d ++ String "." f)%string.
      apply plain_decimal_fraction; try assumption.
      apply isEmpty_false. exact Hfe.
  - replace (match c with
             | "."%char =>
                 let '(f, _) := Strconv.take_digits r' in
                 if Strings.isEmpty f then d else (d ++ "." ++ f)%string
             | _ => d
             end) with d in *
      by (destruct c as [[] [] [] [] [] [] [] []]; first [reflexivity | congruence]).
    apply plain_decimal_integer; assumption.
Qed.

Section PriceValue.
Context `{GoTables}.

(** X6: the price read from a text is always a finite number, zero or
    more: what the regular expression finds is a plain decimal number,
    so neither a sign, an exponent, an infinity nor a NaN can come out
    of [ParseFloat], and a value too large for float64 gives zero. *)
Theorem extractPriceValue_finite (price : string) :
  exists v, extractPriceValue price = F_fin v /\ (0 <= v)%Q.
Proof.
  rewrite extractPriceValue_unfold. cbv zeta.
  destruct (Strings.isEmpty (Strconv.FindString_leading_number (cleanPrice price)))
    eqn:Hempty.
  - exists 0%Q. split; [reflexivity | lra].
  - apply isEmpty_false in Hempty.
    destruct (FindString_plain _ Hempty) as (q & Hq & Hq0).
    unfold Strconv.ParseFloat. rewrite Hq.
    destruct (round64_nonneg q Hq0) as [-> | (v & -> & Hv)].
    + exists 0%Q. split; [reflexivity | lra].
    + exists v. split; [reflexivity | exact Hv].
Qed.

(** ** The price rating *)

Lemma ratingOfDiff_range (d : float64) : 1 <= ratingOfDiff d <= 10.
Proof.
  unfold ratingOfDiff.
  repeat match goal with
         | |- context [if ?c then _ else _] => destruct c
         end; lia.
Qed.

Lemma ratingOfDiff_nan : ratingOfDiff F_nan = 1.
Proof. reflexivity. Qed.

(** X7: whenever the area average is not zero the rating stored is
    between 1 and 10, also when the difference is not a number (an
    infinite average), which is rated 1; with a zero average the rating
    is left as it was. *)
Theorem calculatePriceRating_range (property : PropertyInfo) :
  let v := ValueAnalysis property in
  let rating := PriceRating (ValueAnalysis (calculatePriceRating property)) in
  (if F64.eqb (AreaAveragePrice v) F64.zero
   then rating = PriceRating v
   else 1 <= rating <= 10)
  /\ (AreaAveragePrice v = F_inf false -> rating = 1).
Proof.
  cbv zeta. rewrite calculatePriceRating_spec. cbv zeta. split.
  - destruct (F64.eqb (AreaAveragePrice (ValueAnalysis property)) F64.zero);
      [reflexivity | apply ratingOfDiff_range].
  - intros Hinf. rewrite Hinf. cbn [F64.eqb F64.zero].
    rewrite priceDiff_inf_avg. reflexivity.
Qed.

Lemma eqb_zero_false (x : Q) : ~ (x == 0)%Q -> F64.eqb (F_fin x) F64.zero = false.
Proof.
  intros Hx. cbn [F64.eqb F64.zero].
  destruct (Qeq_bool x 0) eqn:Hb; [| reflexivity].
  apply Qeq_bool_eq in Hb. contradiction.
Qed.

Lemma div_self (x : Q) : ~ (x == 0)%Q -> F64.div (F_fin x) (F_fin x) = F_fin 1.
Proof.
  intros Hx. unfold F64.div.
  destruct (Qeq_bool x 0) eqn:Hb; [apply Qeq_bool_eq in Hb; contradiction |].
  rewrite (round64_proper _ (inject_Z 1)); [apply round64_int; cbn; lia |].
  field. exact Hx.
Qed.

Lemma priceDiff_same (x : Q) : ~ (x == 0)%Q -> priceDiff (F_fin x) (F_fin x) = F_fin 0.
Proof.
  intros Hx. unfold priceDiff.
  assert (Hsub : F64.sub (F_fin x) (F_fin x) = F_fin 0).
  { unfold F64.sub. apply round64_zero. ring. }
  rewrite Hsub. unfold F64.div.
  destruct (Qeq_bool x 0) eqn:Hb; [apply Qeq_bool_eq in Hb; contradiction |].
  rewrite (round64_zero (0 / x)) by (field; exact Hx).
  rewrite lit_100. unfold F64.mul. apply round64_zero. ring.
Qed.

Lemma priceDiff_free (x : Q) :
  ~ (x == 0)%Q -> F64.round64 x = F_fin x ->
  priceDiff (F_fin x) F64.zero = F_fin 100.
Proof.
  intros Hx Hrep. unfold priceDiff, F64.zero.
  assert (Hsub : F64.sub (F_fin x) (F_fin 0) = F_fin x).
  { unfold F64.sub. rewrite <- Hrep. apply round64_proper. ring. }
  rewrite Hsub, (div_self x Hx), lit_100. unfold F64.mul.
  rewrite (round64_proper _ (inject_Z 100)) by ring.
  apply round64_int. cbn. lia.
Qed.

Lemma ratingOfDiff_0 : ratingOfDiff (F_fin 0) = 6.
Proof.
  unfold ratingOfDiff.
  destruct lit_thresholds as (-> & -> & -> & -> & -> & _).
  reflexivity.
Qed.

Lemma ratingOfDiff_100 : ratingOfDiff (F_fin 100) = 10.
Proof.
  unfold ratingOfDiff.
  destruct lit_thresholds as (-> & _).
  reflexivity.
Qed.

(** X8: two fixed points of the rating.  A rent equal to the area
    average is rated 6.  A rent text without a number is read as the
    price 0, which lies 100 per cent below any average that is a
    non-zero float64 value: it is rated 10. *)
Theorem calculatePriceRating_anchors (property : PropertyInfo) (x : Q) :
  AreaAveragePrice (ValueAnalysis property) = F_fin x ->
  ~ (x == 0)%Q ->
  F64.round64 x = F_fin x ->
  let rating := PriceRating (ValueAnalysis (calculatePriceRating property)) in
  (extractPriceValue (RentPrice property) = F_fin x -> rating = 6)
  /\ (extractPriceValue (RentPrice property) = F64.zero -> rating = 10).
Proof.
  intros Havg Hx Hrep. cbv zeta.
  rewrite calculatePriceRating_spec. cbv zeta.
  rewrite Havg, (eqb_zero_false x Hx). split; intros ->.
  - rewrite (priceDiff_same x Hx). apply ratingOfDiff_0.
  - rewrite (priceDiff_free x Hx Hrep). apply ratingOfDiff_100.
Qed.

End PriceValue.

Lemma calculatePriceRating_anchors_witness :
  @extractPriceValue plainTables "POA" = F64.zero
  /\ PriceRating
       (ValueAnalysis
          (@calculatePriceRating plainTables (pricedProperty "POA" (F_fin 1000)))) = 10.
Proof.
  split; [vm_compute; reflexivity |].
  apply (@calculatePriceRating_anchors plainTables
           (pricedProperty "POA" (F_fin 1000)) 1000 eq_refl
           ltac:(discriminate) ltac:(vm_compute; reflexivity)).
  vm_compute. reflexivity.
Defined.

(** ** The listings of the search page *)

Lemma onNextData_spec (similar : list SimilarProperty.t)
    (script : option (list Advert)) :
  onNextData similar script = (similar ++ advertsOf script)%list.
Proof.
  destruct script as [adverts |]; cbn [onNextData advertsOf];
    [| rewrite app_nil_r; reflexivity].
  revert similar. induction adverts as [| ad adverts IH]; intros similar.
  - cbn. rewrite app_nil_r. reflexivity.
  - cbn [fold_left List.filter]. cbv zeta. fold (advertPrice ad).
    destruct (advertPrice ad =? 0); cbn [negb].
    + apply IH.
    + rewrite IH. cbn [List.map]. rewrite <- app_assoc. reflexivity.
Qed.

Lemma fold_onNextData (scripts : list (option (list Advert)))
    (similar : list SimilarProperty.t) :
  fold_left onNextData scripts similar
    = (similar ++ flat_map advertsOf scripts)%list.
Proof.
  revert similar. induction scripts as [| script scripts IH]; intros similar.
  - cbn. rewrite app_nil_r. reflexivity.
  - cbn [fold_left flat_map]. rewrite IH, onNextData_spec, <- app_assoc. reflexivity.
Qed.

Section Listings.
Context `{GoTables}.

(** X9: what [findSimilarProperties] stores, for any page: the first
    five of the listings the record had, then the adverts of the
    [__NEXT_DATA__] scripts that have a price (the monthly one, else the
    weekly one), then the result items kept.  The cut is made once, at
    the end: five adverts leave no room for any result item. *)
Theorem findSimilarProperties_listing (property : PropertyInfo)
    (visit : ListingSearch) (url : string)
    (scripts : list (option (list Advert))) (items : list ResultItem) :
  searchURL property = Ok url ->
  visit url = Visited scripts items ->
  exists p,
    findSimilarProperties property visit = Ok p
    /\ Similar (ValueAnalysis p)
         = firstn 5
             (Similar (ValueAnalysis property)
                ++ flat_map advertsOf scripts
                ++ List.map listingOf (List.filter keepable items))%list
    /\ (length (Similar (ValueAnalysis p)) <= 5)%nat
    /\ ((5 <= length (Similar (ValueAnalysis property)
                        ++ flat_map advertsOf scripts)%list)%nat ->
        Similar (ValueAnalysis p)
          = firstn 5 (Similar (ValueAnalysis property)
                        ++ flat_map advertsOf scripts)%list).
Proof.
  intros Hurl Hvisit.
  destruct (findSimilarProperties_kept property visit url scripts items Hurl Hvisit)
    as (p & Hp & Hsim).
  exists p. rewrite fold_onNextData, <- app_assoc in Hsim.
  split; [exact Hp |]. split; [exact Hsim |]. split.
  - rewrite Hsim. apply firstn_length_le5.
  - intros Hlen. rewrite Hsim, app_assoc.
    rewrite firstn_app.
    replace (5 - length (Similar (ValueAnalysis property)
                           ++ flat_map advertsOf scripts)%list)%nat with 0%nat by lia.
    cbn [firstn]. apply app_nil_r.
Qed.

(** ** The area average *)

Lemma average_fold_filter (l : list SimilarProperty.t) (acc : float64 * Z) :
  fold_left
    (fun '(total, count) similar =>
       if F64.gtb (SimilarProperty.Price similar) F64.zero
       then (F64.add total (SimilarProperty.Price similar), GoInt.add count 1)
       else (total, count))
    (List.filter positivePrice l) acc
  = fold_left
      (fun '(total, count) similar =>
         if F64.gtb (SimilarProperty.Price similar) F64.zero
         then (F64.add total (SimilarProperty.Price similar), GoInt.add count 1)
         else (total, count))
      l acc.
Proof.
  revert acc. induction l as [| s l IH]; intros [total count]; [reflexivity |].
  cbn [List.filter fold_left]. unfold positivePrice at 1.
  destruct (F64.gtb (SimilarProperty.Price s) F64.zero) eqn:Hs.
  - cbn [fold_left]. rewrite Hs. apply IH.
  - apply IH.
Qed.

Lemma len_zero_nil {A} (l : list A) : (GoInt.len l =? 0) = true -> l = [].
Proof.
  destruct l; [reflexivity |]. rewrite len_cons. intros Hz.
  apply Z.eqb_eq in Hz. pose proof (len_nonneg l). lia.
Qed.

(** X10: the area average is taken over the listings with a price above
    zero, and only over them: a listing whose price is zero, negative or
    not a number changes neither the sum nor the count, and a list
    without any listing above zero leaves the average as it was. *)
Theorem calculateAreaAveragePrice_positive_only (property : PropertyInfo) :
  let l := Similar (ValueAnalysis property) in
  AreaAveragePrice (ValueAnalysis (calculateAreaAveragePrice property))
    = AreaAveragePrice
        (ValueAnalysis
           (calculateAreaAveragePrice
              (withSimilar property (List.filter positivePrice l))))
  /\ (List.filter positivePrice l = [] ->
      calculateAreaAveragePrice property = property).
Proof.
  cbv zeta.
  assert (Hnone : List.filter positivePrice (Similar (ValueAnalysis property)) = [] ->
                  calculateAreaAveragePrice property = property).
  { intros Hnil. unfold calculateAreaAveragePrice. cbv zeta.
    destruct (GoInt.len (Similar (ValueAnalysis property)) =? 0); [reflexivity |].
    rewrite <- average_fold_filter, Hnil. cbn [fold_left].
    reflexivity. }
  split; [| exact Hnone].
  destruct (List.filter positivePrice (Similar (ValueAnalysis property)))
    as [| s0 l0] eqn:Hf.
  - rewrite (Hnone eq_refl). reflexivity.
  - unfold calculateAreaAveragePrice at 2. cbv zeta.
    unfold withSimilar.
    cbn [ValueAnalysis with_ValueAnalysis Similar set_Similar].
    rewrite len_cons.
    replace (1 + GoInt.len l0 =? 0) with false
      by (symmetry; apply Z.eqb_neq; pose proof (len_nonneg l0); lia).
    unfold calculateAreaAveragePrice. cbv zeta.
    destruct (GoInt.len (Similar (ValueAnalysis property)) =? 0) eqn:Hlen.
    + apply len_zero_nil in Hlen. rewrite Hlen in Hf. discriminate Hf.
    + rewrite <- Hf, average_fold_filter.
      destruct (fold_left _ (Similar (ValueAnalysis property)) (F64.zero, 0))
        as [total count].
      destruct (count >? 0); reflexivity.
Qed.

End Listings.

Lemma findSimilarProperties_listing_witness :
  let property := listedProperty "12 Main St, Ranelagh, Co. Dublin" "€1,000 per month" in
  let url := "https://www.daft.ie/sharing/ranelagh-dublin?rentalPrice_from=800&rentalPrice_to=1200"%string in
  let ad (n : Z) (path : string) : Advert :=
    {| DisplayAddress := "Ranelagh"; Price_Monthly := 0; Price_Weekly := n;
       AdPath := path |} in
  let visit : ListingSearch :=
    fun _ => Visited [Some [ad 200 "/a1"; ad 0 "/a2"; ad 210 "/a3"];
                      None;
                      Some [ad 220 "/a4"; ad 230 "/a5"; ad 240 "/a6"]] sampleItems in
  exists p,
    findSimilarProperties (H := plainTables) property visit = Ok p
    /\ List.map SimilarProperty.URL (Similar (ValueAnalysis p))
         = [ "https://www.daft.ie/a1"; "https://www.daft.ie/a3";
             "https://www.daft.ie/a4"; "https://www.daft.ie/a5";
             "https://www.daft.ie/a6" ]%string.
Proof.
  intros property url ad visit.
  destruct (@findSimilarProperties_listing plainTables property visit url
              [Some [ad 200 "/a1"%string; ad 0 "/a2"%string; ad 210 "/a3"%string];
               None;
               Some [ad 220 "/a4"%string; ad 230 "/a5"%string; ad 240 "/a6"%string]]
              sampleItems
              ltac:(vm_compute; reflexivity) eq_refl)
    as (p & Hp & _ & _ & Hfive).
  exists p. split; [exact Hp |].
  rewrite Hfive by (vm_compute; lia).
  vm_compute. reflexivity.
Defined.

(** ** The address slug never fails *)

Lemma DecodeRune_width (c : ascii) (rest : string) (r : Z) (n : nat) :
  Utf8.DecodeRune (String c rest) = (r, n) -> (1 <= n <= 4)%nat.
Proof.
  intros Hd. unfold Utf8.DecodeRune in Hd.
  repeat match type of Hd with
         | context [match Utf8.first ?b with _ => _ end] =>
             destruct (Utf8.first b) as [[[? ?] ?] |]
         | context [if ?c then _ else _] => destruct c
         end; injection Hd as <- <-; lia.
Qed.

Lemma range_aux_bytes (s : string) (skip : nat) (off : Z) :
  Forall (fun x => snd x <> EmptyString) (Utf8.range_aux skip off s).
Proof.
  revert skip off. induction s as [| c rest IH]; intros skip off; [constructor |].
  cbn [Utf8.range_aux]. destruct skip as [| k]; [| apply IH].
  destruct (Utf8.DecodeRune (String c rest)) as [r n] eqn:Hd.
  constructor; [| apply IH].
  apply DecodeRune_width in Hd. cbn [snd].
  destruct n as [| n]; [lia |]. cbn [substring]. discriminate.
Qed.

Lemma index_func_aux_found (f : Z -> bool) (cs : list (Z * Z * string)) :
  Strings.index_func_aux f cs <> -1 ->
  Exists (fun x => f (snd (fst x)) = true) cs.
Proof.
  induction cs as [| [[off r] b] cs IH]; cbn [Strings.index_func_aux]; [congruence |].
  destruct (f r) eqn:Hf.
  - intros _. constructor. exact Hf.
  - intros Hne. apply Exists_cons_tl, IH, Hne.
Qed.

Lemma fields_aux_cur (cur : string) (cs : list (Z * Z * string)) :
  cur <> EmptyString -> Strings.fields_aux cur cs <> [].
Proof.
  revert cur. induction cs as [| [[off r] b] cs IH]; intros cur Hcur;
    cbn [Strings.fields_aux].
  - destruct cur; [congruence | discriminate].
  - destruct (Unicode.IsSpace r).
    + destruct cur; [congruence | discriminate].
    + apply IH. destruct cur; [congruence | discriminate].
Qed.

Lemma fields_aux_word (cur : string) (cs : list (Z * Z * string)) :
  Forall (fun x => snd x <> EmptyString) cs ->
  Exists (fun x => Unicode.IsSpace (snd (fst x)) = false) cs ->
  Strings.fields_aux cur cs <> [].
Proof.
  intros Hbytes Hex. revert cur.
  induction Hex as [[[off r] b] cs Hr | [[off r] b] cs _ IH]; intros cur;
    inversion Hbytes as [| ? ? Hb Hrest]; subst; cbn [Strings.fields_aux].
  - cbn [fst snd] in Hr, Hb. rewrite Hr. apply fields_aux_cur.
    destruct cur; [exact Hb | discriminate].
  - destruct (Unicode.IsSpace r).
    + destruct (Strings.isEmpty cur); [apply IH; exact Hrest | discriminate].
    + apply IH. exact Hrest.
Qed.

Lemma ascii_digit_not_space (r : Z) :
  Unicode.between 48 57 r = true -> Unicode.IsSpace r = false.
Proof.
  unfold Unicode.between. intros Hr. apply andb_prop in Hr.
  assert (Hcases : r = 48 \/ r = 49 \/ r = 50 \/ r = 51 \/ r = 52 \/ r = 53
                   \/ r = 54 \/ r = 55 \/ r = 56 \/ r = 57) by lia.
  repeat (destruct Hcases as [-> | Hcases]; [reflexivity |]).
  subst r. reflexivity.
Qed.

Section NoPanic.
Context `{GoTables}.

(** No rune is both a decimal digit and a white space; within Latin-1
    this is read off the two functions, above it is a property of the
    Unicode tables. *)
Hypothesis digit_not_space :
  forall r : Z, uc_IsDigit r = true -> Unicode.IsSpace r = false.

Lemma IsDigit_not_space (r : Z) :
  Unicode.IsDigit r = true -> Unicode.IsSpace r = false.
Proof.
  unfold Unicode.IsDigit.
  destruct (Unicode.between 0 255 r); [apply ascii_digit_not_space | apply digit_not_space].
Qed.

Lemma firstWordIfDigit_ok (county : string) :
  exists w, firstWordIfDigit county = Ok w.
Proof.
  unfold firstWordIfDigit.
  destruct (Z.eqb_spec (Strings.IndexFunc county Unicode.IsDigit) (-1)) as [_ | Hne];
    cbn [negb]; [eexists; reflexivity |].
  destruct (Strings.Fields county) as [| w ws] eqn:Hfields; [| eexists; reflexivity].
  exfalso. revert Hfields. unfold Strings.Fields.
  apply fields_aux_word; [apply range_aux_bytes |].
  apply index_func_aux_found in Hne.
  apply List.Exists_impl with (2 := Hne).
  intros x Hx. apply IsDigit_not_space, Hx.
Qed.

Lemma extractLocationFromAddress_ok (addr : string) :
  exists loc, extractLocationFromAddress addr = Ok loc.
Proof.
  unfold extractLocationFromAddress. cbv zeta.
  destruct (GoInt.len (addressSegments addr) =? 0); [eexists; reflexivity |].
  match goal with
  | |- context [firstWordIfDigit ?c] => destruct (firstWordIfDigit_ok c) as [w ->]
  end.
  eexists. reflexivity.
Qed.

Lemma findSimilarProperties_errors (property : PropertyInfo) (visit : ListingSearch)
    (e : error) :
  findSimilarProperties property visit = Err e -> e = ErrVisit.
Proof.
  unfold findSimilarProperties, searchURL. cbv zeta.
  destruct (extractLocationFromAddress_ok (Address property)) as [loc ->].
  match goal with
  | |- context [visit ?u] => destruct (visit u)
  end; [| discriminate].
  intros Heq. injection Heq as <-. reflexivity.
Qed.

(** X11: the only run-time panic of the value analysis, the first word
    of a county without words, cannot happen: a county is cut to its
    first word only when it holds a digit, and a digit is not a white
    space.  So the address slug is defined for every address, and
    [analyzeValue] returns no error, whatever the listing search does;
    when the search fails the rating is made from the listings the
    record had. *)
Theorem analyzeValue_never_fails :
  (forall addr : string, exists loc, extractLocationFromAddress addr = Ok loc)
  /\ (forall (property : PropertyInfo) (visit : ListingSearch),
        exists p, analyzeValue property visit = Ok p)
  /\ (forall (property : PropertyInfo) (visit : ListingSearch),
        (forall url, visit url = VisitFailed) ->
        analyzeValue property visit
          = Ok (calculatePriceRating (calculateAreaAveragePrice property))).
Proof.
  split; [exact extractLocationFromAddress_ok |]. split.
  - intros property visit. unfold analyzeValue.
    destruct (findSimilarProperties property visit) as [p | e] eqn:Hfind.
    + eexists. reflexivity.
    + rewrite (findSimilarProperties_errors _ _ _ Hfind). eexists. reflexivity.
  - intros property visit Hfail. unfold analyzeValue.
    destruct (findSimilarProperties property visit) as [p | e] eqn:Hfind.
    + exfalso. revert Hfind. unfold findSimilarProperties.
      destruct (searchURL property) as [url | e]; [| discriminate].
      rewrite Hfail. discriminate.
    + rewrite (findSimilarProperties_errors _ _ _ Hfind). reflexivity.
Qed.

End NoPanic.

Lemma analyzeValue_never_fails_witness :
  (forall r : Z, @uc_IsDigit plainTables r = true -> Unicode.IsSpace r = false)
  /\ @extractLocationFromAddress plainTables "Apt 4, Dublin 9"
       = Ok "apt-4-dublin"%string.
Proof.
  assert (Htable : forall r : Z, @uc_IsDigit plainTables r = true ->
                                 Unicode.IsSpace r = false)
    by (intros r Hr; discriminate Hr).
  split; [exact Htable |].
  destruct (@analyzeValue_never_fails plainTables Htable) as [Hloc _].
  destruct (Hloc "Apt 4, Dublin 9"%string) as [loc Hl].
  rewrite Hl. revert Hl. vm_compute. intros Heq. exact (eq_sym Heq).
Defined.

(** ** The safety score along the analysis *)

Lemma fold_left_snoc_map {A B} (f : A -> B) (l : list A) (start : list B) :
  fold_left (fun acc x => acc ++ [f x])%list l start = (start ++ List.map f l)%list.
Proof.
  revert start. induction l as [| x l IH]; intros start; cbn [fold_left List.map].
  - symmetry. apply app_nil_r.
  - rewrite IH, <- app_assoc. reflexivity.
Qed.

Lemma lightingRating_mono (count1 count2 : Z) :
  count1 <= count2 -> lightingRating count1 <= lightingRating count2.
Proof.
  intros Hle. unfold lightingRating. rewrite !Z.gtb_ltb.
  repeat match goal with
         | |- context [?a <? ?b] => destruct (Z.ltb_spec a b)
         end; lia.
Qed.

Section SafetyFurther.
Context `{GoTables}.

(** With a rating between 0 and 10 neither clamp is reached: the score
    is the sum itself. *)
Lemma calculateSafetyScore_sum (analysis : Analysis.t) :
  0 <= Analysis.StreetLighting_Rating analysis <= 10 ->
  Analysis.SafetyScore (calculateSafetyScore analysis)
    = 70 + gardaBonus analysis + lightBonus (Analysis.StreetLighting_Rating analysis)
      - crimePenalty analysis + 2 * Analysis.StreetLighting_Rating analysis.
Proof.
  intros Hr.
  pose proof (calculateSafetyScore_factors analysis) as Hf. cbv zeta in Hf.
  destruct Hf as [Hf Hk].
  pose proof (calculateSafetyScore_clamp analysis) as Hc. cbv zeta in Hc.
  rewrite Hc. clear Hc.
  rewrite rawSafetyScore_exact.
  - rewrite Hf, Hk. unfold gardaBonus, lightBonus, crimePenalty.
    destruct (Analysis.NearbyGardai analysis);
      destruct (Analysis.StreetLighting_Rating analysis >=? 7) eqn:Hw;
      destruct (F64.gtb _ _);
      rewrite ?Z.geb_leb in Hw;
      try apply Z.leb_le in Hw; try apply Z.leb_gt in Hw;
      repeat match goal with
             | |- context [?a <? ?b] => destruct (Z.ltb_spec a b)
             | |- context [?a >? ?b] => rewrite (Z.gtb_ltb a b)
             end; lia.
  - rewrite Hf. destruct (Analysis.NearbyGardai analysis);
      destruct (Analysis.StreetLighting_Rating analysis >=? 7); lia.
  - rewrite Hk. destruct (F64.gtb _ _); lia.
  - rewrite maxRating_value. lia.
Qed.

(** What a successful analysis was made of. *)
Lemma analyzeSafety_ok (analysis a : Analysis.t) (search : PlaceSearch)
    (lq : LightingQuery) (gr : option (list string)) (cube : CubeFetch)
    (o : RangeOrders) :
  analyzeSafety analysis search lq gr cube o = Ok a ->
  exists places stats a3,
    search "garda station police"%string 5000 = Ok places
    /\ lightingOk lq = true
    /\ GetCrimeStats gr cube o = Ok stats
    /\ a = calculateSafetyScore a3
    /\ Analysis.Property a3 = Analysis.Property analysis
    /\ Analysis.StreetLighting_Rating a3 = lightingRating (lampCount lq)
    /\ Analysis.StreetLighting_Description a3
         = (Fmt.d (lampCount lq) ++ " street lights within 500m")%string
    /\ Analysis.CrimeStats_PerCapita a3 = PerCapita stats
    /\ Analysis.NearbyGardai a3
         = (Analysis.NearbyGardai analysis
              ++ List.map
                   (fun place =>
                      {| Analysis.Name := Place.Name place;
                         Analysis.Distance :=
                           calculateDistance (Lat (Analysis.Property analysis))
                                             (Lng (Analysis.Property analysis))
                                             (Place.Lat place) (Place.Lng place);
                         Analysis.Phone := EmptyString |})
                   places)%list.
Proof.
  unfold analyzeSafety, findNearbyGardai.
  destruct (search _ _) as [places | e]; [| discriminate].
  unfold analyzeStreetLighting.
  destruct lq as [| code els]; [discriminate |].
  destruct (code =? 200) eqn:Hcode; cbn [negb]; [| discriminate].
  destruct els as [els |]; [| discriminate].
  unfold getCrimeStats.
  destruct (GetCrimeStats gr cube o) as [stats | e]; [| discriminate].
  intros Heq. injection Heq as <-.
  eexists places, stats, _.
  split; [reflexivity |]. split; [exact Hcode |]. split; [reflexivity |].
  split; [reflexivity |].
  cbv zeta.
  cbn [set_crime set_lighting set_gardai Analysis.Property
       Analysis.StreetLighting_Rating Analysis.StreetLighting_Description
       Analysis.CrimeStats_PerCapita Analysis.NearbyGardai].
  rewrite fold_left_snoc_map.
  repeat split; destruct els; reflexivity.
Qed.

(** X12: along the safety analysis neither clamp of the score is ever
    reached.  The rating is 4, 6, 8 or 10, the score stored is exactly
    70, plus 5 for a Garda station, plus 5 for a rating of 7 or more,
    minus 10 for a crime rate above 0.02, plus twice the rating; it lies
    between 68 and 100, and the rating out of ten copied into the
    property lies between 6 and 10. *)
Theorem analyzeSafety_score_exact (analysis : Analysis.t) (search : PlaceSearch)
    (lq : LightingQuery) (gr : option (list string)) (cube : CubeFetch)
    (o : RangeOrders) (property : PropertyInfo) :
  match analyzeSafety analysis search lq gr cube o with
  | Ok a =>
      let rating := Analysis.StreetLighting_Rating a in
      rating = lightingRating (lampCount lq)
      /\ Analysis.SafetyScore a
           = 70 + gardaBonus a + lightBonus rating - crimePenalty a + 2 * rating
      /\ 68 <= Analysis.SafetyScore a <= 100
  | Err _ => True
  end
  /\ match getSafetyInfo property search lq gr cube o with
     | Ok p => 6 <= SafetyRating (SafetyInfo p) <= 10
     | Err _ => True
     end.
Proof.
  assert (Hmain : forall analysis a,
            analyzeSafety analysis search lq gr cube o = Ok a ->
            Analysis.StreetLighting_Rating a = lightingRating (lampCount lq)
            /\ Analysis.SafetyScore a
                 = 70 + gardaBonus a + lightBonus (Analysis.StreetLighting_Rating a)
                   - crimePenalty a + 2 * Analysis.StreetLighting_Rating a
            /\ 68 <= Analysis.SafetyScore a <= 100).
  { clear analysis. intros analysis a Hok.
    destruct (analyzeSafety_ok _ _ _ _ _ _ _ Hok)
      as (places & stats & a3 & _ & _ & _ & -> & _ & Hrating & _).
    pose proof (lightingRating_values (lampCount lq)) as Hin. cbn [In] in Hin.
    assert (Hr : 0 <= Analysis.StreetLighting_Rating a3 <= 10) by (rewrite Hrating; lia).
    pose proof (calculateSafetyScore_sum a3 Hr) as Hsum.
    change (Analysis.StreetLighting_Rating (calculateSafetyScore a3))
      with (Analysis.StreetLighting_Rating a3).
    change (gardaBonus (calculateSafetyScore a3)) with (gardaBonus a3).
    change (crimePenalty (calculateSafetyScore a3)) with (crimePenalty a3).
    split; [exact Hrating |]. split; [exact Hsum |].
    rewrite Hsum, Hrating. unfold gardaBonus, lightBonus, crimePenalty.
    destruct (Analysis.NearbyGardai a3), (F64.gtb _ _);
      destruct Hin as [<- | [<- | [<- | [<- | []]]]]; cbn; lia. }
  split.
  - destruct (analyzeSafety analysis search lq gr cube o) as [a | e] eqn:Hok;
      [| exact I].
    cbv zeta. apply Hmain with (analysis := analysis). exact Hok.
  - unfold getSafetyInfo.
    destruct (analyzeSafety (Analysis.of_property property) search lq gr cube o)
      as [a | e] eqn:Hok; [| exact I].
    destruct (Hmain _ _ Hok) as (_ & _ & Hrange).
    cbn [SafetyInfo with_SafetyInfo SafetyRating].
    pose proof (Z.quot_le_mono 60 (Analysis.SafetyScore a) 10 ltac:(lia) ltac:(lia)).
    pose proof (Z.quot_le_mono (Analysis.SafetyScore a) 100 10 ltac:(lia) ltac:(lia)).
    change (60 ÷ 10) with 6 in *. change (100 ÷ 10) with 10 in *. lia.
Qed.

(** X13: more street lamps never lower the safety score, everything
    else being equal. *)
Theorem calculateSafetyScore_lamps_mono (analysis : Analysis.t)
    (count1 count2 : Z) (d1 d2 : string) :
  count1 <= count2 ->
  Analysis.SafetyScore
    (calculateSafetyScore (set_lighting analysis (lightingRating count1) d1))
  <= Analysis.SafetyScore
       (calculateSafetyScore (set_lighting analysis (lightingRating count2) d2)).
Proof.
  intros Hle.
  pose proof (lightingRating_mono _ _ Hle) as Hmono.
  pose proof (lightingRating_values count1) as H1. cbn [In] in H1.
  pose proof (lightingRating_values count2) as H2. cbn [In] in H2.
  rewrite !calculateSafetyScore_sum
    by (cbn [set_lighting Analysis.StreetLighting_Rating]; lia).
  cbn [set_lighting Analysis.StreetLighting_Rating].
  change (gardaBonus (set_lighting analysis (lightingRating count1) d1))
    with (gardaBonus analysis).
  change (gardaBonus (set_lighting analysis (lightingRating count2) d2))
    with (gardaBonus analysis).
  change (crimePenalty (set_lighting analysis (lightingRating count1) d1))
    with (crimePenalty analysis).
  change (crimePenalty (set_lighting analysis (lightingRating count2) d2))
    with (crimePenalty analysis).
  unfold lightBonus. rewrite !Z.geb_leb.
  destruct (Z.leb_spec 7 (lightingRating count1)),
           (Z.leb_spec 7 (lightingRating count2)); lia.
Qed.

(** X14: the safety analysis is all or nothing.  It stores a result
    exactly when the Garda station search, the lighting query and the
    crime statistics all succeed; one failure discards what the others
    found. *)
Theorem getSafetyInfo_all_or_nothing (property : PropertyInfo) (search : PlaceSearch)
    (lq : LightingQuery) (gr : option (list string)) (cube : CubeFetch)
    (o : RangeOrders) :
  (exists p, getSafetyInfo property search lq gr cube o = Ok p)
  <-> ((exists places, search "garda station police"%string 5000 = Ok places)
       /\ lightingOk lq = true
       /\ (exists stats, GetCrimeStats gr cube o = Ok stats)).
Proof.
  split.
  - intros [p Hp]. unfold getSafetyInfo in Hp.
    destruct (analyzeSafety (Analysis.of_property property) search lq gr cube o)
      as [a | e] eqn:Hok; [| discriminate].
    destruct (analyzeSafety_ok _ _ _ _ _ _ _ Hok)
      as (places & stats & a3 & Hs & Hl & Hc & _).
    eauto.
  - intros ([places Hs] & Hl & [stats Hc]).
    unfold getSafetyInfo, analyzeSafety, findNearbyGardai. rewrite Hs.
    unfold analyzeStreetLighting.
    destruct lq as [| code [els |]]; cbn [lightingOk] in Hl; try discriminate Hl.
    rewrite Hl. cbn [negb]. unfold getCrimeStats. rewrite Hc.
    eexists. reflexivity.
Qed.

End SafetyFurther.

Lemma calculateSafetyScore_lamps_mono_witness :
  let analysis := analysisWith [] 0 F64.zero in
  Analysis.SafetyScore
    (calculateSafetyScore
       (set_lighting analysis (lightingRating 15) "15 street lights within 500m"))
  <= Analysis.SafetyScore
       (calculateSafetyScore
          (set_lighting analysis (lightingRating 30) "30 street lights within 500m")).
Proof.
  intros analysis.
  apply (calculateSafetyScore_lamps_mono analysis 15 30). lia.
Defined.

(** ** The quality-of-life stages *)

Section QualityFurther.
Context `{GoTables}.

Lemma collectPlaces_spec (property : PropertyInfo) (search : PlaceSearch)
    (types : list string) (radius : Z) (start : list POI.t) :
  collectPlaces property search types radius start
    = (start ++ placesFound property search types radius)%list.
Proof.
  unfold collectPlaces, placesFound.
  revert start. induction types as [| ty types IH]; intros start.
  - cbn. symmetry. apply app_nil_r.
  - cbn [fold_left flat_map]. rewrite IH.
    destruct (search ty radius) as [places | e]; [| reflexivity].
    match goal with
    | |- context [fold_left ?F places start] =>
        change (fold_left F places start)
          with (fold_left (fun acc x => acc ++ [placePOI property ty x])%list
                          places start)
    end.
    rewrite (fold_left_snoc_map (placePOI property ty)), <- app_assoc. reflexivity.
Qed.

Lemma placesFound_entries (property : PropertyInfo) (search : PlaceSearch)
    (types : list string) (radius : Z) :
  Forall (fun x => wellTimed x /\ In (POI.Type_ x) types)
         (placesFound property search types radius).
Proof.
  unfold placesFound. apply List.Forall_forall. intros x Hin.
  apply in_flat_map in Hin. destruct Hin as (ty & Hty & Hin).
  destruct (search ty radius) as [places | e]; [| contradiction].
  apply in_map_iff in Hin. destruct Hin as (place & <- & _).
  split; [reflexivity | exact Hty].
Qed.

(** The transport stage changes the two transport fields only. *)
Lemma findPublicTransport_frame (property p : PropertyInfo) (search : PlaceSearch) :
  findPublicTransport property search = Ok p ->
  Lat p = Lat property /\ Lng p = Lng property
  /\ Amenities (QualityOfLife p) = Amenities (QualityOfLife property)
  /\ Entertainment (QualityOfLife p) = Entertainment (QualityOfLife property).
Proof.
  unfold findPublicTransport.
  destruct (search _ _) as [trains | e]; [| discriminate].
  destruct (search _ _) as [buses | e]; [| discriminate].
  intros Heq. injection Heq as <-. repeat split.
Qed.

Lemma placesFound_coordinates (p1 p2 : PropertyInfo) (search : PlaceSearch)
    (types : list string) (radius : Z) :
  Lat p1 = Lat p2 -> Lng p1 = Lng p2 ->
  placesFound p1 search types radius = placesFound p2 search types radius.
Proof. intros Hlat Hlng. unfold placesFound, placePOI. rewrite Hlat, Hlng. reflexivity. Qed.

(** X15: the amenities and the entertainment of a property only grow.
    After [getQualityOfLife] each list is the old one followed by the
    places found, keyword by keyword in the order of the source and,
    under a keyword, in the order of the answer; a keyword whose search
    fails contributes nothing and stops nothing.  Every new entry is
    filed under the keyword it was found with and has the walking time
    its distance gives.  This holds whether the transport stage failed
    or not. *)
Theorem getQualityOfLife_places (property : PropertyInfo) (search : PlaceSearch) :
  let p := getQualityOfLife property search in
  Amenities (QualityOfLife p)
    = (Amenities (QualityOfLife property)
         ++ placesFound property search amenityTypes 1500)%list
  /\ Entertainment (QualityOfLife p)
       = (Entertainment (QualityOfLife property)
            ++ placesFound property search entertainmentTypes 2000)%list
  /\ Forall (fun x => wellTimed x /\ In (POI.Type_ x) amenityTypes)
            (placesFound property search amenityTypes 1500)
  /\ Forall (fun x => wellTimed x /\ In (POI.Type_ x) entertainmentTypes)
            (placesFound property search entertainmentTypes 2000).
Proof.
  cbv zeta. unfold getQualityOfLife.
  set (p1 := match findPublicTransport property search with
             | Ok p => p
             | Err _ => property
             end).
  assert (Hframe : Lat p1 = Lat property /\ Lng p1 = Lng property
                   /\ Amenities (QualityOfLife p1) = Amenities (QualityOfLife property)
                   /\ Entertainment (QualityOfLife p1)
                      = Entertainment (QualityOfLife property)).
  { subst p1. destruct (findPublicTransport property search) as [p | e] eqn:Hp.
    - apply (findPublicTransport_frame _ _ _ Hp).
    - repeat split. }
  destruct Hframe as (Hlat & Hlng & Ha & He).
  clearbody p1.
  unfold calculateWalkScore, findEntertainment, findAmenities.
  cbv zeta.
  cbn [QualityOfLife with_QualityOfLife set_WalkScore set_Entertainment set_Amenities
       Amenities Entertainment].
  rewrite !collectPlaces_spec.
  fold amenityTypes. fold entertainmentTypes.
  split; [| split; [| split]].
  - rewrite Ha.
    rewrite (placesFound_coordinates p1 property search amenityTypes 1500 Hlat Hlng).
    reflexivity.
  - rewrite He.
    match goal with
    | |- context [placesFound ?pp search entertainmentTypes 2000] =>
        rewrite (placesFound_coordinates pp property search entertainmentTypes 2000
                   Hlat Hlng)
    end.
    reflexivity.
  - apply placesFound_entries.
  - apply placesFound_entries.
Qed.

(** X16: one failed transport search leaves the transport part of the
    record as it was: the stations found by the search that worked are
    dropped and the transport score is not set.  The other stages run
    all the same, the walk score with the transport score the record
    had. *)
Theorem getQualityOfLife_transport_failure (property : PropertyInfo)
    (search : PlaceSearch) (e : error) :
  search "train_station"%string 2000 = Err e
  \/ search "bus_station"%string 1000 = Err e ->
  let p := getQualityOfLife property search in
  PublicTransport (QualityOfLife p) = PublicTransport (QualityOfLife property)
  /\ TransportScore (QualityOfLife p) = TransportScore (QualityOfLife property)
  /\ p = calculateWalkScore (findEntertainment (findAmenities property search) search).
Proof.
  intros Hfail. cbv zeta.
  assert (Hnone : exists e', findPublicTransport property search = Err e').
  { unfold findPublicTransport. destruct Hfail as [-> | Hbus]; [eauto |].
    destruct (search "train_station"%string 2000); [| eauto].
    rewrite Hbus. eauto. }
  destruct Hnone as [e' He'].
  unfold getQualityOfLife. rewrite He'.
  repeat split.
Qed.

(** X17: for lists of machine size the walk score is 50 plus 5 for each
    amenity and each entertainment place closer than 1 km, five of each
    at most, plus the transport bonus, cut at 100.  It is a multiple of
    5 between 50 and 100: the lower bound 0 of the source is never
    reached. *)
Theorem calculateWalkScore_steps (property : PropertyInfo) :
  let q := QualityOfLife property in
  GoInt.len (Amenities q) <= 2 ^ 60 ->
  GoInt.len (Entertainment q) <= 2 ^ 60 ->
  let score := WalkScore (QualityOfLife (calculateWalkScore property)) in
  score = Z.min 100 (50 + 5 * Z.min 5 (countNear (Amenities q))
                        + 5 * Z.min 5 (countNear (Entertainment q))
                        + walkBonus (TransportScore q))
  /\ 50 <= score <= 100
  /\ score mod 5 = 0.
Proof.
  intros q Ha He. cbv zeta.
  pose proof (calculateWalkScore_formula property Ha He) as Hf. cbv zeta in Hf.
  fold q in Hf. rewrite Hf.
  pose proof (countNear_bounds (Amenities q)) as Hca.
  pose proof (countNear_bounds (Entertainment q)) as Hce.
  assert (Hb : walkBonus (TransportScore q) = 0 \/ walkBonus (TransportScore q) = 5
               \/ walkBonus (TransportScore q) = 10).
  { unfold walkBonus. destruct (_ >=? 7); [auto |]. destruct (_ >=? 5); auto. }
  set (a := countNear (Amenities q)) in *.
  set (b := countNear (Entertainment q)) in *.
  set (w := walkBonus (TransportScore q)) in *.
  clearbody a b w.
  assert (Hsum : Z.min (Z.max (50 + Z.min (a * 5) 25 + Z.min (b * 5) 25 + w) 0) 100
                 = Z.min 100 (50 + 5 * Z.min 5 a + 5 * Z.min 5 b + w)) by lia.
  rewrite Hsum. split; [reflexivity |]. split; [lia |].
  assert (Hdiv : exists k, Z.min 100 (50 + 5 * Z.min 5 a + 5 * Z.min 5 b + w) = 5 * k).
  { destruct Hb as [-> | [-> | ->]].
    - exists (Z.min 20 (10 + Z.min 5 a + Z.min 5 b)). lia.
    - exists (Z.min 20 (11 + Z.min 5 a + Z.min 5 b)). lia.
    - exists (Z.min 20 (12 + Z.min 5 a + Z.min 5 b)). lia. }
  destruct Hdiv as [k ->]. rewrite Z.mul_comm. apply Z_mod_mult.
Qed.

End QualityFurther.

Lemma getQualityOfLife_transport_failure_witness :
  let property := propertyWith 4 [] [] in
  let p := @getQualityOfLife plainTables property noBusSearch in
  noBusSearch "bus_station" 1000 = Err ErrSearch
  /\ PublicTransport (QualityOfLife p) = []
  /\ TransportScore (QualityOfLife p) = 4
  /\ length (Amenities (QualityOfLife p)) = 7%nat.
Proof.
  intros property p. split; [reflexivity |].
  destruct (@getQualityOfLife_transport_failure plainTables property noBusSearch
              ErrSearch (or_intror eq_refl)) as (Ht & Hs & _).
  fold p in Ht, Hs. rewrite Ht, Hs.
  split; [reflexivity |]. split; [reflexivity |]. vm_compute. reflexivity.
Defined.

Lemma calculateWalkScore_steps_witness :
  let property := propertyWith 7 [station (1 # 2); station 3] [station (1 # 4)] in
  WalkScore (QualityOfLife (calculateWalkScore property)) = 70.
Proof.
  intros property.
  destruct (calculateWalkScore_steps property
              ltac:(vm_compute; discriminate) ltac:(vm_compute; discriminate))
    as (Hscore & _).
  rewrite Hscore. vm_compute. reflexivity.
Defined.

(** ** Rounding to a multiple of 50 *)

Lemma lit_50 : F64.lit 50 = F_fin (inject_Z 50).
Proof.
  change (F64.lit 50) with (F64.round64 (inject_Z 50)).
  apply round64_int. cbn. lia.
Qed.

Lemma leb_fin_inv (a b : Q) : F64.leb (F_fin a) (F_fin b) = true -> (a <= b)%Q.
Proof.
  cbn [F64.leb]. destruct (Qlt_le_dec b a) as [Hlt | Hle]; [discriminate |].
  intros _. exact Hle.
Qed.

(** A quotient by 50 of a value within the bound is a finite value
    within the bound divided by 50. *)
Lemma div_50_bounded (v : Q) (B : Z) :
  0 <= B < 2 ^ 53 -> (Qabs v <= inject_Z (50 * B))%Q ->
  exists w, F64.div (F_fin v) (F_fin (inject_Z 50)) = F_fin w
            /\ (Qabs w <= inject_Z B)%Q.
Proof.
  intros HB Hv. unfold F64.div.
  change (Qeq_bool (inject_Z 50) 0) with false. cbv iota.
  apply Qabs_Qle_condition in Hv. destruct Hv as [Hlo Hhi].
  rewrite inject_Z_mult in Hlo, Hhi.
  assert (Hup : F64.leb (F64.round64 (v / inject_Z 50)) (F_fin (inject_Z B)) = true).
  { rewrite <- (round64_int B) by lia. apply round64_mono.
    apply Qle_shift_div_r; [reflexivity |].
    eapply Qle_trans; [exact Hhi |]. apply Qle_lteq. right. ring. }
  assert (Hdown : F64.leb (F_fin (inject_Z (- B))) (F64.round64 (v / inject_Z 50)) = true).
  { rewrite <- (round64_int (- B)) by lia. apply round64_mono.
    apply Qle_shift_div_l; [reflexivity |].
    eapply Qle_trans; [| exact Hlo]. rewrite inject_Z_opp.
    apply Qle_lteq. right. ring. }
  destruct (F64.round64 (v / inject_Z 50)) as [w | n |].
  - exists w. split; [reflexivity |].
    apply leb_fin_inv in Hup. apply leb_fin_inv in Hdown.
    apply Qabs_Qle_condition. rewrite inject_Z_opp in Hdown. split; assumption.
  - destruct n; [discriminate Hdown | discriminate Hup].
  - discriminate Hup.
Qed.

Lemma Qfloor_half (a : Z) : Qfloor (inject_Z a + (1 # 2)) = a.
Proof.
  unfold Qfloor, Qplus, inject_Z. cbn [Qnum Qden].
  change (Z.pos (1 * 2)) with 2.
  pose proof (Z.div_mod (a * 2 + 1 * 1) 2 ltac:(lia)).
  pose proof (Z.mod_pos_bound (a * 2 + 1 * 1) 2 ltac:(lia)). lia.
Qed.

Lemma Round_int (w : Q) : exists m, Math.Round (F_fin w) = F_fin (inject_Z m)
                                    /\ forall B, (Qabs w <= inject_Z B)%Q -> Z.abs m <= B.
Proof.
  unfold Math.Round.
  set (n := Qfloor (Qabs w + (1 # 2))).
  assert (Hn0 : 0 <= n).
  { subst n. change 0 with (Qfloor (inject_Z 0 + (1 # 2))) at 1.
    apply Qfloor_resp_le. apply Qplus_le_compat; [| apply Qle_refl].
    apply Qabs_nonneg. }
  assert (HnB : forall B, (Qabs w <= inject_Z B)%Q -> n <= B).
  { intros B HB. subst n. rewrite <- (Qfloor_half B).
    apply Qfloor_resp_le. apply Qplus_le_compat; [exact HB | apply Qle_refl]. }
  exists (if F64.Qneg w then - n else n). split; [reflexivity |].
  intros B HB. specialize (HnB B HB). destruct (F64.Qneg w); lia.
Qed.

Lemma mul_50_exact (m : Z) :
  Z.abs (50 * m) < 2 ^ 53 ->
  F64.mul (F_fin (inject_Z m)) (F_fin (inject_Z 50)) = F_fin (inject_Z (50 * m)).
Proof.
  intros Hm. unfold F64.mul.
  rewrite (round64_proper _ (inject_Z (50 * m)))
    by (rewrite inject_Z_mult; ring).
  apply round64_int. exact Hm.
Qed.

Section Rounding.
Context `{GoTables}.

(** X18: for a price of up to 10^15 in absolute value the result of
    [roundToNearest50] is a whole multiple of 50, exactly, and a whole
    multiple of 50 is returned as it is. *)
Theorem roundToNearest50_multiple :
  (forall v : Q,
     (Qabs v <= inject_Z (10 ^ 15))%Q ->
     exists n : Z, roundToNearest50 (F_fin v) = F_fin (inject_Z (50 * n))
                   /\ Z.abs (50 * n) <= 10 ^ 15)
  /\ (forall k : Z,
        Z.abs (50 * k) <= 10 ^ 15 ->
        roundToNearest50 (F_fin (inject_Z (50 * k))) = F_fin (inject_Z (50 * k))).
Proof.
  split.
  - intros v Hv. unfold roundToNearest50. rewrite lit_50.
    destruct (div_50_bounded v (2 * 10 ^ 13) ltac:(lia) Hv) as (w & -> & Hw).
    destruct (Round_int w) as (m & -> & Hm).
    specialize (Hm _ Hw).
    exists m. split; [apply mul_50_exact; lia | lia].
  - intros k Hk. unfold roundToNearest50. rewrite lit_50.
    assert (Hdiv : F64.div (F_fin (inject_Z (50 * k))) (F_fin (inject_Z 50))
                   = F_fin (inject_Z k)).
    { unfold F64.div. change (Qeq_bool (inject_Z 50) 0) with false. cbv iota.
      rewrite (round64_proper _ (inject_Z k))
        by (rewrite inject_Z_mult; field).
      apply round64_int. lia. }
    rewrite Hdiv. unfold Math.Round.
    change (Qabs (inject_Z k)) with (inject_Z (Z.abs k)).
    rewrite Qfloor_half.
    replace (if F64.Qneg (inject_Z k) then - Z.abs k else Z.abs k) with k
      by (unfold F64.Qneg, inject_Z; cbn [Qnum]; destruct (Z.ltb_spec k 0); lia).
    apply mul_50_exact. lia.
Qed.

End Rounding.

Lemma roundToNearest50_multiple_witness :
  exists n : Z, roundToNearest50 (F_fin (Qmake 98765 100)) = F_fin (inject_Z (50 * n))
                /\ Z.abs (50 * n) <= 10 ^ 15.
Proof.
  destruct roundToNearest50_multiple as [Hmult _].
  apply (Hmult (Qmake 98765 100)).
  vm_compute. discriminate.
Defined.

(** ** The location of the older revision *)

Lemma list_ascii_of_string_app (a b : string) :
  list_ascii_of_string (a ++ b) = (list_ascii_of_string a ++ list_ascii_of_string b)%list.
Proof.
  induction a as [| c a IH]; [reflexivity |].
  change (String c a ++ b)%string with (String c (a ++ b)).
  cbn [list_ascii_of_string]. rewrite IH. reflexivity.
Qed.

Lemma append_empty_r (a : string) : (a ++ "")%string = a.
Proof.
  induction a as [| c a IH]; [reflexivity |].
  change (String c a ++ "")%string with (String c (a ++ "")). rewrite IH. reflexivity.
Qed.

Lemma concat_empty_cons (x : string) (xs : list string) :
  String.concat "" (x :: xs) = (x ++ String.concat "" xs)%string.
Proof.
  destruct xs as [| y ys]; cbn [String.concat].
  - symmetry. apply append_empty_r.
  - reflexivity.
Qed.

Lemma byte_of_ascii_of (r : Z) : 0 <= r < 256 -> Utf8.byte_of (Utf8.ascii_of r) = r.
Proof.
  intros Hr. unfold Utf8.byte_of, Utf8.ascii_of.
  rewrite N_ascii_embedding by lia. lia.
Qed.

Lemma keepLower_piece (r : Z) :
  Forall (fun c => slugByte c = true)
         (list_ascii_of_string
            (let m := Rev0.keepLower r in
             if m <? 0 then EmptyString else Utf8.EncodeRune m)).
Proof.
  cbv zeta. unfold Rev0.keepLower.
  destruct (((97 <=? r) && (r <=? 122)) || (r =? 45)) eqn:Hkeep; [| constructor].
  assert (Hr : 0 <= r <= 127).
  { apply orb_prop in Hkeep. destruct Hkeep as [Hk | Hk].
    - apply andb_prop in Hk. lia.
    - apply Z.eqb_eq in Hk. lia. }
  replace (r <? 0) with false by (symmetry; apply Z.ltb_ge; lia).
  unfold Utf8.EncodeRune.
  replace ((0 <=? r) && (r <=? 127)) with true
    by (symmetry; apply andb_true_intro; split; apply Z.leb_le; lia).
  cbn [Utf8.str List.map string_of_list_ascii list_ascii_of_string].
  constructor; [| constructor].
  unfold slugByte. cbv zeta. rewrite byte_of_ascii_of by lia. exact Hkeep.
Qed.

Lemma Map_keepLower_bytes (s : string) :
  Forall (fun c => slugByte c = true)
         (list_ascii_of_string (Strings.Map Rev0.keepLower s)).
Proof.
  unfold Strings.Map. generalize (Utf8.runes s) as l.
  induction l as [| r l IH]; [constructor |].
  cbn [List.map]. rewrite concat_empty_cons, list_ascii_of_string_app.
  apply Forall_app. split; [apply keepLower_piece | exact IH].
Qed.

Section OlderLocation.
Context `{GoTables}.


End OlderLocation.

(** ** Instances of the statements above *)

Lemma calculatePriceRating_range_witness :
  PriceRating
    (ValueAnalysis
       (@calculatePriceRating plainTables (pricedProperty "€900" (F_inf false)))) = 1.
Proof.
  exact (proj2 (@calculatePriceRating_range plainTables
                  (pricedProperty "€900" (F_inf false))) eq_refl).
Defined.

Lemma calculateAreaAveragePrice_positive_only_witness :
  let property := withSimilar (pricedProperty "€900" (F_fin 850))
                              [listingAt F64.zero; listingAt F_nan] in
  calculateAreaAveragePrice property = property.
Proof.
  intros property.
  exact (proj2 (calculateAreaAveragePrice_positive_only property) eq_refl).
Defined.

Lemma getSafetyInfo_all_or_nothing_witness :
  exists p,
    @getSafetyInfo plainTables (propertyWith 0 [] []) noBusSearch
      (LightingResponse 200 (Some []))
      (Some ["D.M.R. Southern Division"%string])
      (CubeResponse 200 (BodyDecoded {| Dimension := ∅; Value := [] |}))
      sampleOrders = Ok p.
Proof.
  apply (proj2 (@getSafetyInfo_all_or_nothing plainTables (propertyWith 0 [] [])
                  noBusSearch (LightingResponse 200 (Some []))
                  (Some ["D.M.R. Southern Division"%string])
                  (CubeResponse 200 (BodyDecoded {| Dimension := ∅; Value := [] |}))
                  sampleOrders)).
  split; [eexists; reflexivity |]. split; [reflexivity |].
  eexists. reflexivity.
Defined.

(** ** The bounds of the listing search *)

Lemma leb_fin_intro (a b : Q) : (a <= b)%Q -> F64.leb (F_fin a) (F_fin b) = true.
Proof.
  intros Hab. cbn [F64.leb].
  destruct (Qlt_le_dec b a) as [Hlt | _]; [| reflexivity].
  exfalso. apply (Qlt_not_le _ _ Hlt). exact Hab.
Qed.

(** Rounding half away from zero is monotone. *)
Lemma Round_steps (x y : Q) :
  (x <= y)%Q ->
  (if F64.Qneg x then - Qfloor (Qabs x + (1 # 2)) else Qfloor (Qabs x + (1 # 2)))
  <= (if F64.Qneg y then - Qfloor (Qabs y + (1 # 2)) else Qfloor (Qabs y + (1 # 2))).
Proof.
  intros Hxy.
  assert (Hpos : forall q, 0 <= Qfloor (Qabs q + (1 # 2))).
  { intros q. change 0 with (Qfloor (inject_Z 0 + (1 # 2))) at 1.
    apply Qfloor_resp_le. apply Qplus_le_compat; [apply Qabs_nonneg | apply Qle_refl]. }
  destruct (F64.Qneg x) eqn:Hx, (F64.Qneg y) eqn:Hy.
  - apply Qneg_true in Hx. apply Qneg_true in Hy.
    apply Z.opp_le_mono. rewrite !Z.opp_involutive.
    apply Qfloor_resp_le. apply Qplus_le_compat; [| apply Qle_refl].
    rewrite !Qabs_neg by (apply Qlt_le_weak; assumption).
    apply Qopp_le_compat. exact Hxy.
  - pose proof (Hpos x). pose proof (Hpos y). lia.
  - apply Qneg_false in Hx. apply Qneg_true in Hy. exfalso.
    apply (Qlt_not_le _ _ Hy). apply Qle_trans with x; assumption.
  - apply Qneg_false in Hx. apply Qneg_false in Hy.
    apply Qfloor_resp_le. apply Qplus_le_compat; [| apply Qle_refl].
    rewrite !Qabs_pos by assumption. exact Hxy.
Qed.

Lemma Round_mono (a b : float64) :
  F64.leb a b = true -> F64.leb (Math.Round a) (Math.Round b) = true.
Proof.
  destruct a as [x | n |], b as [y | m |]; cbn [F64.leb Math.Round];
    try (intros H; exact H).
  destruct (Qlt_le_dec y x) as [Hlt | Hle]; [discriminate |]. intros _.
  destruct (Qlt_le_dec _ _) as [Hbad | _]; [| reflexivity].
  exfalso. apply (Qlt_not_le _ _ Hbad). rewrite <- Zle_Qle.
  apply Round_steps. exact Hle.
Qed.

Lemma roundToNearest50_mono (a b : float64) :
  F64.leb a b = true ->
  F64.leb (roundToNearest50 a) (roundToNearest50 b) = true.
Proof.
  intros Hab. unfold roundToNearest50. rewrite lit_50.
  apply mul_mono_pos; [reflexivity |].
  apply Round_mono. apply div_mono_pos; [reflexivity | exact Hab].
Qed.

Lemma lit_factors :
  exists lo hi, F64.lit (8 # 10) = F_fin lo /\ F64.lit (12 # 10) = F_fin hi
                /\ (lo <= hi)%Q.
Proof.
  eexists. eexists. split; [vm_compute; reflexivity |].
  split; [vm_compute; reflexivity |]. vm_compute. discriminate.
Qed.

Section SearchBounds.
Context `{GoTables}.

(** The price is zero or the rounding of a number that is zero or more. *)
Lemma extractPriceValue_parsed (price : string) :
  extractPriceValue price = F64.zero
  \/ exists q, (0 <= q)%Q /\ extractPriceValue price = F64.round64 q
               /\ F64.round64 q <> F_inf false.
Proof.
  rewrite extractPriceValue_unfold. cbv zeta.
  destruct (Strings.isEmpty (Strconv.FindString_leading_number (cleanPrice price)))
    eqn:Hempty; [left; reflexivity |].
  apply isEmpty_false in Hempty.
  destruct (FindString_plain _ Hempty) as (q & Hq & Hq0).
  unfold Strconv.ParseFloat. rewrite Hq.
  destruct (F64.round64 q) as [v | n |] eqn:Hround; [| left; reflexivity ..].
  right. exists q. rewrite Hround. repeat split; [exact Hq0 | discriminate].
Qed.

(** X20: the lower price bound of the listing search never exceeds the
    upper one.  For every rent text the bound made from 0.8 times the
    price is at most the bound made from 1.2 times the price, in
    float64 arithmetic, overflow included; neither is NaN. *)
Theorem searchBounds_ordered (property : PropertyInfo) :
  F64.leb (fst (searchBounds property)) (snd (searchBounds property)) = true
  /\ (forall url : string,
        searchURL property = Ok url ->
        exists location : string,
          url = ("https://www.daft.ie/sharing/" ++ location
                 ++ "?rentalPrice_from=" ++ Fmt.f 0 (fst (searchBounds property))
                 ++ "&rentalPrice_to=" ++ Fmt.f 0 (snd (searchBounds property)))%string).
Proof.
  split; [| intros url; unfold searchURL; cbv zeta;
            destruct (extractLocationFromAddress (Address property)) as [loc | e];
            [| discriminate];
            intros Heq; injection Heq as <-; eexists; reflexivity].
  unfold searchBounds. cbv zeta. cbn [fst snd].
  apply roundToNearest50_mono.
  destruct lit_factors as (lo & hi & -> & -> & Hle).
  assert (Hmul : forall v, (0 <= v)%Q ->
            F64.leb (F64.mul (F_fin v) (F_fin lo)) (F64.mul (F_fin v) (F_fin hi)) = true).
  { intros v Hv. unfold F64.mul. apply round64_mono.
    rewrite (Qmult_comm v lo), (Qmult_comm v hi).
    apply Qmult_le_compat_r; assumption. }
  destruct (extractPriceValue_parsed (RentPrice property))
    as [-> | (q & Hq & -> & Hfin)].
  - apply Hmul. apply Qle_refl.
  - destruct (round64_nonneg q Hq) as [Hinf | (v & -> & Hv)]; [contradiction |].
    apply Hmul. exact Hv.
Qed.

End SearchBounds.

Lemma searchBounds_ordered_witness :
  let property := listedProperty "12 Main St, Ranelagh, Co. Dublin" "€1,000 per month" in
  @searchURL plainTables property
    = Ok "https://www.daft.ie/sharing/ranelagh-dublin?rentalPrice_from=800&rentalPrice_to=1200"%string
  /\ @searchBounds plainTables property = (F_fin 800, F_fin 1200).
Proof.
  intros property.
  destruct (@searchBounds_ordered plainTables property) as [_ Hurl].
  destruct (Hurl _ ltac:(vm_compute; reflexivity)) as [location _].
  split; vm_compute; reflexivity.
Defined.

(** ** The fallback figures and the risk factor *)

Lemma ltb_after_leb (a b c : float64) :
  F64.leb a b = true -> F64.ltb b c = true -> F64.ltb c a = false.
Proof.
  destruct a as [x | n |], b as [y | m |], c as [z | k |];
    cbn [F64.leb F64.ltb]; try discriminate; try reflexivity.
  - destruct (Qlt_le_dec y x); [discriminate |].
    destruct (Qlt_le_dec y z); [| discriminate].
    destruct (Qlt_le_dec z x) as [Hzx | _]; [| reflexivity].
    intros _ _. exfalso. apply (Qlt_irrefl y).
    apply Qlt_le_trans with z; [assumption |].
    apply Qle_trans with x; [apply Qlt_le_weak |]; assumption.
  - destruct k; cbn [negb]; [discriminate | reflexivity].
  - destruct m; cbn [negb]; discriminate.
  - destruct m, k; cbn; try discriminate; reflexivity.
  - destruct n; [reflexivity | discriminate].
  - destruct n, k; cbn; try discriminate; reflexivity.
  - destruct n, m; cbn; try discriminate; reflexivity.
  - destruct n, m, k; cbn; try discriminate; reflexivity.
Qed.

Lemma pop_at_least (div : string) : 100000 <= pop div.
Proof.
  pose proof (pop_values div) as Hin. cbn [In] in Hin.
  repeat (destruct Hin as [<- | Hin]; [lia |]). contradiction.
Qed.

Lemma half_percent_below : F64.ltb (F64.round64 (1 # 200)) (F64.lit (2 # 100)) = true.
Proof. vm_compute. reflexivity. Qed.

(** X21: the figures returned for a cube without dimensions never
    count as a risk: 500 incidents over a population of 100000 or more
    is a rate of at most 0.005, below the 0.02 that makes "Above average
    crime rate" a risk factor, also after rounding.  With them the
    safety score has no risk factor. *)
Theorem fallbackStats_no_risk (analysis : Analysis.t) (division : string) :
  F64.gtb (PerCapita (fallbackStats division)) (F64.lit (2 # 100)) = false
  /\ Analysis.RiskFactors
       (calculateSafetyScore (set_crime analysis (fallbackStats division))) = [].
Proof.
  assert (Hrate : F64.gtb (PerCapita (fallbackStats division)) (F64.lit (2 # 100))
                  = false).
  { unfold F64.gtb. apply ltb_after_leb with (b := F64.round64 (1 # 200));
      [| exact half_percent_below].
    unfold fallbackStats. cbv zeta. cbn [PerCapita].
    rewrite fallback_perCapita. apply round64_mono.
    pose proof (pop_at_least division) as Hpop.
    apply Qle_shift_div_r.
    - rewrite <- (Zlt_Qlt 0). lia.
    - unfold Qle, Qmult, inject_Z. cbn [Qnum Qden]. lia. }
  split; [exact Hrate |].
  unfold calculateSafetyScore. cbv zeta.
  cbn [Analysis.RiskFactors set_score set_crime Analysis.CrimeStats_PerCapita].
  rewrite Hrate. reflexivity.
Qed.

(** ** The bytes of a slug *)

Lemma land_shifted (c k m : Z) :
  0 <= k -> 0 <= m < 2 ^ k -> Z.land (c * 2 ^ k) m = 0.
Proof.
  intros Hk Hm. apply Z.bits_inj'. intros n Hn.
  rewrite Z.land_spec, Z.bits_0.
  destruct (Z.lt_ge_cases n k) as [Hlow | Hhigh].
  - rewrite Z.mul_pow2_bits_low by lia. reflexivity.
  - destruct (Z.eq_dec m 0) as [-> | Hm0].
    + rewrite Z.bits_0. apply andb_false_r.
    + rewrite (Z.bits_above_log2 m n); [apply andb_false_r | lia |].
      assert (Z.log2 m < k) by (apply Z.log2_lt_pow2; lia). lia.
Qed.

Lemma lor_shifted (c k m : Z) :
  0 <= k -> 0 <= m < 2 ^ k -> Z.lor (c * 2 ^ k) m = c * 2 ^ k + m.
Proof.
  intros Hk Hm. symmetry. apply Z.add_nocarry_lor. apply land_shifted; assumption.
Qed.

Lemma land_63 (r : Z) : 0 <= Z.land r 63 < 64.
Proof.
  change 63 with (Z.ones 6). rewrite Z.land_ones by lia.
  apply Z.mod_pos_bound. reflexivity.
Qed.

Lemma shiftr_bound (r k b : Z) :
  0 <= k -> 0 <= r < b * 2 ^ k -> 0 <= Z.shiftr r k < b.
Proof.
  intros Hk Hr. rewrite Z.shiftr_div_pow2 by lia.
  assert (0 < 2 ^ k) by (apply Z.pow_pos_nonneg; lia).
  split; [apply Z.div_pos; lia | apply Z.div_lt_upper_bound; lia].
Qed.

(** A continuation byte and the three kinds of leading byte. *)
Lemma cont_byte (m : Z) : 0 <= m < 64 -> 128 <= Z.lor 128 m < 192.
Proof.
  intros Hm.
  assert (Heq : Z.lor (2 * 2 ^ 6) m = 2 * 2 ^ 6 + m)
    by (apply lor_shifted; [lia | change (2 ^ 6) with 64; lia]).
  change (2 * 2 ^ 6) with 128 in Heq. rewrite Heq. lia.
Qed.

Lemma lead2_byte (m : Z) : 0 <= m < 32 -> 192 <= Z.lor 192 m < 224.
Proof.
  intros Hm.
  assert (Heq : Z.lor (3 * 2 ^ 6) m = 3 * 2 ^ 6 + m)
    by (apply lor_shifted; [lia | change (2 ^ 6) with 64; lia]).
  change (3 * 2 ^ 6) with 192 in Heq. rewrite Heq. lia.
Qed.

Lemma lead3_byte (m : Z) : 0 <= m < 16 -> 224 <= Z.lor 224 m < 240.
Proof.
  intros Hm.
  assert (Heq : Z.lor (14 * 2 ^ 4) m = 14 * 2 ^ 4 + m)
    by (apply lor_shifted; [lia | change (2 ^ 4) with 16; lia]).
  change (14 * 2 ^ 4) with 224 in Heq. rewrite Heq. lia.
Qed.

Lemma lead4_byte (m : Z) : 0 <= m < 8 -> 240 <= Z.lor 240 m < 248.
Proof.
  intros Hm.
  assert (Heq : Z.lor (30 * 2 ^ 3) m = 30 * 2 ^ 3 + m)
    by (apply lor_shifted; [lia | change (2 ^ 3) with 8; lia]).
  change (30 * 2 ^ 3) with 240 in Heq. rewrite Heq. lia.
Qed.

(** Only a rune below 128 is written with a byte below 128, and that
    byte is the rune. *)
Lemma EncodeRune_bytes (r : Z) :
  Forall (fun c => Utf8.byte_of c < 128 -> Utf8.byte_of c = r /\ 0 <= r <= 127)
         (list_ascii_of_string (Utf8.EncodeRune r)).
Proof.
  unfold Utf8.EncodeRune, Utf8.MaxRune.
  destruct ((0 <=? r) && (r <=? 127)) eqn:H1.
  { apply andb_prop in H1.
    cbn [Utf8.str List.map string_of_list_ascii list_ascii_of_string].
    constructor; [| constructor]. intros _.
    rewrite byte_of_ascii_of by lia. lia. }
  destruct ((0 <=? r) && (r <=? 2047)) eqn:H2.
  { apply andb_prop in H2.
    cbn [Utf8.str List.map string_of_list_ascii list_ascii_of_string].
    pose proof (lead2_byte (Z.shiftr r 6) (shiftr_bound r 6 32 ltac:(lia) ltac:(lia))).
    pose proof (cont_byte _ (land_63 r)).
    repeat (apply List.Forall_cons;
            [intros Hlow; rewrite byte_of_ascii_of in Hlow by lia; lia |]).
    apply List.Forall_nil. }
  destruct ((r <? 0) || (1114111 <? r) || ((55296 <=? r) && (r <=? 57343))) eqn:H3.
  { cbn [Utf8.str List.map string_of_list_ascii list_ascii_of_string].
    repeat (apply List.Forall_cons;
            [intros Hlow; rewrite byte_of_ascii_of in Hlow by lia; lia |]).
    apply List.Forall_nil. }
  apply orb_false_elim in H3. destruct H3 as [H3 _].
  apply orb_false_elim in H3. destruct H3 as [Hneg Hmax].
  apply Z.ltb_ge in Hneg. apply Z.ltb_ge in Hmax.
  destruct (r <=? 65535) eqn:H4.
  { apply Z.leb_le in H4.
    cbn [Utf8.str List.map string_of_list_ascii list_ascii_of_string].
    pose proof (lead3_byte (Z.shiftr r 12) (shiftr_bound r 12 16 ltac:(lia) ltac:(lia))).
    pose proof (cont_byte _ (land_63 (Z.shiftr r 6))).
    pose proof (cont_byte _ (land_63 r)).
    repeat (apply List.Forall_cons;
            [intros Hlow; rewrite byte_of_ascii_of in Hlow by lia; lia |]).
    apply List.Forall_nil. }
  cbn [Utf8.str List.map string_of_list_ascii list_ascii_of_string].
  pose proof (lead4_byte (Z.shiftr r 18) (shiftr_bound r 18 8 ltac:(lia) ltac:(lia))).
  pose proof (cont_byte _ (land_63 (Z.shiftr r 12))).
  pose proof (cont_byte _ (land_63 (Z.shiftr r 6))).
  pose proof (cont_byte _ (land_63 r)).
  repeat (apply List.Forall_cons;
          [intros Hlow; rewrite byte_of_ascii_of in Hlow by lia; lia |]).
  apply List.Forall_nil.
Qed.

Section SlugBytes.
Context `{GoTables}.

Lemma keepRune_ascii_table :
  forallb (fun n => implb (keepRune (Z.of_nat n)) (slugAscii (Z.of_nat n)))
          (seq 0 128) = true.
Proof. vm_compute. reflexivity. Qed.

Lemma keepRune_ascii (r : Z) :
  0 <= r <= 127 -> keepRune r = true -> slugAscii r = true.
Proof.
  intros Hr Hkeep.
  pose proof (proj1 (forallb_forall _ _) keepRune_ascii_table (Z.to_nat r)) as Htab.
  cbv beta in Htab. rewrite Z2Nat.id in Htab by lia.
  rewrite Hkeep in Htab. apply Htab. apply in_seq. lia.
Qed.

Lemma keepSlugRunes_safe (s : string) : asciiSafe (keepSlugRunes s).
Proof.
  unfold asciiSafe, keepSlugRunes. generalize (Utf8.runes s) as l.
  induction l as [| r l IH]; [constructor |].
  cbn [List.filter]. destruct (keepRune r) eqn:Hkeep; [| exact IH].
  cbn [List.map]. rewrite concat_empty_cons, list_ascii_of_string_app.
  apply Forall_app. split; [| exact IH].
  apply List.Forall_impl with (2 := EncodeRune_bytes r).
  intros c Hc Hlow. destruct (Hc Hlow) as [-> Hr].
  apply keepRune_ascii; assumption.
Qed.

Lemma asciiSafe_app (a b : string) :
  asciiSafe a -> asciiSafe b -> asciiSafe (a ++ b).
Proof.
  unfold asciiSafe. intros Ha Hb. rewrite list_ascii_of_string_app.
  apply Forall_app. split; assumption.
Qed.

(** X22: the slugs never hold an ASCII character other than a letter, a
    digit or a hyphen, whatever the text and whatever the Unicode
    tables: no space, slash, question mark, ampersand, equals or
    percent sign.  So the location between "sharing/" and the "?" of the
    search URL cannot end the path or add a parameter. *)
Theorem slug_ascii_safe (s : string) :
  asciiSafe (slugify s)
  /\ asciiSafe (slugify_local s)
  /\ match extractLocationFromAddress s with
     | Ok location => asciiSafe location /\ asciiSafe (slugify_local location)
     | Err _ => True
     end.
Proof.
  split; [apply keepSlugRunes_safe |]. split; [apply keepSlugRunes_safe |].
  unfold extractLocationFromAddress. cbv zeta.
  destruct (GoInt.len (addressSegments s) =? 0).
  - split; [constructor | apply keepSlugRunes_safe].
  - match goal with
    | |- context [firstWordIfDigit ?c] => destruct (firstWordIfDigit c) as [w | e]
    end; [| exact I].
    split; [| apply keepSlugRunes_safe].
    apply asciiSafe_app; [apply keepSlugRunes_safe |].
    apply asciiSafe_app; [| apply keepSlugRunes_safe].
    constructor; [| constructor]. intros _. reflexivity.
Qed.

End SlugBytes.

(** ** The coordinator: the stages do not depend on each other *)

Section CoordinatorProperties.
Context `{GoTables}.

Lemma getCoordinates_found (property p1 : PropertyInfo) (maps : MapsService) :
  getCoordinates property maps = inr p1 ->
  exists lat lng others,
    geocode maps (fullAddress (Address property)) = Some ((lat, lng) :: others)
    /\ p1 = with_Coordinates property lat lng.
Proof.
  unfold getCoordinates.
  destruct (Strings.isEmpty (apiKey maps)); [discriminate |].
  destruct (negb (clientCreated maps)); [discriminate |].
  destruct (geocode maps (fullAddress (Address property))) as [[| [lat lng] others] |];
    try discriminate.
  intros Heq. injection Heq as <-. eauto.
Qed.

(** The safety stage writes the safety part only. *)
Lemma getSafetyInfo_frame (property p : PropertyInfo) (search : PlaceSearch)
    (lq : LightingQuery) (gr : option (list string)) (cube : CubeFetch)
    (o : RangeOrders) :
  getSafetyInfo property search lq gr cube o = Ok p ->
  p = with_SafetyInfo property (SafetyInfo p).
Proof.
  unfold getSafetyInfo.
  destruct (analyzeSafety _ _ _ _ _ _) as [a | e]; [| discriminate].
  intros Heq. injection Heq as <-. reflexivity.
Qed.

(** The quality-of-life stage does not read the safety part. *)
Lemma findPublicTransport_safety (property : PropertyInfo) (s : SafetyInfoT)
    (search : PlaceSearch) :
  findPublicTransport (with_SafetyInfo property s) search
    = match findPublicTransport property search with
      | Ok p => Ok (with_SafetyInfo p s)
      | Err e => Err e
      end.
Proof.
  unfold findPublicTransport.
  destruct (search "train_station"%string 2000) as [trains | e]; [| reflexivity].
  destruct (search "bus_station"%string 1000) as [buses | e]; reflexivity.
Qed.

Lemma findAmenities_safety (property : PropertyInfo) (s : SafetyInfoT)
    (search : PlaceSearch) :
  findAmenities (with_SafetyInfo property s) search
    = with_SafetyInfo (findAmenities property search) s.
Proof. reflexivity. Qed.

Lemma findEntertainment_safety (property : PropertyInfo) (s : SafetyInfoT)
    (search : PlaceSearch) :
  findEntertainment (with_SafetyInfo property s) search
    = with_SafetyInfo (findEntertainment property search) s.
Proof. reflexivity. Qed.

Lemma calculateWalkScore_safety (property : PropertyInfo) (s : SafetyInfoT) :
  calculateWalkScore (with_SafetyInfo property s)
    = with_SafetyInfo (calculateWalkScore property) s.
Proof. reflexivity. Qed.

Lemma getQualityOfLife_safety (property : PropertyInfo) (s : SafetyInfoT)
    (search : PlaceSearch) :
  getQualityOfLife (with_SafetyInfo property s) search
    = with_SafetyInfo (getQualityOfLife property search) s.
Proof.
  unfold getQualityOfLife. rewrite findPublicTransport_safety.
  destruct (findPublicTransport property search) as [p | e];
    rewrite findAmenities_safety, findEntertainment_safety, calculateWalkScore_safety;
    reflexivity.
Qed.

(** It writes the quality-of-life part only. *)
Lemma getQualityOfLife_frame (property : PropertyInfo) (search : PlaceSearch) :
  getQualityOfLife property search
    = with_QualityOfLife property (QualityOfLife (getQualityOfLife property search)).
Proof.
  unfold getQualityOfLife, findPublicTransport.
  destruct (search "train_station"%string 2000) as [trains | e]; [| reflexivity].
  destruct (search "bus_station"%string 1000) as [buses | e]; reflexivity.
Qed.

(** The value stage reads the address, the rent and the value part, and
    writes the value part. *)
Lemma calculateAreaAveragePrice_frame (p p' : PropertyInfo) :
  ValueAnalysis p = ValueAnalysis p' ->
  calculateAreaAveragePrice p
    = with_ValueAnalysis p (ValueAnalysis (calculateAreaAveragePrice p')).
Proof.
  destruct p as [a r u lat lng s q v], p' as [a' r' u' lat' lng' s' q' v'].
  cbn [ValueAnalysis]. intros <-.
  unfold calculateAreaAveragePrice. cbv zeta. cbn [ValueAnalysis].
  destruct (GoInt.len (Similar v) =? 0); [reflexivity |].
  destruct (fold_left _ (Similar v) (F64.zero, 0)) as [total count].
  destruct (count >? 0); reflexivity.
Qed.

Lemma calculatePriceRating_frame (p p' : PropertyInfo) :
  RentPrice p = RentPrice p' -> ValueAnalysis p = ValueAnalysis p' ->
  calculatePriceRating p
    = with_ValueAnalysis p (ValueAnalysis (calculatePriceRating p')).
Proof.
  destruct p as [a r u lat lng s q v], p' as [a' r' u' lat' lng' s' q' v'].
  cbn [RentPrice ValueAnalysis]. intros <- <-.
  unfold calculatePriceRating. cbv zeta. cbn [RentPrice ValueAnalysis].
  destruct (F64.eqb (AreaAveragePrice v) F64.zero); reflexivity.
Qed.

Lemma rating_frame (p p' : PropertyInfo) :
  RentPrice p = RentPrice p' -> ValueAnalysis p = ValueAnalysis p' ->
  calculatePriceRating (calculateAreaAveragePrice p)
    = with_ValueAnalysis p
        (ValueAnalysis (calculatePriceRating (calculateAreaAveragePrice p'))).
Proof.
  intros Hr Hv.
  rewrite (calculateAreaAveragePrice_frame p p' Hv).
  rewrite (calculatePriceRating_frame
             (with_ValueAnalysis p (ValueAnalysis (calculateAreaAveragePrice p')))
             (calculateAreaAveragePrice p')).
  - reflexivity.
  - rewrite (calculateAreaAveragePrice_frame p' p' eq_refl). exact Hr.
  - reflexivity.
Qed.

Lemma findSimilarProperties_frame (p p' : PropertyInfo) (visit : ListingSearch) :
  Address p = Address p' -> RentPrice p = RentPrice p' ->
  ValueAnalysis p = ValueAnalysis p' ->
  findSimilarProperties p visit
    = match findSimilarProperties p' visit with
      | Ok r => Ok (with_ValueAnalysis p (ValueAnalysis r))
      | Err e => Err e
      end.
Proof.
  intros Ha Hr Hv. unfold findSimilarProperties, searchURL. cbv zeta.
  rewrite Ha, Hr, Hv.
  destruct (extractLocationFromAddress (Address p')) as [loc | e]; [| reflexivity].
  match goal with
  | |- context [visit ?url] => destruct (visit url) as [| scripts items]
  end; reflexivity.
Qed.

Lemma findSimilarProperties_keeps (p r : PropertyInfo) (visit : ListingSearch) :
  findSimilarProperties p visit = Ok r -> RentPrice r = RentPrice p.
Proof.
  unfold findSimilarProperties.
  destruct (searchURL p) as [url | e]; [| discriminate].
  destruct (visit url) as [| scripts items]; [discriminate |].
  intros Heq. injection Heq as <-. reflexivity.
Qed.

Lemma analyzeValue_frame (p p' : PropertyInfo) (visit : ListingSearch) :
  Address p = Address p' -> RentPrice p = RentPrice p' ->
  ValueAnalysis p = ValueAnalysis p' ->
  analyzeValue p visit
    = match analyzeValue p' visit with
      | Ok r => Ok (with_ValueAnalysis p (ValueAnalysis r))
      | Err e => Err e
      end.
Proof.
  intros Ha Hr Hv. unfold analyzeValue.
  rewrite (findSimilarProperties_frame p p' visit Ha Hr Hv).
  destruct (findSimilarProperties p' visit) as [r | e] eqn:Hfind.
  - rewrite (rating_frame (with_ValueAnalysis p (ValueAnalysis r)) r);
      [reflexivity | | reflexivity].
    cbn [RentPrice with_ValueAnalysis].
    rewrite (findSimilarProperties_keeps _ _ _ Hfind). exact Hr.
  - destruct e; try reflexivity; rewrite (rating_frame p p' Hr Hv); reflexivity.
Qed.

(** X23: the three analyses of [enrichPropertyInfo] do not depend on
    each other.  It fails exactly when the coordinates are not found.
    Otherwise address, rent and link are kept, the coordinates are the
    first result of the geocoder, and each part of the record is what
    its own stage makes of the located property alone: a stage neither
    reads what another stage wrote nor loses it, and a stage that fails
    leaves its part as it was. *)
Theorem enrichPropertyInfo_stages (property : PropertyInfo) (maps : MapsService)
    (search : PlaceSearch) (lq : LightingQuery) (gr : option (list string))
    (cube : CubeFetch) (o : RangeOrders) (visit : ListingSearch) :
  match getCoordinates property maps with
  | inl e => enrichPropertyInfo property maps search lq gr cube o visit = inl e
  | inr located =>
      exists p,
        enrichPropertyInfo property maps search lq gr cube o visit = inr p
        /\ Address p = Address property /\ RentPrice p = RentPrice property
        /\ URL p = URL property
        /\ Lat p = Lat located /\ Lng p = Lng located
        /\ SafetyInfo p
             = match getSafetyInfo located search lq gr cube o with
               | Ok r => SafetyInfo r
               | Err _ => SafetyInfo property
               end
        /\ QualityOfLife p = QualityOfLife (getQualityOfLife located search)
        /\ ValueAnalysis p
             = match analyzeValue located visit with
               | Ok r => ValueAnalysis r
               | Err _ => ValueAnalysis property
               end
  end.
Proof.
  unfold enrichPropertyInfo.
  destruct (getCoordinates property maps) as [e | p1] eqn:Hcoord; [reflexivity |].
  destruct (getCoordinates_found _ _ _ Hcoord) as (lat & lng & others & _ & Hp1).
  cbv zeta.
  set (p2 := match getSafetyInfo p1 search lq gr cube o with
             | Ok p => p
             | Err _ => p1
             end).
  assert (Hp2 : p2 = with_SafetyInfo p1 (SafetyInfo p2)).
  { subst p2. destruct (getSafetyInfo p1 search lq gr cube o) as [r | e] eqn:Hs.
    - apply (getSafetyInfo_frame _ _ _ _ _ _ _ Hs).
    - rewrite Hp1. reflexivity. }
  assert (Hs2 : SafetyInfo p2
                = match getSafetyInfo p1 search lq gr cube o with
                  | Ok r => SafetyInfo r
                  | Err _ => SafetyInfo property
                  end).
  { subst p2. destruct (getSafetyInfo p1 search lq gr cube o); [reflexivity |].
    rewrite Hp1. reflexivity. }
  clearbody p2. rewrite Hp2, getQualityOfLife_safety.
  set (s := SafetyInfo p2) in *.
  rewrite (getQualityOfLife_frame p1 search).
  set (q := QualityOfLife (getQualityOfLife p1 search)).
  rewrite (analyzeValue_frame (with_SafetyInfo (with_QualityOfLife p1 q) s) p1 visit
             eq_refl eq_refl eq_refl).
  assert (Hfields : Address p1 = Address property /\ RentPrice p1 = RentPrice property
                    /\ URL p1 = URL property
                    /\ ValueAnalysis p1 = ValueAnalysis property)
    by (rewrite Hp1; repeat split).
  destruct Hfields as (HA & HR & HU & HV).
  destruct (analyzeValue p1 visit) as [r | e];
    eexists; (split; [reflexivity |]);
    cbn [Address RentPrice URL Lat Lng SafetyInfo QualityOfLife ValueAnalysis
         with_ValueAnalysis with_SafetyInfo with_QualityOfLife];
    repeat split; assumption.
Qed.

End CoordinatorProperties.

Lemma enrichPropertyInfo_stages_witness :
  let property := listedProperty "12 Main St, Ranelagh, Co. Dublin" "€1,000 per month" in
  exists p,
    @enrichPropertyInfo plainTables property dublinMaps noBusSearch LightingFailed None
      CubeGetFailed sampleOrders (fun _ => VisitFailed) = inr p
    /\ SafetyInfo p = SafetyInfo property
    /\ ValueAnalysis p = ValueAnalysis property
    /\ length (Entertainment (QualityOfLife p)) = 6%nat.
Proof.
  intros property.
  pose proof (@enrichPropertyInfo_stages plainTables property dublinMaps noBusSearch
                LightingFailed None CubeGetFailed sampleOrders (fun _ => VisitFailed))
    as Hstages.
  cbn [getCoordinates dublinMaps apiKey clientCreated geocode Strings.isEmpty negb]
    in Hstages.
  destruct Hstages as (p & Hp & _ & _ & _ & _ & _ & Hs & Hq & Hv).
  exists p. split; [exact Hp |].
  split; [rewrite Hs; reflexivity |].
  split; [rewrite Hv; vm_compute; reflexivity |].
  rewrite Hq. vm_compute. reflexivity.
Defined.

(** * The address slug and the listings in both revisions *)

(** ** The address slug *)

Lemma prefix_app (p rest : string) : String.prefix p (p ++ rest) = true.
Proof.
  induction p as [| c p IH]; [apply prefix_empty |].
  change (String c p ++ rest)%string with (String c (p ++ rest)).
  cbn [String.prefix]. destruct (ascii_dec c c) as [_ | Hne]; [exact IH | congruence].
Qed.

Lemma length_append (a b : string) :
  String.length (a ++ b) = (String.length a + String.length b)%nat.
Proof.
  induction a as [| c a IH]; [reflexivity |].
  change (String c a ++ b)%string with (String c (a ++ b)).
  cbn [String.length]. rewrite IH. reflexivity.
Qed.

Lemma substring_skip (p rest : string) :
  substring (String.length p) (String.length rest) (p ++ rest) = rest.
Proof.
  induction p as [| c p IH]; [apply substring_all |].
  change (String c p ++ rest)%string with (String c (p ++ rest)).
  cbn [String.length substring]. exact IH.
Qed.

Lemma TrimPrefix_app (p rest : string) : Strings.TrimPrefix (p ++ rest) p = rest.
Proof.
  unfold Strings.TrimPrefix, Strings.HasPrefix. rewrite prefix_app, length_append.
  replace (String.length p + String.length rest - String.length p)%nat
    with (String.length rest) by lia.
  apply substring_skip.
Qed.

Lemma prefix_longer (p q s : string) :
  String.prefix p s = false -> String.prefix (p ++ q) s = false.
Proof.
  revert s. induction p as [| c p IH]; intros s Hp.
  - rewrite prefix_empty in Hp. discriminate Hp.
  - change (String c p ++ q)%string with (String c (p ++ q)).
    destruct s as [| d s]; [reflexivity |]. cbn [String.prefix] in *.
    destruct (ascii_dec c d); [apply IH; exact Hp | reflexivity].
Qed.

Lemma olderCounty_co_dot (name : string) :
  olderCounty ("Co. " ++ name) = (" " ++ name)%string.
Proof.
  unfold olderCounty.
  change ("Co. " ++ name)%string with ("Co." ++ (" " ++ name))%string.
  rewrite TrimPrefix_app.
  rewrite (TrimPrefix_no_prefix _ "Co") by reflexivity.
  apply TrimPrefix_no_prefix. reflexivity.
Qed.

Lemma olderCounty_co (name : string) :
  olderCounty ("Co " ++ name) = (" " ++ name)%string.
Proof.
  unfold olderCounty.
  rewrite (TrimPrefix_no_prefix _ "Co.") by reflexivity.
  change ("Co " ++ name)%string with ("Co" ++ (" " ++ name))%string.
  rewrite TrimPrefix_app.
  apply TrimPrefix_no_prefix. reflexivity.
Qed.

Lemma olderCounty_other (county : string) :
  Strings.HasPrefix county "Co" = false -> olderCounty county = county.
Proof.
  unfold Strings.HasPrefix. intros Hco. unfold olderCounty.
  rewrite (TrimPrefix_no_prefix county "Co.")
    by (apply (prefix_longer "Co" "."); exact Hco).
  rewrite (TrimPrefix_no_prefix county "Co") by exact Hco.
  apply TrimPrefix_no_prefix. apply (prefix_longer "Co" "unty"). exact Hco.
Qed.

Section SlugRevisions.
Context `{GoTables}.

Lemma Rev0_extractLocationFromAddress_parts (address : string) :
  let parts := Strings.Split address "," in
  3 <= GoInt.len parts ->
  Rev0.extractLocationFromAddress address
    = Strings.Map Rev0.keepLower
        (Strings.ToLower
           (Strings.TrimSpace (nth 1 parts "") ++ "-"
            ++ Strings.TrimSpace
                 (olderCounty (Strings.TrimSpace (nth (length parts - 1) parts "")))))%string.
Proof.
  intros parts Hlen. unfold Rev0.extractLocationFromAddress. cbv zeta.
  fold parts. replace (3 <=? GoInt.len parts) with true
    by (symmetry; apply Z.leb_le; exact Hlen).
  reflexivity.
Qed.

(** C7, as the code has it.  Both revisions map the two addresses to
    "ranelagh-dublin" and "y-dublin".  The revision with [slugify]: of
    the non-empty segments the second-to-last is the suburb and the last
    the county; a leading "co." or "county" of the county is removed (a
    bare "co" is not); a county that holds a digit is cut to its first
    word.  The older revision: with three parts or more the second part
    is the town and the last the county; a leading "Co. " or "Co " of
    the county is removed; at the end everything but the letters a to z
    and the hyphen is dropped, digits and spaces with it, so the county
    is not cut at a word. *)
Theorem C7_address_slug :
  extractLocationFromAddress "12 Main St, Ranelagh, Co. Dublin"
    = Ok "ranelagh-dublin"%string
  /\ extractLocationFromAddress "X, Y, Dublin 9" = Ok "y-dublin"%string
  /\ (forall (addr : string) (pre : list string) (suburb county : string),
        addressSegments addr = (pre ++ [suburb; county])%list ->
        extractLocationFromAddress addr =
          match firstWordIfDigit (stripCountyPrefix county) with
          | Ok c => Ok (slugify suburb ++ "-" ++ slugify c)%string
          | Err e => Err e
          end)
  /\ (forall rest : string,
        stripCountyPrefix ("co." ++ rest)
          = Strings.TrimSpace (Strings.TrimPrefix rest "county"))
  /\ (forall rest : string,
        stripCountyPrefix ("county" ++ rest) = Strings.TrimSpace rest)
  /\ (forall county : string,
        Strings.HasPrefix county "co." = false ->
        Strings.HasPrefix county "county" = false ->
        stripCountyPrefix county = Strings.TrimSpace county)
  /\ (forall (county w : string) (ws : list string),
        Strings.IndexFunc county Unicode.IsDigit <> -1 ->
        Strings.Fields county = w :: ws ->
        firstWordIfDigit county = Ok w)
  /\ (forall county : string,
        Strings.IndexFunc county Unicode.IsDigit = -1 ->
        firstWordIfDigit county = Ok county)
  /\ Rev0.extractLocationFromAddress "12 Main St, Ranelagh, Co. Dublin"
       = "ranelagh-dublin"%string
  /\ Rev0.extractLocationFromAddress "X, Y, Dublin 9" = "y-dublin"%string
  /\ (forall address : string,
        let parts := Strings.Split address "," in
        3 <= GoInt.len parts ->
        Rev0.extractLocationFromAddress address
          = Strings.Map Rev0.keepLower
              (Strings.ToLower
                 (Strings.TrimSpace (nth 1 parts "") ++ "-"
                  ++ Strings.TrimSpace
                       (olderCounty
                          (Strings.TrimSpace (nth (length parts - 1) parts "")))))%string)
  /\ (forall name : string, olderCounty ("Co. " ++ name) = (" " ++ name)%string)
  /\ (forall name : string, olderCounty ("Co " ++ name) = (" " ++ name)%string)
  /\ (forall county : string,
        Strings.HasPrefix county "Co" = false -> olderCounty county = county)
  /\ (forall address : string,
        Forall (fun c => slugByte c = true)
               (list_ascii_of_string (Rev0.extractLocationFromAddress address)))
  /\ Rev0.extractLocationFromAddress "X, Y, Dublin 9 West" = "y-dublinwest"%string
  /\ extractLocationFromAddress "X, Y, Dublin 9 West" = Ok "y-dublin"%string.
Proof.
  split; [vm_compute; reflexivity |].
  split; [vm_compute; reflexivity |].
  split; [exact extractLocationFromAddress_segments |].
  split; [| split; [| split; [| split; [| split]]]].
  - intros rest. unfold stripCountyPrefix. rewrite TrimPrefix_co_dot. reflexivity.
  - intros rest. unfold stripCountyPrefix.
    rewrite (TrimPrefix_no_prefix _ "co.") by apply county_not_co_dot.
    rewrite TrimPrefix_county. reflexivity.
  - intros county Hco Hcounty. unfold stripCountyPrefix.
    rewrite (TrimPrefix_no_prefix _ "co.") by exact Hco.
    rewrite TrimPrefix_no_prefix by exact Hcounty. reflexivity.
  - intros county w ws Hdigit Hfields. unfold firstWordIfDigit.
    replace (Strings.IndexFunc county Unicode.IsDigit =? -1) with false
      by (symmetry; apply Z.eqb_neq; exact Hdigit).
    cbn [negb]. rewrite Hfields. reflexivity.
  - intros county Hnone. unfold firstWordIfDigit. rewrite Hnone. reflexivity.
  - split; [vm_compute; reflexivity |].
    split; [vm_compute; reflexivity |].
    split; [exact Rev0_extractLocationFromAddress_parts |].
    split; [exact olderCounty_co_dot |].
    split; [exact olderCounty_co |].
    split; [exact olderCounty_other |].
    split.
    + intros address. unfold Rev0.extractLocationFromAddress. cbv zeta.
      destruct (3 <=? GoInt.len (Strings.Split address ","));
        apply Map_keepLower_bytes.
    + split; vm_compute; reflexivity.
Qed.

End SlugRevisions.

Lemma C7_address_slug_witness :
  addressSegments (H := plainTables) "Flat 2, 5 High St, Swords, County Dublin"
    = (["flat 2"; "5 high st"] ++ ["swords"; "county dublin"])%list%string
  /\ extractLocationFromAddress (H := plainTables)
       "Flat 2, 5 High St, Swords, County Dublin" = Ok "swords-dublin"%string
  /\ 3 <= GoInt.len (Strings.Split "1 Quay St, Docklands, Co. Dublin" ",")
  /\ Rev0.extractLocationFromAddress (H := plainTables)
       "1 Quay St, Docklands, Co. Dublin" = "docklands-dublin"%string.
Proof.
  assert (Hseg : addressSegments (H := plainTables)
                   "Flat 2, 5 High St, Swords, County Dublin"
                 = (["flat 2"; "5 high st"] ++ ["swords"; "county dublin"])%list%string)
    by (vm_compute; reflexivity).
  assert (Hlen : 3 <= GoInt.len (Strings.Split "1 Quay St, Docklands, Co. Dublin" ","))
    by (vm_compute; discriminate).
  pose proof (@C7_address_slug plainTables) as Hslug.
  destruct Hslug as (_ & _ & Hsegments & _ & _ & _ & _ & _ & _ & _ & Hparts & _).
  split; [exact Hseg |].
  split; [rewrite (Hsegments _ _ _ _ Hseg); vm_compute; reflexivity |].
  split; [exact Hlen |].
  rewrite (Hparts "1 Quay St, Docklands, Co. Dublin"%string Hlen).
  vm_compute. reflexivity.
Defined.

(** The claim at two concrete addresses.  In the revision with
    [slugify] a bare "co" is not removed: the token is not "y-dublin".
    In the older revision the town is the second part, not the
    second-to-last: the token is not "c-dublin". *)
Lemma C7_counterexample_revisions :
  extractLocationFromAddress (H := plainTables) "X, Y, Co Dublin"
    = Ok "y-co-dublin"%string
  /\ extractLocationFromAddress (H := plainTables) "X, Y, Co Dublin"
       <> Ok "y-dublin"%string
  /\ Rev0.extractLocationFromAddress (H := plainTables) "A, B, C, Dublin"
       = "b-dublin"%string
  /\ Rev0.extractLocationFromAddress (H := plainTables) "A, B, C, Dublin"
       <> "c-dublin"%string.
Proof.
  assert (Hv : extractLocationFromAddress (H := plainTables) "X, Y, Co Dublin"
               = Ok "y-co-dublin"%string) by (vm_compute; reflexivity).
  assert (Hw : Rev0.extractLocationFromAddress (H := plainTables) "A, B, C, Dublin"
               = "b-dublin"%string) by (vm_compute; reflexivity).
  split; [exact Hv |]. split; [rewrite Hv; discriminate |].
  split; [exact Hw |]. rewrite Hw. discriminate.
Qed.

(** ** The listings kept *)

Lemma of_Z_nonzero (n : Z) : n <> 0 -> F64.eqb (F64.of_Z n) F64.zero = false.
Proof.
  intros Hn. unfold F64.of_Z, F64.zero.
  assert (Hone : F64.round64 (inject_Z 1) = F_fin (inject_Z 1))
    by (apply round64_int; vm_compute; reflexivity).
  assert (Hmone : F64.round64 (inject_Z (-1)) = F_fin (inject_Z (-1)))
    by (apply round64_int; vm_compute; reflexivity).
  destruct (Z.lt_total n 0) as [Hneg | [Hz | Hpos]]; [| contradiction |].
  - assert (Hle : (inject_Z n <= inject_Z (-1))%Q)
      by (rewrite <- Zle_Qle; lia).
    apply round64_mono in Hle. rewrite Hmone in Hle.
    destruct (F64.round64 (inject_Z n)) as [v | neg |]; [| reflexivity | reflexivity].
    apply leb_fin_inv in Hle. cbn [F64.eqb].
    destruct (Qeq_bool v 0) eqn:Hv; [| reflexivity].
    apply Qeq_bool_eq in Hv. rewrite Hv in Hle. exfalso.
    change (inject_Z (-1)) with (-1 # 1)%Q in Hle. unfold Qle in Hle. cbn in Hle. lia.
  - assert (Hle : (inject_Z 1 <= inject_Z n)%Q)
      by (rewrite <- Zle_Qle; lia).
    apply round64_mono in Hle. rewrite Hone in Hle.
    destruct (F64.round64 (inject_Z n)) as [v | neg |]; [| reflexivity | reflexivity].
    apply leb_fin_inv in Hle. cbn [F64.eqb].
    destruct (Qeq_bool v 0) eqn:Hv; [| reflexivity].
    apply Qeq_bool_eq in Hv. rewrite Hv in Hle. exfalso.
    change (inject_Z 1) with (1 # 1)%Q in Hle. unfold Qle in Hle. cbn in Hle. lia.
Qed.

Lemma site_url_not_empty (path : string) :
  ("https://www.daft.ie" ++ path)%string <> EmptyString.
Proof.
  change ("https://www.daft.ie" ++ path)%string
    with (String "h" ("ttps://www.daft.ie" ++ path)).
  discriminate.
Qed.

(** The adverts a script contributes have a price other than 0 and a
    link; their address is not looked at. *)
Lemma advertsOf_priced (script : option (list Advert)) :
  Forall (fun k => F64.eqb (SimilarProperty.Price k) F64.zero = false
                   /\ SimilarProperty.URL k <> EmptyString)
         (advertsOf script).
Proof.
  destruct script as [adverts |]; [| apply List.Forall_nil].
  apply List.Forall_forall. intros k Hk. cbn [advertsOf] in Hk.
  apply in_map_iff in Hk as (ad & <- & Hin).
  apply filter_In in Hin as [_ Hprice].
  apply negb_true_iff, Z.eqb_neq in Hprice.
  cbn [listingOfAdvert SimilarProperty.Price SimilarProperty.URL].
  split; [apply of_Z_nonzero; exact Hprice | apply site_url_not_empty].
Qed.

Section ListingRevisions.
Context `{GoTables}.

Lemma Rev0_onResult_spec (similar : list SimilarProperty.t) (e : ResultItem) :
  Rev0.onResult similar e =
    if olderKeepable e then (similar ++ [olderListingOf e])%list else similar.
Proof. reflexivity. Qed.

Lemma fold_Rev0_onResult (items : list ResultItem)
    (similar : list SimilarProperty.t) :
  fold_left Rev0.onResult items similar =
    (similar ++ List.map olderListingOf (List.filter olderKeepable items))%list.
Proof.
  revert similar. induction items as [| e items IH]; intros similar.
  - cbn. symmetry. apply app_nil_r.
  - cbn [fold_left List.filter]. rewrite IH, Rev0_onResult_spec.
    destruct (olderKeepable e); [| reflexivity].
    cbn [List.map]. rewrite <- app_assoc. reflexivity.
Qed.

Lemma olderKeepable_spec (e : ResultItem) :
  olderKeepable e = true ->
  item_price e <> EmptyString /\ item_address e <> EmptyString
  /\ item_href e <> EmptyString.
Proof.
  unfold olderKeepable.
  rewrite !andb_true_iff, !negb_true_iff, !isEmpty_false. tauto.
Qed.

(** C8, as the code has it.  The revision with the [__NEXT_DATA__]
    handler stores the first five of: the listings the record had, then
    the adverts of the scripts that have a price other than 0 (their
    address is not looked at), then the result items that have a link,
    an address that is not blank and a price that does not parse to 0;
    each group in the order of the page, nothing sorted.  The older
    revision stores the first five of: the listings the record had, then
    the result items whose price text, address and link are all
    non-empty, in the order of the page; the parsed price is not
    looked at. *)
Theorem C8_similar_listings (property : PropertyInfo) (visit : ListingSearch)
    (scripts : list (option (list Advert))) (items : list ResultItem) :
  (forall url : string,
     searchURL property = Ok url ->
     visit url = Visited scripts items ->
     exists p,
       findSimilarProperties property visit = Ok p
       /\ Similar (ValueAnalysis p)
            = firstn 5
                (Similar (ValueAnalysis property)
                   ++ flat_map advertsOf scripts
                   ++ List.map listingOf (List.filter keepable items))%list
       /\ (length (Similar (ValueAnalysis p)) <= 5)%nat
       /\ Forall (fun k => F64.eqb (SimilarProperty.Price k) F64.zero = false
                           /\ SimilarProperty.URL k <> EmptyString)
                 (flat_map advertsOf scripts)
       /\ Forall (fun e => In e items
                           /\ item_href e <> EmptyString
                           /\ Strings.TrimSpace (item_address e) <> EmptyString
                           /\ F64.eqb (extractPriceValue
                                         (Strings.TrimSpace (item_price e)))
                                      F64.zero = false)
                 (List.filter keepable items)
       /\ Forall (fun k => SimilarProperty.Address k <> EmptyString
                           /\ SimilarProperty.URL k <> EmptyString
                           /\ F64.eqb (SimilarProperty.Price k) F64.zero = false)
                 (List.map listingOf (List.filter keepable items)))
  /\ (visit (Rev0.searchURL property) = Visited scripts items ->
      exists p,
        Rev0.findSimilarProperties property visit = Ok p
        /\ Similar (ValueAnalysis p)
             = firstn 5
                 (Similar (ValueAnalysis property)
                    ++ List.map olderListingOf (List.filter olderKeepable items))%list
        /\ (length (Similar (ValueAnalysis p)) <= 5)%nat
        /\ Forall (fun e => In e items
                            /\ item_price e <> EmptyString
                            /\ item_address e <> EmptyString
                            /\ item_href e <> EmptyString)
                  (List.filter olderKeepable items)).
Proof.
  split.
  - intros url Hurl Hvisit.
    destruct (findSimilarProperties_kept property visit url scripts items Hurl Hvisit)
      as (p & Hp & Hsim).
    exists p. rewrite fold_onNextData, <- app_assoc in Hsim.
    split; [exact Hp |]. split; [exact Hsim |].
    split; [rewrite Hsim; apply firstn_length_le5 |].
    split.
    { apply List.Forall_forall. intros k Hk. apply in_flat_map in Hk as (s & _ & Hk).
      pose proof (advertsOf_priced s) as Hall.
      rewrite List.Forall_forall in Hall. apply Hall. exact Hk. }
    assert (Hkept : Forall (fun e => In e items /\ keepable e = true)
                           (List.filter keepable items)).
    { apply List.Forall_forall. intros e Hin. apply filter_In. exact Hin. }
    split.
    + eapply List.Forall_impl; [| exact Hkept].
      intros e [Hin Hk]. apply keepable_spec in Hk as (Hh & Ha & _ & Hprice).
      repeat split; assumption.
    + apply List.Forall_forall. intros k Hk.
      apply in_map_iff in Hk as (e & <- & Hin).
      rewrite List.Forall_forall in Hkept. destruct (Hkept e Hin) as [_ Hke].
      apply keepable_spec in Hke as (_ & Ha & Hu & Hprice).
      repeat split; assumption.
  - intros Hvisit. unfold Rev0.findSimilarProperties. rewrite Hvisit.
    rewrite cap5, fold_Rev0_onResult.
    eexists. split; [reflexivity |].
    cbn [ValueAnalysis with_ValueAnalysis Similar set_Similar].
    split; [reflexivity |].
    split; [apply firstn_length_le5 |].
    apply List.Forall_forall. intros e Hin. apply filter_In in Hin as [Hin Hk].
    split; [exact Hin |]. apply olderKeepable_spec. exact Hk.
Qed.

End ListingRevisions.

Lemma C8_similar_listings_witness :
  let property := listedProperty "12 Main St, Ranelagh, Co. Dublin" "€1,000 per month" in
  let url := "https://www.daft.ie/sharing/ranelagh-dublin?rentalPrice_from=800&rentalPrice_to=1200"%string in
  let visit : ListingSearch := fun _ => Visited [None; Some []] sampleItems in
  searchURL (H := plainTables) property = Ok url
  /\ (exists p,
        findSimilarProperties (H := plainTables) property visit = Ok p
        /\ List.map SimilarProperty.URL (Similar (ValueAnalysis p))
             = [ "https://www.daft.ie/share/1"; "https://www.daft.ie/share/3";
                 "https://www.daft.ie/share/5"; "https://www.daft.ie/share/7";
                 "https://www.daft.ie/share/8" ]%string)
  /\ (exists p,
        Rev0.findSimilarProperties (H := plainTables) property visit = Ok p
        /\ List.map SimilarProperty.URL (Similar (ValueAnalysis p))
             = [ "https://www.daft.ie/share/1"; "https://www.daft.ie/share/3";
                 "https://www.daft.ie/share/4"; "https://www.daft.ie/share/5";
                 "https://www.daft.ie/share/6" ]%string).
Proof.
  intros property url visit.
  assert (Hurl : searchURL (H := plainTables) property = Ok url)
    by (vm_compute; reflexivity).
  split; [exact Hurl |].
  destruct (@C8_similar_listings plainTables property visit
              [None; Some []] sampleItems) as [Hnew Hold].
  split.
  - destruct (Hnew url Hurl eq_refl) as (p & Hp & Hs & _).
    exists p. split; [exact Hp |]. rewrite Hs. vm_compute. reflexivity.
  - destruct (Hold eq_refl) as (p & Hp & Hs & _).
    exists p. split; [exact Hp |]. rewrite Hs. vm_compute. reflexivity.
Defined.

(** The claim at two concrete pages.  In the revision with the
    [__NEXT_DATA__] handler an advert without address is kept: the
    stored sequence has an entry whose address is empty.  In the older
    revision a result item whose price text parses to 0 is kept: the
    stored sequence has an entry whose price is 0. *)
Lemma C8_counterexample_kept_entries :
  let property := listedProperty "12 Main St, Ranelagh, Co. Dublin" "€1,000 per month" in
  let complete (k : SimilarProperty.t) : Prop :=
    SimilarProperty.Address k <> EmptyString
    /\ SimilarProperty.URL k <> EmptyString
    /\ F64.eqb (SimilarProperty.Price k) F64.zero = false in
  (exists p,
     findSimilarProperties (H := plainTables) property
       (fun _ => Visited [Some [namelessAdvert]] []) = Ok p
     /\ Similar (ValueAnalysis p)
          = [ {| SimilarProperty.Address := "";
                 SimilarProperty.Price := F_fin 250;
                 SimilarProperty.URL := "https://www.daft.ie/share/11" |} ]
     /\ ~ Forall complete (Similar (ValueAnalysis p)))
  /\ (exists p,
        Rev0.findSimilarProperties (H := plainTables) property
          (fun _ => Visited [] [item "/share/4" "4 Elm Rd, Ranelagh" "€0 per month"])
          = Ok p
        /\ Similar (ValueAnalysis p)
             = [ {| SimilarProperty.Address := "4 Elm Rd, Ranelagh";
                    SimilarProperty.Price := F64.zero;
                    SimilarProperty.URL := "https://www.daft.ie/share/4" |} ]
        /\ ~ Forall complete (Similar (ValueAnalysis p))).
Proof.
  intros property complete. split.
  - assert (Hurl : exists url, searchURL (H := plainTables) property = Ok url)
      by (eexists; vm_compute; reflexivity).
    destruct Hurl as [url Hurl].
    destruct (findSimilarProperties_kept (H := plainTables) property
                (fun _ => Visited [Some [namelessAdvert]] []) url
                [Some [namelessAdvert]] [] Hurl eq_refl) as (p & Hp & Hs).
    exists p. split; [exact Hp |].
    assert (Hsim : Similar (ValueAnalysis p)
                   = [ {| SimilarProperty.Address := "";
                          SimilarProperty.Price := F_fin 250;
                          SimilarProperty.URL := "https://www.daft.ie/share/11" |} ])
      by (rewrite Hs; vm_compute; reflexivity).
    split; [exact Hsim |]. rewrite Hsim. intros Hall.
    apply List.Forall_inv in Hall. destruct Hall as [Haddr _].
    apply Haddr. reflexivity.
  - unfold Rev0.findSimilarProperties. cbv beta.
    rewrite cap5, fold_Rev0_onResult.
    eexists. split; [reflexivity |].
    cbn [ValueAnalysis with_ValueAnalysis Similar set_Similar].
    assert (Hsim : firstn 5
                     (Similar (ValueAnalysis property)
                        ++ List.map (olderListingOf (H := plainTables))
                             (List.filter olderKeepable
                                [item "/share/4" "4 Elm Rd, Ranelagh" "€0 per month"]))%list
                   = [ {| SimilarProperty.Address := "4 Elm Rd, Ranelagh";
                          SimilarProperty.Price := F64.zero;
                          SimilarProperty.URL := "https://www.daft.ie/share/4" |} ])
      by (vm_compute; reflexivity).
    rewrite Hsim. split; [reflexivity |]. intros Hall.
    apply List.Forall_inv in Hall. destruct Hall as (_ & _ & Hprice).
    vm_compute in Hprice. discriminate Hprice.
Qed.
